(** * Cohort clean-and-split: a shallow embedding of [clean_and_split.py]

    The development follows the Python module function by function:
    the text helpers of the interpreter ([str] methods, [re], [datetime])
    come first, then the header reconciler, the field extractors, the
    identifier assigner and the record builder of [main]; then the
    lemmas on the matcher and on each part of the program, the worked
    examples of the specification, and the properties of the
    specification, each decided on the model.  A last part holds
    lemmas on the rest of the program and further properties of it.

    Text.  A Python [str] is a sequence of Unicode code points, modelled
    as [list N].  The behaviour of the interpreter on the ASCII range is
    written out; what it does on code points from 128 on (which
    characters are digits, spaces or letters, how case is mapped, how a
    string is decomposed) comes from the Unicode database of the
    interpreter and is taken as a parameter, [unicode_tables].  A run
    on ASCII text never consults the database: such runs are stated for
    every database, and closed instances are taken at [ascii_only].

    Effects.  A function that can raise returns a [result]; the counter
    registry that [build_student_id] mutates is passed in and returned;
    [date.today()] and the rows of the file, which [csv.reader] hands
    out one by one, are inputs. *)

From Stdlib Require Import ZArith NArith List String Ascii Bool Lia.
From Stdlib Require Import Decimal DecimalNat DecimalZ DecimalPos.
From stdpp Require Import base option list gmap.

Import ListNotations.

Abbreviation char := N.
Abbreviation str := (list N).

(** ASCII literals: the code points of the bytes of a Rocq string. *)
Definition u (s : string) : str :=
  List.map N_of_ascii (list_ascii_of_string s).
Arguments u s%_string.

(** ** The Unicode database, beyond ASCII *)

Record unicode_tables : Type := {
  (** category Nd with the value of the digit: [\d] of [re], [int] *)
  decimal_value : char -> option nat;
  (** [str.isdigit] (decimal digits and other digit characters) *)
  digit_like : char -> bool;
  (** [str.isspace], [\s] of [re] *)
  space_like : char -> bool;
  (** [str.isalnum], the alphanumeric part of [\w] *)
  alnum_like : char -> bool;
  (** [str.lower] and [str.upper] of a string that is not pure ASCII *)
  lower_of : str -> str;
  upper_of : str -> str;
  (** equality of two characters under [re.IGNORECASE] *)
  fold_eq : char -> char -> bool;
  (** [unicodedata.normalize('NFKD', s)] of a string that is not pure ASCII *)
  nfkd_of : str -> str;
  (** [unicodedata.combining(ch) != 0] *)
  combining_of : char -> bool
}.

(** The database that knows nothing beyond ASCII; enough to run the
    program on ASCII text. *)
Definition ascii_only : unicode_tables :=
  {| decimal_value := fun _ => None;
     digit_like := fun _ => false;
     space_like := fun _ => false;
     alnum_like := fun _ => false;
     lower_of := fun s => s;
     upper_of := fun s => s;
     fold_eq := N.eqb;
     nfkd_of := fun s => s;
     combining_of := fun _ => false |}.

(** ** Python's built-in text operations *)

Module Py.

Definition is_ascii (c : char) : bool := (c <? 128)%N.
Definition between (lo hi c : char) : bool := ((lo <=? c) && (c <=? hi))%N.
Definition ascii_digit (c : char) : bool := between 48 57 c.
Definition ascii_upper (c : char) : bool := between 65 90 c.
Definition ascii_lower (c : char) : bool := between 97 122 c.
Definition ascii_letter (c : char) : bool := ascii_upper c || ascii_lower c.
(** tab, LF, VT, FF, CR, the four separators FS GS RS US, and space *)
Definition ascii_space (c : char) : bool :=
  between 9 13 c || between 28 31 c || (c =? 32)%N.

Definition to_lower (c : char) : char := if ascii_upper c then (c + 32)%N else c.
Definition to_upper (c : char) : char := if ascii_lower c then (c - 32)%N else c.

Section WithTables.
Variable U : unicode_tables.

(** value of a decimal digit, [None] for any other character *)
Definition digit_value (c : char) : option nat :=
  if is_ascii c
  then (if ascii_digit c then Some (N.to_nat (c - 48)) else None)
  else decimal_value U c.

(** [\d] *)
Definition is_digit (c : char) : bool :=
  match digit_value c with Some _ => true | None => false end.

(** [\s], [str.isspace] *)
Definition is_space (c : char) : bool :=
  if is_ascii c then ascii_space c else space_like U c.

(** [\w] *)
Definition is_word (c : char) : bool :=
  if is_ascii c then ascii_letter c || ascii_digit c || (c =? 95)%N
  else alnum_like U c.

(** one character of [str.isdigit] *)
Definition is_digit_like (c : char) : bool :=
  if is_ascii c then ascii_digit c else digit_like U c.

(** [s.isdigit()] *)
Definition isdigit (s : str) : bool :=
  match s with [] => false | _ => forallb is_digit_like s end.

(** [s.lower()], [s.upper()] *)
Definition lower (s : str) : str :=
  if forallb is_ascii s then List.map to_lower s else lower_of U s.
Definition upper (s : str) : str :=
  if forallb is_ascii s then List.map to_upper s else upper_of U s.

(** two characters equal under [re.IGNORECASE] *)
Definition ci_eq (a b : char) : bool :=
  if is_ascii a && is_ascii b then (to_lower a =? to_lower b)%N
  else fold_eq U a b.

(** [unicodedata.normalize('NFKD', s)] *)
Definition nfkd (s : str) : str :=
  if forallb is_ascii s then s else nfkd_of U s.

(** [unicodedata.combining(ch)] is non-zero *)
Definition combining (c : char) : bool :=
  if is_ascii c then false else combining_of U c.

(** [s.lstrip()], [s.rstrip()], [s.strip()] *)
Fixpoint lstrip (s : str) : str :=
  match s with
  | c :: r => if is_space c then lstrip r else s
  | [] => []
  end.
Definition rstrip (s : str) : str := rev (lstrip (rev s)).
Definition strip (s : str) : str := rstrip (lstrip s).

(** [s.split()]: the maximal runs of non-space characters.  [cur] holds
    the run being read, reversed. *)
Fixpoint split_go (cur : str) (s : str) : list str :=
  match s with
  | [] => match cur with [] => [] | _ => [rev cur] end
  | c :: r =>
      if is_space c
      then match cur with [] => split_go [] r | _ => rev cur :: split_go [] r end
      else split_go (c :: cur) r
  end.
Definition split (s : str) : list str := split_go [] s.

(** [int(s)] on a non-empty string of decimal digits; [None] stands for
    [ValueError].  (The interpreter accepts more: signs, blanks around
    the number, underscores.  The program only calls [int] on digit
    strings, and refusing the rest can only add exceptions here.) *)
Fixpoint int_go (acc : Z) (s : str) : option Z :=
  match s with
  | [] => Some acc
  | c :: r =>
      match digit_value c with
      | Some d => int_go (10 * acc + Z.of_nat d) r
      | None => None
      end
  end.
Definition int_ (s : str) : option Z :=
  match s with [] => None | _ => int_go 0 s end.

End WithTables.

(** [sep.join(parts)] *)
Fixpoint join (sep : str) (parts : list str) : str :=
  match parts with
  | [] => []
  | [p] => p
  | p :: rest => p ++ sep ++ join sep rest
  end.

(** [s.replace(a, b)] for a one-character [a] *)
Definition replace_char (a : char) (b : str) (s : str) : str :=
  flat_map (fun c => if (c =? a)%N then b else [c]) s.

(** [a == b] on strings *)
Fixpoint eqb (a b : str) : bool :=
  match a, b with
  | [], [] => true
  | x :: a', y :: b' => (x =? y)%N && eqb a' b'
  | _, _ => false
  end.

(** [s.startswith(p)] *)
Fixpoint startswith (p s : str) : bool :=
  match p, s with
  | [], _ => true
  | x :: p', y :: s' => (x =? y)%N && startswith p' s'
  | _ :: _, [] => false
  end.

(** [p in s] on strings *)
Fixpoint contains (p s : str) : bool :=
  startswith p s || match s with [] => false | _ :: r => contains p r end.

(** [s.count(c)] for a one-character [c] *)
Definition count_char (c : char) (s : str) : nat :=
  length (List.filter (N.eqb c) s).

(** [x in l] on a list of strings *)
Definition mem (x : str) (l : list str) : bool := existsb (eqb x) l.

(** [s.splitlines()]: the line boundaries are LF, CR, CR LF, VT, FF, FS,
    GS, RS, NEL, LS and PS; a final boundary opens no empty last line. *)
Definition line_break (c : char) : bool :=
  between 10 13 c || between 28 30 c || (c =? 133)%N
  || (c =? 8232)%N || (c =? 8233)%N.

Fixpoint lines_go (cur : str) (s : str) : list str :=
  match s with
  | [] => match cur with [] => [] | _ => [rev cur] end
  | c :: r =>
      if line_break c
      then rev cur ::
           match c, r with
           | 13%N, 10%N :: r' => lines_go [] r'
           | _, _ => lines_go [] r
           end
      else lines_go (c :: cur) r
  end.
Definition splitlines (s : str) : list str := lines_go [] s.

(** [str(n)] of a non-negative and of an arbitrary integer *)
Fixpoint uint_chars (d : Decimal.uint) : str :=
  match d with
  | Decimal.Nil => []
  | Decimal.D0 d => 48%N :: uint_chars d
  | Decimal.D1 d => 49%N :: uint_chars d
  | Decimal.D2 d => 50%N :: uint_chars d
  | Decimal.D3 d => 51%N :: uint_chars d
  | Decimal.D4 d => 52%N :: uint_chars d
  | Decimal.D5 d => 53%N :: uint_chars d
  | Decimal.D6 d => 54%N :: uint_chars d
  | Decimal.D7 d => 55%N :: uint_chars d
  | Decimal.D8 d => 56%N :: uint_chars d
  | Decimal.D9 d => 57%N :: uint_chars d
  end.

Definition str_of_nat (n : nat) : str := uint_chars (Nat.to_uint n).

Definition str_of_Z (z : Z) : str :=
  match Z.to_int z with
  | Decimal.Pos d => uint_chars d
  | Decimal.Neg d => 45%N :: uint_chars d
  end.

(** [a or b] on strings, [a or b] on optional strings: the first truthy
    operand, else the last one *)
Definition or_str (a b : str) : str := match a with [] => b | _ => a end.

Definition truthy (o : option str) : bool :=
  match o with Some (_ :: _) => true | _ => false end.

Definition or_opt (a b : option str) : option str := if truthy a then a else b.

(** [o or ""] *)
Definition or_empty (o : option str) : str :=
  match o with Some s => s | None => [] end.

End Py.

(** ** The regular expressions of [re]

    A backtracking matcher in continuation-passing style, for the
    constructs the program uses: character classes, sequence, ordered
    alternation, greedy bounded and unbounded repetition, capturing
    groups, the word boundary and the one-character negative
    look-behind and look-ahead.  A position in the subject string is a
    cursor: the characters already passed (nearest first) and the
    characters still ahead. *)

Module Re.

Inductive regex : Type :=
| Eps : regex
| Cls : (char -> bool) -> regex
| Seq : regex -> regex -> regex
| Alt : regex -> regex -> regex
| Rep : regex -> nat -> option nat -> regex
| Grp : nat -> regex -> regex
| Bound : (char -> bool) -> regex
| NotBehind : (char -> bool) -> regex
| NotAhead : (char -> bool) -> regex.

Record cursor : Type := Cursor { behind : str; ahead : str }.

Abbreviation captures := (list (nat * str)).

(** the text between an earlier cursor and a later one *)
Definition span (c c' : cursor) : str :=
  rev (firstn (length (behind c') - length (behind c)) (behind c')).

Definition holds_at (p : char -> bool) (s : str) : bool :=
  match s with x :: _ => p x | [] => false end.

Definition below (i : nat) (hi : option nat) : bool :=
  match hi with Some h => i <? h | None => true end.

(** the loop of a greedy repetition [{lo,hi}]: [i] rounds are done;
    another round is tried first, and only if all that follows fails
    does the repetition stop here.  A round that matches the empty
    string once [lo] is reached ends the loop, as in [re]. *)
Fixpoint rep_loop {A : Type}
    (body : cursor -> captures -> (cursor -> captures -> option A) -> option A)
    (lo : nat) (hi : option nat) (k : cursor -> captures -> option A)
    (fuel i : nat) (c : cursor) (g : captures) {struct fuel} : option A :=
  match fuel with
  | O => None
  | S fuel' =>
      let stop := if lo <=? i then k c g else None in
      if below i hi
      then match body c g
                   (fun c1 g1 =>
                      if (length (ahead c1) <? length (ahead c)) || (i <? lo)
                      then rep_loop body lo hi k fuel' (S i) c1 g1 else None) with
           | Some a => Some a
           | None => stop
           end
      else stop
  end.

Fixpoint exec {A : Type} (r : regex) (c : cursor) (g : captures)
    (k : cursor -> captures -> option A) {struct r} : option A :=
  match r with
  | Eps => k c g
  | Cls p =>
      match ahead c with
      | x :: rest => if p x then k (Cursor (x :: behind c) rest) g else None
      | [] => None
      end
  | Seq r1 r2 => exec r1 c g (fun c1 g1 => exec r2 c1 g1 k)
  | Alt r1 r2 =>
      match exec r1 c g k with
      | Some a => Some a
      | None => exec r2 c g k
      end
  | Rep r1 lo hi =>
      rep_loop (fun c1 g1 k1 => exec r1 c1 g1 k1) lo hi k
               (S (length (ahead c) + lo)) 0 c g
  | Grp n r1 => exec r1 c g (fun c1 g1 => k c1 ((n, span c c1) :: g1))
  | Bound w =>
      if xorb (holds_at w (behind c)) (holds_at w (ahead c)) then k c g
      else None
  | NotBehind p => if holds_at p (behind c) then None else k c g
  | NotAhead p => if holds_at p (ahead c) then None else k c g
  end.

(** What a successful run of the matcher has done, as a relation: the
    pattern takes the cursor and the captures before it to the cursor
    and the captures after it.  A repetition is unrolled one round at a
    time, its bounds counted down. *)
Inductive matches : regex -> cursor -> captures -> cursor -> captures -> Prop :=
| m_eps c g : matches Eps c g c g
| m_cls p x bh ah g :
    p x = true -> matches (Cls p) (Cursor bh (x :: ah)) g (Cursor (x :: bh) ah) g
| m_seq r1 r2 c g c1 g1 c2 g2 :
    matches r1 c g c1 g1 -> matches r2 c1 g1 c2 g2 ->
    matches (Seq r1 r2) c g c2 g2
| m_alt_l r1 r2 c g c1 g1 : matches r1 c g c1 g1 -> matches (Alt r1 r2) c g c1 g1
| m_alt_r r1 r2 c g c1 g1 : matches r2 c g c1 g1 -> matches (Alt r1 r2) c g c1 g1
| m_rep_stop r hi c g : matches (Rep r 0 hi) c g c g
| m_rep_step r lo hi c g c1 g1 c2 g2 :
    below 0 hi = true ->
    matches r c g c1 g1 ->
    matches (Rep r (pred lo) (option_map pred hi)) c1 g1 c2 g2 ->
    matches (Rep r lo hi) c g c2 g2
| m_grp n r c g c1 g1 :
    matches r c g c1 g1 -> matches (Grp n r) c g c1 ((n, span c c1) :: g1)
| m_bound w c g :
    xorb (holds_at w (behind c)) (holds_at w (ahead c)) = true ->
    matches (Bound w) c g c g
| m_not_behind p c g : holds_at p (behind c) = false -> matches (NotBehind p) c g c g
| m_not_ahead p c g : holds_at p (ahead c) = false -> matches (NotAhead p) c g c g.

(** a match object *)
Record found : Type := Found { m_start : cursor; m_end : cursor; m_caps : captures }.

(** [m.group(0)] and [m.group(n)] *)
Definition group0 (m : found) : str := span (m_start m) (m_end m).

Fixpoint lookup_cap (n : nat) (g : captures) : option str :=
  match g with
  | [] => None
  | (i, s) :: g' => if i =? n then Some s else lookup_cap n g'
  end.

Definition group (n : nat) (m : found) : str :=
  match lookup_cap n (m_caps m) with Some s => s | None => [] end.

Definition match_at (r : regex) (c : cursor) : option found :=
  exec r c [] (fun c' g => Some (Found c c' g)).

(** the leftmost match at or after the cursor *)
Fixpoint scan (r : regex) (bh ah : str) : option found :=
  match match_at r (Cursor bh ah) with
  | Some m => Some m
  | None =>
      match ah with
      | [] => None
      | x :: rest => scan r (x :: bh) rest
      end
  end.

(** [re.search] *)
Definition search (r : regex) (s : str) : option found := scan r [] s.

(** [if RE.search(s)] *)
Definition hit (r : regex) (s : str) : bool :=
  match search r s with Some _ => true | None => false end.

(** [re.finditer]: the non-overlapping matches from left to right.  None
    of the patterns the program iterates matches the empty string; after
    an empty match the scan moves on by one character. *)
Fixpoint iter (fuel : nat) (r : regex) (c : cursor) : list found :=
  match fuel with
  | O => []
  | S fuel' =>
      match scan r (behind c) (ahead c) with
      | None => []
      | Some m =>
          m :: (if length (ahead (m_end m)) <? length (ahead (m_start m))
                then iter fuel' r (m_end m)
                else match ahead (m_end m) with
                     | [] => []
                     | x :: rest =>
                         iter fuel' r (Cursor (x :: behind (m_end m)) rest)
                     end)
      end
  end.

Definition finditer (r : regex) (s : str) : list found :=
  iter (S (length s)) r (Cursor [] s).

(** [re.findall] of a pattern without group, and of one with one group *)
Definition findall (r : regex) (s : str) : list str :=
  List.map group0 (finditer r s).

(** [re.sub] with a replacement computed from the match *)
Fixpoint sub_go (fuel : nat) (r : regex) (repl : found -> str) (c : cursor)
    : str :=
  match fuel with
  | O => ahead c
  | S fuel' =>
      match scan r (behind c) (ahead c) with
      | None => ahead c
      | Some m =>
          span c (m_start m) ++ repl m ++
          (if length (ahead (m_end m)) <? length (ahead (m_start m))
           then sub_go fuel' r repl (m_end m)
           else match ahead (m_end m) with
                | [] => []
                | x :: rest =>
                    x :: sub_go fuel' r repl (Cursor (x :: behind (m_end m)) rest)
                end)
      end
  end.

Definition sub (r : regex) (repl : found -> str) (s : str) : str :=
  sub_go (S (length s)) r repl (Cursor [] s).

(** pattern builders *)
Definition chr (c : char) : regex := Cls (N.eqb c).

Fixpoint seqs (rs : list regex) : regex :=
  match rs with
  | [] => Eps
  | [r] => r
  | r :: rest => Seq r (seqs rest)
  end.

Fixpoint alts (rs : list regex) : regex :=
  match rs with
  | [] => Cls (fun _ => false)
  | [r] => r
  | r :: rest => Alt r (alts rest)
  end.

(** a literal string, as [re.escape] makes it *)
Definition lit (s : str) : regex := seqs (List.map chr s).

Definition star (r : regex) : regex := Rep r 0 None.
Definition plus (r : regex) : regex := Rep r 1 None.
Definition opt (r : regex) : regex := Rep r 0 (Some 1).
Definition times (n : nat) (r : regex) : regex := Rep r n (Some n).

Section WithTables.
Variable U : unicode_tables.

Definition digit : regex := Cls (Py.is_digit U).
Definition space : regex := Cls (Py.is_space U).
Definition wordb : regex := Bound (Py.is_word U).
(** a literal under [re.IGNORECASE] *)
Definition lit_ci (s : str) : regex :=
  seqs (List.map (fun c => Cls (Py.ci_eq U c)) s).
(** [.] without [re.DOTALL] *)
Definition dot : regex := Cls (fun c => negb (c =? 10)%N).

End WithTables.

End Re.

(** ** Exceptions

    A function of the program that can raise returns a [result]; the
    ones that cannot are plain functions. *)

Inductive exn : Type :=
| StopIteration | IndexError | ValueError
| FileNotFoundError | UnicodeDecodeError | CsvError.

Inductive result (A : Type) : Type :=
| Ok (a : A)
| Raise (e : exn).
Arguments Ok {A} a.
Arguments Raise {A} e.

#[global] Instance result_ret : MRet result := fun A a => Ok a.
#[global] Instance result_bind : MBind result := fun A B f m =>
  match m with Ok a => f a | Raise e => Raise e end.

(** [try: ... except Exception: return None] *)
Definition catch {A : Type} (m : result A) : option A :=
  match m with Ok a => Some a | Raise _ => None end.

(** an [int] call that raises [ValueError] *)
Definition int_r (U : unicode_tables) (s : str) : result Z :=
  match Py.int_ U s with Some z => Ok z | None => Raise ValueError end.

(** [s[i]], raising [IndexError] out of range *)
Definition char_at (s : str) (i : nat) : result str :=
  match s !! i with Some c => Ok [c] | None => Raise IndexError end.

(** [s[a:b]] *)
Definition slice (a b : nat) (s : str) : str := firstn (b - a) (skipn a s).

(** a [dict] built pair by pair: a later pair replaces an earlier one
    with the same key *)
Definition dict_of {V : Type} (pairs : list (str * V)) : gmap str V :=
  foldl (fun m p => <[p.1 := p.2]> m) ∅ pairs.

(** [d.get(k, "")] *)
Definition get (d : gmap str str) (k : str) : str := default [] (d !! k).

(** ** [datetime.date] *)

Record date : Type := Date { dyear : Z; dmonth : Z; dday : Z }.

Definition is_leap (y : Z) : bool :=
  ((y mod 4 =? 0) && (negb (y mod 100 =? 0) || (y mod 400 =? 0)))%Z.

Definition days_in_month (y m : Z) : Z :=
  if (m =? 2)%Z then (if is_leap y then 29 else 28)%Z
  else if ((m =? 4) || (m =? 6) || (m =? 9) || (m =? 11))%Z then 30%Z
  else 31%Z.

(** [date(y, m, d)], raising [ValueError] for a date that does not exist *)
Definition mkdate (y m d : Z) : result date :=
  if ((1 <=? y) && (y <=? 9999) && (1 <=? m) && (m <=? 12)
      && (1 <=? d) && (d <=? days_in_month y m))%Z
  then Ok (Date y m d) else Raise ValueError.

(** a number written with at least [w] digits, as [%0wd] does *)
Definition zero_pad (w : nat) (z : Z) : str :=
  let s := Py.str_of_Z z in repeat 48%N (w - length s) ++ s.

(** [d.isoformat()] *)
Definition isoformat (d : date) : str :=
  zero_pad 4 (dyear d) ++ u "-" ++ zero_pad 2 (dmonth d) ++ u "-" ++ zero_pad 2 (dday d).

(** * The program *)

(** the three contact slots: primary, WhatsApp, alternative *)
Abbreviation slots := (option str * option str * option str)%type.

(** an output record: a [dict] with a fixed list of keys *)
Abbreviation record := (list (str * str)).

Section Program.

Variable U : unicode_tables.
(** [date.today()] *)
Variable today : date.

Local Abbreviation digit := (Re.digit U).
Local Abbreviation space := (Re.space U).
Local Abbreviation wordb := (Re.wordb U).
Local Abbreviation is_digit := (Py.is_digit U).
Local Abbreviation is_space := (Py.is_space U).

(** ** Patterns (lines 15-27) *)

(** [\+?\d[\d\s\-]{7,}\d] *)
Definition RE_PHONE : Re.regex :=
  Re.seqs [Re.opt (Re.chr 43); digit;
           Re.Rep (Re.Cls (fun c => is_digit c || is_space c || (c =? 45)%N)) 7 None;
           digit].

(** [whats\s*app|whatsapp], ignoring case *)
Definition RE_WHATS : Re.regex :=
  Re.Alt (Re.seqs [Re.lit_ci U (u "whats"); Re.star space; Re.lit_ci U (u "app")])
         (Re.lit_ci U (u "whatsapp")).

(** [altern|alt], ignoring case *)
Definition RE_ALT : Re.regex :=
  Re.Alt (Re.lit_ci U (u "altern")) (Re.lit_ci U (u "alt")).

(** [kontak|bel|call|primary], ignoring case *)
Definition RE_PRIMARY_HINT : Re.regex :=
  Re.alts [Re.lit_ci U (u "kontak"); Re.lit_ci U (u "bel");
           Re.lit_ci U (u "call"); Re.lit_ci U (u "primary")].

(** [(?<!\d)(\d{4})(?!\d)] *)
Definition RE_HHMM : Re.regex :=
  Re.seqs [Re.NotBehind is_digit; Re.Grp 1 (Re.times 4 digit); Re.NotAhead is_digit].

(** [\b(\d{1,2})/(\d{2})(?:/(\d{2,4}))?\b] *)
Definition RE_DDMM : Re.regex :=
  Re.seqs [wordb; Re.Grp 1 (Re.Rep digit 1 (Some 2)); Re.chr 47;
           Re.Grp 2 (Re.times 2 digit);
           Re.opt (Re.Seq (Re.chr 47) (Re.Grp 3 (Re.Rep digit 2 (Some 4))));
           wordb].

(** [Ouer/Voog\s*se\s*volle\s*naam\s*] and the rest of the line as group 1, ignoring case *)
Definition RE_PARENT_NAME : Re.regex :=
  Re.seqs [Re.lit_ci U (u "Ouer/Voog"); Re.star space; Re.lit_ci U (u "se");
           Re.star space; Re.lit_ci U (u "volle"); Re.star space;
           Re.lit_ci U (u "naam"); Re.star space; Re.Grp 1 (Re.star Re.dot)].

(** [Ouer/Voog\s*van\s*] and the rest of the line as group 1, ignoring case *)
Definition RE_PARENT_SURNAME_OF : Re.regex :=
  Re.seqs [Re.lit_ci U (u "Ouer/Voog"); Re.star space; Re.lit_ci U (u "van");
           Re.star space; Re.Grp 1 (Re.star Re.dot)].

(** [Kontak\s*nr\s*] and [[\+\d][\d\s\-]+] as group 1, ignoring case *)
Definition RE_PARENT_CONTACT : Re.regex :=
  Re.seqs [Re.lit_ci U (u "Kontak"); Re.star space; Re.lit_ci U (u "nr");
           Re.star space;
           Re.Grp 1 (Re.Seq (Re.Cls (fun c => (c =? 43)%N || is_digit c))
                            (Re.plus (Re.Cls (fun c => is_digit c || is_space c
                                                       || (c =? 45)%N))))].

(** ** [read_csv_with_multiline] (lines 30-83)

    [csv.reader] is the interpreter's: the function is given the rows
    of the file as lists of cells (a cell is always a string, so the
    [is None] branches of the source never run).  A file that cannot be
    opened or decoded raises.  The reader hands out the rows one by one
    and raises [csv.Error] at a row with a cell longer than
    [csv.field_size_limit()], which the program leaves at 131072
    characters; a reader that is not strict, over a file opened with
    [newline=""], raises for nothing else.  The first [next(reader)]
    stands in a [try] that catches [StopIteration] alone (lines 37-40),
    the second one (line 41) and the loop of line 75 stand in none. *)

Inductive source : Type :=
| Missing
| Undecodable
| Readable (rows : list (list str)).

(** [" ".join(str(h).replace("\r", " ").replace("\n", " ").strip().split())] *)
Definition clean_cell (h : str) : str :=
  Py.join (u " ")
    (Py.split U (Py.strip U (Py.replace_char 10 (u " ") (Py.replace_char 13 (u " ") h)))).

(** lines 50-58: a blank header cell takes the super header's label *)
Fixpoint header_cells (i : nat) (header_raw : list str) (cleaned_super : list str)
    : list str :=
  match header_raw with
  | [] => []
  | h :: rest =>
      let val := clean_cell h in
      let val := match val with
                 | [] => if i <? length cleaned_super
                         then nth i cleaned_super [] else val
                 | _ => val
                 end in
      val :: header_cells (S i) rest cleaned_super
  end.

(** lines 62-69: the loop over the columns before the last three *)
Fixpoint make_unique (seen : gmap str nat) (names : list str) : list str :=
  match names with
  | [] => []
  | h :: rest =>
      let key := Py.or_str h (u "Unnamed") in
      let count := default 0 (seen !! key) in
      let val := match count with
                 | O => key
                 | _ => key ++ u "_" ++ Py.str_of_nat (count + 1)
                 end in
      val :: make_unique (<[key := count + 1]> seen) rest
  end.

(** lines 59-72 *)
Definition reconcile (cleaned_header : list str) : list str :=
  let n := length cleaned_header in
  let named := make_unique ∅ (firstn (n - 3) cleaned_header)
               ++ skipn (n - 3) cleaned_header in
  if 3 <=? n then firstn (n - 3) named ++ [u "R1"; u "R2"; u "R3"] else named.

(** lines 76-81: pad or truncate a row to the header and zip it *)
Definition fit (n : nat) (row : list str) : list str :=
  firstn n (row ++ repeat [] (n - length row)).

Definition row_dict (header : list str) (row : list str) : gmap str str :=
  dict_of (zip header (fit (length header) row)).

(** [csv.field_size_limit()] *)
Definition field_size_limit : N := 131072.

(** a cell the reader refuses *)
Definition too_long (cell : str) : bool :=
  (field_size_limit <? N.of_nat (length cell))%N.

(** [next(reader)] *)
Definition next (reader : list (list str)) : result (list str * list (list str)) :=
  match reader with
  | [] => Raise StopIteration
  | row :: rest => if existsb too_long row then Raise CsvError else Ok (row, rest)
  end.

(** lines 74-82: [for row in reader], a dictionary for each row *)
Fixpoint read_rows (cleaned_header : list str) (reader : list (list str))
    : result (list (gmap str str)) :=
  match reader with
  | [] => Ok []
  | row :: rest =>
      if existsb too_long row then Raise CsvError
      else rows ← read_rows cleaned_header rest;
           Ok (row_dict cleaned_header row :: rows)
  end.

(** rows that the reader hands out to the end: no cell is too long *)
Definition within_limit (rows : list (list str)) : bool :=
  forallb (fun row => negb (existsb too_long row)) rows.

Definition read_csv_with_multiline (src : source)
    : result (list str * list str * list (gmap str str)) :=
  match src with
  | Missing => Raise FileNotFoundError
  | Undecodable => Raise UnicodeDecodeError
  | Readable reader =>
      match next reader with
      | Raise StopIteration => Ok ([], [], [])
      | Raise e => Raise e
      | Ok (super_header_raw, reader) =>
          '(header_raw, reader) ← next reader;
          let cleaned_super := List.map clean_cell super_header_raw in
          let cleaned_header :=
            reconcile (header_cells 0 header_raw cleaned_super) in
          rows ← read_rows cleaned_header reader;
          Ok (cleaned_header, cleaned_super, rows)
      end
  end.

(** ** [normalize_phone] (lines 86-90) *)

Definition normalize_phone (raw : str) : str :=
  let s := Re.sub (Re.Cls (fun c => is_space c || (c =? 45)%N)) (fun _ => []) raw in
  Re.sub (Re.Cls (fun c => negb (is_digit c || (c =? 43)%N))) (fun _ => []) s.

(** ** [parse_contact_field] (lines 93-134) *)

(** line 97 *)
Definition contact_lines (text : str) : list str :=
  List.map (Py.strip U)
    (List.filter (fun ln => match Py.strip U ln with [] => false | _ => true end)
       (Py.splitlines text)).

(** lines 102-119: one labelled line *)
Definition label_line (st : slots) (ln : str) : slots :=
  let '(prim, wa, alt) := st in
  match Re.findall RE_PHONE ln with
  | [] => st
  | ph :: _ =>
      let num := normalize_phone ph in
      if Re.hit RE_WHATS ln
      then (if Py.truthy wa then st else (prim, Some num, alt))
      else if Re.hit RE_ALT ln
      then (if Py.truthy alt then st else (prim, wa, Some num))
      else if Re.hit RE_PRIMARY_HINT ln
      then (if Py.truthy prim then st else (Some num, wa, alt))
      else st
  end.

(** line 125: [{x for x in [prim, wa, alt] if x}] *)
Definition taken (st : slots) : list str :=
  let '(prim, wa, alt) := st in
  List.filter (fun x => match x with [] => false | _ => true end)
    (List.map Py.or_empty [prim; wa; alt]).

(** lines 121-126 *)
Definition remaining (st : slots) (lines : list str) : list str :=
  flat_map (fun ln =>
              List.filter (fun n => negb (Py.mem n (taken st)))
                (List.map normalize_phone (Re.findall RE_PHONE ln))) lines.

(** lines 127-133: one number of [remaining] *)
Definition fill (st : slots) (n : str) : slots :=
  let '(prim, wa, alt) := st in
  if negb (Py.truthy prim) then (Some n, wa, alt)
  else if negb (Py.truthy wa) then (prim, Some n, alt)
  else if negb (Py.truthy alt) then (prim, wa, Some n)
  else st.

Definition parse_contact_field (text : str) : slots :=
  match text with
  | [] => (None, None, None)
  | _ =>
      let lines := contact_lines text in
      let st := foldl label_line (None, None, None) lines in
      foldl fill st (remaining st lines)
  end.

(** ** [parse_parent_details] (lines 137-169) *)

(** [val and val.upper() != "NA"] *)
Definition given (val : str) : bool :=
  match val with [] => false | _ => negb (Py.eqb (Py.upper U val) (u "NA")) end.

Definition parse_parent_details (text : str) : option str * option str :=
  match text with
  | [] => (None, None)
  | _ =>
      let name : option str := None in
      let name :=
        match Re.search RE_PARENT_NAME text with
        | Some m =>
            let val := Py.strip U (Re.group 1 m) in
            if given val then Some val else name
        | None => name
        end in
      let name :=
        match Re.search RE_PARENT_SURNAME_OF text with
        | Some m2 =>
            let val := Py.strip U (Re.group 1 m2) in
            if given val
            then (if Py.truthy name
                     && match val with [] => false | _ => true end
                     && negb (Py.contains val (Py.or_empty name))
                  then Some (Py.or_empty name ++ u " " ++ val)
                  else if negb (Py.truthy name) then Some val else name)
            else name
        | None => name
        end in
      let contact : option str :=
        match Re.search RE_PARENT_CONTACT text with
        | Some m3 => Some (normalize_phone (Re.group 1 m3))
        | None => None
        end in
      let contact :=
        if negb (Py.truthy contact)
        then match Re.findall RE_PHONE text with
             | ph :: _ => Some (normalize_phone ph)
             | [] => contact
             end
        else contact in
      let name :=
        if Py.truthy name
        then Some (Py.join (u " ") (Py.split U (Py.or_empty name)))
        else name in
      (name, contact)
  end.

(** ** [split_comments] (lines 172-196) *)

(** lines 182-183 and 187-188: [if token not in times: times.append(token)] *)
Definition add_token (times : list str) (token : str) : list str :=
  if Py.mem token times then times else times ++ [token].

(** line 177: the pattern [\b(\d{1,2}/\d{2})/\b] *)
Definition RE_TRAILING_SLASH : Re.regex :=
  Re.seqs [wordb;
           Re.Grp 1 (Re.seqs [Re.Rep digit 1 (Some 2); Re.chr 47; Re.times 2 digit]);
           Re.chr 47; wordb].

(** line 192: the pattern [\b] token [\b], the token escaped *)
Definition RE_TOKEN (token : str) : Re.regex :=
  Re.seqs [wordb; Re.lit token; wordb].

(** lines 178-188: the date tokens first, then the four-digit tokens,
    each once, in order of first appearance *)
Definition comment_tokens (t : str) : list str :=
  let times : list str := [] in
  let times :=
    foldl (fun times m => add_token times (Re.group 1 m ++ u "/" ++ Re.group 2 m))
          times (Re.finditer RE_DDMM t) in
  foldl (fun times m => add_token times (Re.group 1 m))
        times (Re.finditer RE_HHMM t).

Definition split_comments (text : str) : str * str :=
  match text with
  | [] => ([], [])
  | _ =>
      let t := Re.sub RE_TRAILING_SLASH (Re.group 1) text in
      let times := comment_tokens t in
      let cleaned :=
        foldl (fun cleaned token => Re.sub (RE_TOKEN token) (fun _ => u " ") cleaned)
              t times in
      let cleaned :=
        Re.sub (Re.plus (Re.Cls (fun c => (c =? 13)%N || (c =? 10)%N)))
               (fun _ => u " ") cleaned in
      let cleaned := Py.strip U (Re.sub (Re.plus space) (fun _ => u " ") cleaned) in
      (Py.join (u " ") times, cleaned)
  end.

(** ** [_luhn_sa_id_ok] (lines 199-212) *)

(** [sum(int(x) for x in parts)] *)
Fixpoint sum_ints (parts : list str) : result Z :=
  match parts with
  | [] => Ok 0%Z
  | p :: rest =>
      v ← int_r U p;
      s ← sum_ints rest;
      Ok (v + s)%Z
  end.

(** [digits[i] for i in idxs] *)
Fixpoint pick (digits : str) (idxs : list nat) : result (list str) :=
  match idxs with
  | [] => Ok []
  | i :: rest =>
      c ← char_at digits i;
      cs ← pick digits rest;
      Ok (c :: cs)
  end.

Definition _luhn_sa_id_ok (digits : str) : result bool :=
  if negb (length digits =? 13) || negb (Py.isdigit U digits) then Ok false
  else
    odd ← pick digits [0; 2; 4; 6; 8; 10];
    a ← sum_ints odd;
    even ← pick digits [1; 3; 5; 7; 9; 11];
    let even_concat := concat even in
    e ← int_r U even_concat;
    let b_num := (e * 2)%Z in
    b ← sum_ints (List.map (fun ch => [ch]) (Py.str_of_Z b_num));
    let c := (a + b)%Z in
    let d := ((10 - c mod 10) mod 10)%Z in
    last ← char_at digits 12;
    l ← int_r U last;
    Ok (d =? l)%Z.

(** ** [parse_sa_id_fields] (lines 215-267) *)

(** [(today.month, today.day) < (dob.month, dob.day)] *)
Definition before_birthday (dob : date) : bool :=
  ((dmonth today <? dmonth dob)
   || ((dmonth today =? dmonth dob) && (dday today <? dday dob)))%Z.

(** lines 236-244 *)
Definition try_century (yy mm dd : str) (century : Z) : option (date * Z) :=
  match catch (y ← int_r U yy;
               m ← int_r U mm;
               d ← int_r U dd;
               dob ← mkdate (century + y) m d;
               let age := (dyear today - dyear dob
                           - (if before_birthday dob then 1 else 0))%Z in
               Ok (dob, age)) with
  | Some (dob, age) => if ((0 <=? age) && (age <=? 120))%Z then Some (dob, age) else None
  | None => None
  end.

(** the five results: date of birth, age, gender, validity, reason *)
Record id_facts : Type := IdFacts {
  dob_iso : str; age_str : str; gender : str; valid : bool; reason : str
}.

Definition invalid (why : str) : id_facts := IdFacts [] [] [] false why.

(** lines 248-254: [None] when neither century gives a date, else the
    2000s when they do and the 1900s do not or give an age over 100,
    else the 1900s *)
Definition choose_century (dob_age_1900 dob_age_2000 : option (date * Z))
    : option (date * Z) :=
  match dob_age_1900, dob_age_2000 with
  | None, None => None
  | None, Some da2000 => Some da2000
  | Some (dob19, age19), Some da2000 =>
      if (100 <? age19)%Z then Some da2000 else Some (dob19, age19)
  | Some da1900, None => Some da1900
  end.

Definition parse_sa_id_fields (id_value : str) : result id_facts :=
  match id_value with
  | [] => Ok (invalid (u "empty"))
  | _ =>
      let digits :=
        Re.sub (Re.Cls (fun c => negb (Py.ascii_digit c))) (fun _ => []) id_value in
      if negb (length digits =? 13) then Ok (invalid (u "length"))
      else
        let yy := slice 0 2 digits in
        let mm := slice 2 4 digits in
        let dd := slice 4 6 digits in
        let ssss := slice 6 10 digits in
        let dob_age_1900 := try_century yy mm dd 1900 in
        let dob_age_2000 := try_century yy mm dd 2000 in
        match choose_century dob_age_1900 dob_age_2000 with
        | None => Ok (invalid (u "invalid_date"))
        | Some (dob, age) =>
            ok ← _luhn_sa_id_ok digits;
            if negb ok then Ok (invalid (u "checksum"))
            else
              let gender :=
                match catch (int_r U ssss) with
                | Some gender_num =>
                    if (5000 <=? gender_num)%Z then u "Male" else u "Female"
                | None => []
                end in
              Ok (IdFacts (isoformat dob) (Py.str_of_Z age) gender true [])
        end
  end.

(** ** [extract_year_from_filename] (lines 284-294) *)

(** [os.path.basename]: what follows the last slash *)
Fixpoint basename_go (cur : str) (path : str) : str :=
  match path with
  | [] => rev cur
  | c :: rest => if (c =? 47)%N then basename_go [] rest else basename_go (c :: cur) rest
  end.
Definition basename (path : str) : str := basename_go [] path.

(** [\b(20\d{2})\b] *)
Definition RE_YEAR : Re.regex :=
  Re.seqs [wordb; Re.Grp 1 (Re.Seq (Re.lit (u "20")) (Re.times 2 digit)); wordb].

Definition extract_year_from_filename (path : str) (fallback : option Z) : result Z :=
  match Re.search RE_YEAR (basename path) with
  | Some m => int_r U (Re.group 1 m)
  | None =>
      match fallback with
      | Some y => Ok y
      | None => Ok (dyear today)
      end
  end.

(** ** [slug_letters_two] (lines 297-305) *)

Definition slug_letters_two (s : str) : str :=
  match s with
  | [] => []
  | _ =>
      let s_norm := Py.nfkd U s in
      let s_ascii := List.filter (fun ch => negb (Py.combining U ch)) s_norm in
      let letters :=
        Re.sub (Re.Cls (fun c => negb (Py.ascii_letter c))) (fun _ => []) s_ascii in
      Py.lower U (firstn 2 letters)
  end.

(** ** [build_student_id] (lines 308-320)

    The registry [unique_counts] is mutated by the call: the function
    returns it next to the identifier. *)

(** lines 309-313: the base key of a row *)
Definition student_base (name surname : str) (year : Z) (row_index : nat) : str :=
  let n2 := slug_letters_two name in
  let s2 := slug_letters_two surname in
  let base := n2 ++ s2 ++ Py.str_of_Z year in
  match n2, s2 with
  | [], [] => u "unk" ++ Py.str_of_Z year ++ u "r" ++ Py.str_of_nat (row_index + 1)
  | _, _ => base
  end.

(** lines 317-320: the base itself at its first occurrence, the base
    with the occurrence number after it from the second on *)
Definition suffixed (base : str) (cnt : nat) : str :=
  match cnt with
  | O => base
  | _ => base ++ Py.str_of_nat (cnt + 1)
  end.

(** lines 314-320 *)
Definition build_student_id (name surname : str) (year : Z)
    (unique_counts : gmap str nat) (row_index : nat) : str * gmap str nat :=
  let base := student_base name surname year row_index in
  let cnt := default 0 (unique_counts !! base) in
  let unique_counts := <[base := cnt + 1]> unique_counts in
  (suffixed base cnt, unique_counts).

(** the identifiers of a run: the loop of [main] (line 509) reduced to
    its calls of [build_student_id], on the (name, surname) pairs of
    the rows, the registry threaded from row to row *)
Fixpoint assign_ids (year : Z) (id_counts : gmap str nat) (idx : nat)
    (pairs : list (str * str)) : list str :=
  match pairs with
  | [] => []
  | (name, surname) :: rest =>
      let '(student_id, id_counts) :=
        build_student_id name surname year id_counts idx in
      student_id :: assign_ids year id_counts (S idx) rest
  end.

(** ** [stars_to_number] (lines 585-600) *)

Definition star_glyph : char := 9733%N.

Definition stars_to_number (val : str) : str :=
  match val with
  | [] => []
  | _ =>
      match Re.search (Re.plus digit) val with
      | Some m => Re.group0 m
      | None =>
          match Py.count_char star_glyph val with
          | S n => Py.str_of_nat (S n)
          | O =>
              if Py.mem (Py.upper U (Py.strip U val)) [u "N/A"; u "#N/A"; u "NA"]
              then [] else []
          end
      end
  end.

(** ** [main] (lines 323-651)

    Logging is left out.  What [main] hands to [write_csv] is its
    output: the three lists of records; creating the output directory
    and writing the three files are taken to succeed. *)

Record tables : Type := Tables {
  t1_rows : list record; t2_rows : list record; t3_rows : list record
}.

(** how a call of [main] ends: it returns an exit code, with the tables
    it wrote if it came that far, or an exception leaves it *)
Inductive outcome : Type :=
| Return (code : Z) (written : option tables)
| Uncaught (e : exn).

Definition nonempty (s : str) : bool := match s with [] => false | _ => true end.

Section Rows.

Variables (headers super_headers : list str) (year : Z).

(** lines 344-354 *)
Definition get_col (name : str) : option str :=
  let col := dict_of (List.map (fun h => (Py.lower U h, h)) headers) in
  let key := Py.lower U name in
  match col !! key with
  | Some h => Some h
  | None =>
      List.find (fun h => nonempty h && Py.contains key (Py.lower U h)) headers
  end.

(** [d.get(c, "") if c else ""] *)
Definition cell (d : gmap str str) (c : option str) : str :=
  if Py.truthy c then get d (Py.or_empty c) else [].

(** lines 356-408 *)
Definition id_col := Py.or_opt (get_col (u "ID Number"))
                       (Py.or_opt (get_col (u "ID_Number")) (get_col (u "ID No"))).
Definition name_col := get_col (u "Name").
Definition surname_col := get_col (u "Surname").
Definition address_col := get_col (u "Address").
Definition photo_col := get_col (u "Photo").
Definition contact_col := Py.or_opt (get_col (u "Contact #"))
                            (Py.or_opt (get_col (u "Contact#")) (get_col (u "Contact"))).
Definition parent_details_col := get_col (u "Parent Details").
Definition comments_col := get_col (u "Comments").
Definition applicant_details_col := get_col (u "Applicant Details").
Definition family_details_col := get_col (u "Family Details").
Definition id_doc_col := get_col (u "ID").
Definition bank_account_col := get_col (u "Bank Account").
Definition sars_number_col := get_col (u "SARS Number").
Definition learners_licence_col := get_col (u "Learners / Licence").
Definition visits_office_col := get_col (u "Visits to Office").
Definition comm_whatsapp_col := get_col (u "Communication WhatsApp").
Definition comm_facebook_col := get_col (u "Communication Facebook").
Definition cv_col := get_col (u "CV").
Definition study_app_col := get_col (u "Study Application").
Definition w4al_course_col := get_col (u "W4AL course").
Definition skills_col := get_col (u "Skills").
Definition responses_col := get_col (u "#responses").
Definition info_session_attended_col := get_col (u "Info session attended").
Definition career_col := get_col (u "Career Options").
Definition academic_group_col := get_col (u "Academic Grouping").
Definition academic_details_1_col :=
  Py.or_opt (get_col (u "Unnamed")) (get_col (u "Unnamed_2")).
Definition academic_details_2_col :=
  if decide (academic_details_1_col = get_col (u "Unnamed"))
  then get_col (u "Unnamed_2") else get_col (u "Unnamed").
Definition pathways_col := get_col (u "Pathways Recommendation").
Definition yearbeyond_col := get_col (u "YearBeyond Recommendation").
Definition wr_rating_col := get_col (u "School WR rating").
Definition wr_roundup_col := get_col (u "School WR rating roundup").
Definition absent_col := get_col (u "Absent from School").
Definition absentee_rating_col := get_col (u "Absentee rating").
Definition intro_session_col := get_col (u "Intro Session attended").
Definition info_form_received_col := get_col (u "Info Form received").
Definition info_form_returned_col := get_col (u "Info Form returned").
Definition mentor_session_col := get_col (u "Mentor session attended").
Definition r1_col := if Py.mem (u "R1") headers then Some (u "R1") else None.
Definition r2_col := if Py.mem (u "R2") headers then Some (u "R2") else None.
Definition r3_col := if Py.mem (u "R3") headers then Some (u "R3") else None.

(** lines 414-418 *)
Definition group_indices : gmap str (list nat) :=
  foldl (fun (g : gmap str (list nat)) (p : nat * str) =>
           match p.2 with
           | [] => g
           | sh => <[sh := default [] (g !! sh) ++ [p.1]]> g
           end)
        ∅ (zip (seq 0 (length super_headers)) super_headers).

(** lines 420-431 *)
Definition group_slice_text (d : gmap str str) (group_name : str) : str :=
  let idxs := default [] (group_indices !! group_name) in
  let vals :=
    flat_map (fun i =>
                match headers !! i with
                | Some key =>
                    if Py.mem key [u "R1"; u "R2"; u "R3"] then [] else [get d key]
                | None => []
                end) idxs in
  let vals :=
    List.filter (fun v => nonempty v && negb (Py.eqb (Py.upper U v) (u "NA"))
                          && negb (Py.eqb v (u "-"))) vals in
  Py.join [10%N] vals.

(** lines 550-551: [x.replace("-", "None") if x == "-" else x] *)
Definition dash_none (x : str) : str :=
  if Py.eqb x (u "-") then Py.replace_char 45 (u "None") x else x.

(** lines 509-619: the body of the loop, for row [d] at position [idx] *)
Definition build_row (idx : nat) (d : gmap str str) (id_counts : gmap str nat)
    : result (record * record * record * gmap str nat) :=
  let id_val := Py.strip U (cell d id_col) in
  let '(student_id, id_counts) :=
    build_student_id (cell d name_col) (cell d surname_col) year id_counts idx in
  let '(prim, wa, alt) := parse_contact_field (cell d contact_col) in
  let '(p_name, p_contact) := parse_parent_details (cell d parent_details_col) in
  let '(c_time, c_text) :=
    split_comments (if Py.truthy comments_col then get d (Py.or_empty comments_col)
                    else group_slice_text d (u "Comments")) in
  facts ← parse_sa_id_fields id_val;
  let t1 : record :=
    [ (u "Student_ID", student_id);
      (u "ID_Number", id_val);
      (u "Name", cell d name_col);
      (u "Surname", cell d surname_col);
      (u "DOB (from SA ID)", dob_iso facts);
      (u "Age (from SA ID)", age_str facts);
      (u "Gender (from SA ID)", gender facts);
      (u "Address", cell d address_col);
      (u "Primary Contact", Py.or_empty prim);
      (u "WhatsApp", Py.or_empty wa);
      (u "Alternative", Py.or_empty alt);
      (u "Parent/Guardian Name", Py.or_empty p_name);
      (u "Parent/Guardian Contact", Py.or_empty p_contact);
      (u "Applicant Details", cell d applicant_details_col);
      (u "Family Details", cell d family_details_col);
      (u "ID Document", cell d id_doc_col);
      (u "Bank Account", cell d bank_account_col);
      (u "SARS Number", dash_none (cell d sars_number_col));
      (u "Learners / Licence", dash_none (cell d learners_licence_col));
      (u "Comment_Text", c_text);
      (u "Photo", cell d photo_col) ] in
  let wr_summary := Py.or_str (cell d wr_roundup_col) (cell d wr_rating_col) in
  let wr_summary :=
    match wr_summary with
    | [] => group_slice_text d (u "Work Readiness Criteria")
    | _ => wr_summary
    end in
  let t2 : record :=
    [ (u "Student_ID", student_id);
      (u "ID_Number", id_val);
      (u "Career Options/Study Details",
       Py.or_str (cell d career_col)
         (Py.or_str (group_slice_text d (u "Study Details"))
                    (group_slice_text d (u "Career Options"))));
      (u "Academic Grouping", cell d academic_group_col);
      (u "Academic Details 1", cell d academic_details_1_col);
      (u "Academic Details 2", cell d academic_details_2_col);
      (u "Support", group_slice_text d (u "Support"));
      (u "Additional Support", group_slice_text d (u "Additional Support"));
      (u "CV", cell d cv_col);
      (u "Study Application", cell d study_app_col);
      (u "W4AL course", cell d w4al_course_col);
      (u "Skills", cell d skills_col);
      (u "Work Readiness Criteria", wr_summary);
      (u "Pathways Recommendation", cell d pathways_col);
      (u "YearBeyond Recommendation", cell d yearbeyond_col);
      (u "Absent from School", cell d absent_col);
      (u "Absentee rating", cell d absentee_rating_col);
      (u "School WR rating", cell d wr_rating_col);
      (u "School WR rating roundup", cell d wr_roundup_col) ] in
  let t3 : record :=
    [ (u "Student_ID", student_id);
      (u "ID_Number", id_val);
      (u "Intro Session attended", cell d intro_session_col);
      (u "Info session attended", cell d info_session_attended_col);
      (u "Info Form received", cell d info_form_received_col);
      (u "Info Form returned", cell d info_form_returned_col);
      (u "Mentor session attended", cell d mentor_session_col);
      (u "Visits to Office", cell d visits_office_col);
      (u "Communication WhatsApp", cell d comm_whatsapp_col);
      (u "Communication Facebook", cell d comm_facebook_col);
      (u "#responses", cell d responses_col);
      (u "ro", stars_to_number (get d (u "ro")));
      (u "Datapoints", get d (u "Datapoints"));
      (u "R1", cell d r1_col);
      (u "R2", cell d r2_col);
      (u "R3", cell d r3_col) ] in
  Ok (t1, t2, t3, id_counts).

(** line 509: [for idx, d in enumerate(rows)] *)
Fixpoint rows_loop (idx : nat) (rows : list (gmap str str))
    (id_counts : gmap str nat) : result tables :=
  match rows with
  | [] => Ok (Tables [] [] [])
  | d :: rest =>
      '(t1, t2, t3, id_counts) ← build_row idx d id_counts;
      t ← rows_loop (S idx) rest id_counts;
      Ok (Tables (t1 :: t1_rows t) (t2 :: t2_rows t) (t3 :: t3_rows t))
  end.

End Rows.

(** [r[key]] of a record *)
Fixpoint field (key : str) (r : record) : option str :=
  match r with
  | [] => None
  | (k, v) :: rest => if Py.eqb k key then Some v else field key rest
  end.

(** a record carries the two keys that link the three tables *)
Definition keyed (sid idn : str) (r : record) : Prop :=
  field (u "Student_ID") r = Some sid /\ field (u "ID_Number") r = Some idn.

Definition main (src : source) (input_path : str) (cohort_year : option Z)
    : outcome :=
  match read_csv_with_multiline src with
  | Raise FileNotFoundError => Return 2 None
  | Raise UnicodeDecodeError => Return 3 None
  | Raise _ => Return 4 None
  | Ok (headers, super_headers, rows) =>
      match (match cohort_year with
             | Some y => if (y =? 0)%Z then extract_year_from_filename input_path None
                         else Ok y
             | None => extract_year_from_filename input_path None
             end) with
      | Raise e => Uncaught e
      | Ok year =>
          match rows with
          | [] => Return 0 None
          | _ =>
              match rows_loop headers super_headers year 0 rows ∅ with
              | Raise e => Uncaught e
              | Ok t => Return 0 (Some t)
              end
          end
      end
  end.

(** ** Vocabulary of the properties *)

(** the canonical numbers of a line, and of a contact field, in order
    of appearance (lines 103-106 and 123-124) *)
Definition line_numbers (ln : str) : list str :=
  List.map normalize_phone (Re.findall RE_PHONE ln).

Definition phone_numbers (text : str) : list str :=
  flat_map line_numbers (contact_lines text).

(** the slots as [main] writes them: [x or ""] (lines 541-543) *)
Definition shown (st : slots) : str * str * str :=
  let '(prim, wa, alt) := st in (Py.or_empty prim, Py.or_empty wa, Py.or_empty alt).

(** [fill] on the slots as shown *)
Definition fill_shown (v : str * str * str) (n : str) : str * str * str :=
  let '(p, w, a) := v in
  match p, w, a with
  | [], _, _ => (n, w, a)
  | _, [], _ => (p, n, a)
  | _, _, [] => (p, w, n)
  | _, _, _ => v
  end.

(** the number of slots a value leaves free: none when it holds a
    number, one when it is empty *)
Definition free (x : str) : nat := if nonempty x then 0 else 1.

(** the numbers held in the slots are numbers seen so far, and two
    non-empty ones differ *)
Definition held_apart (seen : list str) (v : str * str * str) : Prop :=
  let '(p, w, a) := v in
  (p <> [] -> p ∈ seen) /\ (w <> [] -> w ∈ seen) /\ (a <> [] -> a ∈ seen)
  /\ (p <> [] -> p <> w) /\ (p <> [] -> p <> a) /\ (w <> [] -> w <> a).

(** the two shapes of a token: a day and a month, one or two digits and
    two digits with a slash between, and four digits *)
Definition is_day_month (tok : str) : Prop :=
  exists d m,
    tok = d ++ u "/" ++ m
    /\ Forall (fun c => is_digit c = true) d /\ (length d = 1 \/ length d = 2)
    /\ Forall (fun c => is_digit c = true) m /\ length m = 2.

Definition is_four_digits (tok : str) : Prop :=
  Forall (fun c => is_digit c = true) tok /\ length tok = 4.

(** the two shapes of a base key (lines 311 and 313): lower-case
    letters and the year, or the fallback of row [j] *)
Definition is_normal (year : Z) (b : str) : Prop :=
  exists l, Forall (fun c => Py.ascii_lower c = true) l /\ b = l ++ Py.str_of_Z year.

Definition is_fallback (year : Z) (j : nat) (b : str) : Prop :=
  b = u "unk" ++ Py.str_of_Z year ++ u "r" ++ Py.str_of_nat (j + 1).

(** the registry after [idx] rows, and the identifiers issued so far:
    a key that was seen is a normal base, or the fallback base of an
    earlier row, seen once; an issued identifier is a seen key with an
    occurrence number below its count *)
Definition registry_ok (year : Z) (idx : nat) (counts : gmap str nat)
    (issued : list str) : Prop :=
  (forall b, 0 < default 0 (counts !! b) ->
     is_normal year b
     \/ exists j, j < idx /\ is_fallback year j b /\ default 0 (counts !! b) = 1)
  /\ (forall id, id ∈ issued ->
        exists b k, id = suffixed b k /\ k < default 0 (counts !! b)).

End Program.

(** ** [write_csv] and the field lists of [main] (lines 434-502, 622-627) *)

Definition t1_fields : list str :=
  [ u "Student_ID"; u "ID_Number"; u "Name"; u "Surname";
    u "DOB (from SA ID)"; u "Age (from SA ID)"; u "Gender (from SA ID)";
    u "Address"; u "Primary Contact"; u "WhatsApp"; u "Alternative";
    u "Parent/Guardian Name"; u "Parent/Guardian Contact";
    u "Applicant Details"; u "Family Details"; u "ID Document";
    u "Bank Account"; u "SARS Number"; u "Learners / Licence";
    u "Comment_Text"; u "Photo" ].

Definition t2_fields : list str :=
  [ u "Student_ID"; u "ID_Number"; u "Career Options/Study Details";
    u "Academic Grouping"; u "Academic Details 1"; u "Academic Details 2";
    u "Support"; u "Additional Support"; u "CV"; u "Study Application";
    u "W4AL course"; u "Skills"; u "Work Readiness Criteria";
    u "Pathways Recommendation"; u "YearBeyond Recommendation";
    u "Absent from School"; u "Absentee rating"; u "School WR rating";
    u "School WR rating roundup" ].

Definition t3_fields : list str :=
  [ u "Student_ID"; u "ID_Number"; u "Intro Session attended";
    u "Info session attended"; u "Info Form received"; u "Info Form returned";
    u "Mentor session attended"; u "Visits to Office";
    u "Communication WhatsApp"; u "Communication Facebook"; u "#responses";
    u "ro"; u "Datapoints"; u "R1"; u "R2"; u "R3" ].

(** what [csv.DictWriter] puts on the lines of a file: the field names,
    then for each record the value under each field name, the empty
    string for a name the record lacks; a key of the record that is no
    field name is ignored ([extrasaction="ignore"]) *)
Definition write_csv (fieldnames : list str) (data : list record) : list (list str) :=
  fieldnames :: List.map (fun r => List.map (fun f => default [] (field f r)) fieldnames) data.

(** ** [norm] of [validate_correctness.py] (lines 7-10) *)

(** [ws_re.sub(" ", (s or "").strip())], [ws_re] the pattern [\s+] *)
Definition norm (U : unicode_tables) (s : option str) : str :=
  Re.sub (Re.plus (Re.space U)) (fun _ => u " ") (Py.strip U (Py.or_empty s)).

(** ** Vocabulary of the further properties *)

(** a word: a non-empty run of characters none of which is a space *)
Definition word (U : unicode_tables) (w : str) : Prop :=
  w <> [] /\ Forall (fun c => Py.is_space U c = false) w.

(** what may follow a word: the end of the text, or a space *)
Definition boundary (U : unicode_tables) (rest : str) : Prop :=
  match rest with [] => True | c :: _ => Py.is_space U c = true end.

(** a text in which every maximal run of characters of a class is
    replaced by one space; [inrun] tells that the character before was
    of the class *)
Fixpoint squeeze (p : char -> bool) (inrun : bool) (s : str) : str :=
  match s with
  | [] => []
  | c :: r =>
      if p c then (if inrun then squeeze p true r else 32%N :: squeeze p true r)
      else c :: squeeze p false r
  end.

(** a phone number in canonical form: decimal digits, after one plus
    sign or none *)
Definition canonical (U : unicode_tables) (n : str) : Prop :=
  exists digits,
    Forall (fun x => Py.is_digit U x = true) digits
    /\ (n = digits \/ n = 43%N :: digits).


(** the number of times [x] occurs in [l] *)
Definition occurrences (x : str) (l : list str) : nat :=
  length (List.filter (Py.eqb x) l).

(** a name with the number of its occurrence, the first one bare
    (lines 66-67) *)
Definition renamed (key : str) (count : nat) : str :=
  match count with
  | O => key
  | _ => key ++ u "_" ++ Py.str_of_nat (count + 1)
  end.

(** what follows a maximal run of characters of a class *)
Definition run_ends (p : char -> bool) (rest : str) : Prop :=
  match rest with [] => True | c :: _ => p c = false end.

(** every slot is empty or holds one of the numbers [nums] *)
Definition slots_from (nums : list str) (st : slots) : Prop :=
  let '(p, w, a) := st in
  Forall (fun o : option str => match o with None => True | Some n => n ∈ nums end)
         [p; w; a].

(** one slot at least holds a number *)
Definition some_slot (st : slots) : bool :=
  let '(p, w, a) := st in Py.truthy p || Py.truthy w || Py.truthy a.

(** a name as lines 167-168 leave it: not empty, its words joined by
    single spaces *)
Definition well_spaced (U : unicode_tables) (n : str) : Prop :=
  n <> [] /\ exists ws, n = Py.join (u " ") ws /\ Forall (word U) ws.

(** the database of the interpreter knows digits that are no decimal
    digits; the superscript two is one: [str.isdigit] holds of it and
    [int] refuses it.  A database with this one entry. *)
Definition with_superscript_two : unicode_tables :=
  {| decimal_value := fun _ => None;
     digit_like := fun c => (c =? 178)%N;
     space_like := fun _ => false;
     alnum_like := fun _ => false;
     lower_of := fun s => s;
     upper_of := fun s => s;
     fold_eq := N.eqb;
     nfkd_of := fun s => s;
     combining_of := fun _ => false |}.

(** * Properties *)

(** ** The matcher is sound for the match relation *)

Module ReFacts.
Import Re.

Lemma rep_loop_sound {A : Type}
    (body : cursor -> captures -> (cursor -> captures -> option A) -> option A)
    (r : regex) (lo : nat) (hi : option nat) (k : cursor -> captures -> option A) :
  (forall c g k' a, body c g k' = Some a ->
     exists c1 g1, matches r c g c1 g1 /\ k' c1 g1 = Some a) ->
  forall fuel i c g a,
    rep_loop body lo hi k fuel i c g = Some a ->
    exists c2 g2,
      matches (Rep r (lo - i) (option_map (fun h => h - i) hi)) c g c2 g2
      /\ k c2 g2 = Some a.
Proof.
  intros Hbody fuel. induction fuel as [|fuel IH]; intros i c g a H; [discriminate|].
  cbn [rep_loop] in H.
  assert (Hstop : (if lo <=? i then k c g else None) = Some a ->
                  exists c2 g2, matches (Rep r (lo - i) (option_map (fun h => h - i) hi)) c g c2 g2
                                /\ k c2 g2 = Some a).
  { destruct (Nat.leb_spec lo i) as [Hle|Hlt]; [|discriminate].
    intros Hk. exists c, g. split; [|exact Hk].
    replace (lo - i) with 0 by lia. constructor. }
  destruct (below i hi) eqn:Hb; [|auto].
  destruct (body c g _) as [a'|] eqn:Hbd; [|auto].
  injection H as ->.
  apply Hbody in Hbd as (c1 & g1 & Hm & Hk).
  destruct (_ || _); [|discriminate].
  apply IH in Hk as (c2 & g2 & Hrep & Hk).
  exists c2, g2. split; [|exact Hk].
  eapply m_rep_step; [| exact Hm |].
  - destruct hi as [h|]; [|reflexivity]. unfold below in *. cbn [option_map].
    apply Nat.ltb_lt in Hb. apply Nat.ltb_lt. lia.
  - replace (pred (lo - i)) with (lo - S i) by lia.
    replace (option_map pred (option_map (fun h => h - i) hi))
      with (option_map (fun h => h - S i) hi); [exact Hrep|].
    destruct hi as [h|]; cbn; [f_equal; lia | reflexivity].
Qed.

Lemma exec_sound {A : Type} (r : regex) :
  forall c g (k : cursor -> captures -> option A) a,
    exec r c g k = Some a ->
    exists c1 g1, matches r c g c1 g1 /\ k c1 g1 = Some a.
Proof.
  induction r as [|p|r1 IH1 r2 IH2|r1 IH1 r2 IH2|r IH lo hi|n r IH|w|p|p];
    intros c g k a H; cbn [exec] in H.
  - exists c, g. split; [constructor | exact H].
  - destruct c as [bh [|x ah]]; cbn in H; [discriminate|].
    destruct (p x) eqn:Hp; [|discriminate].
    eexists _, _. split; [constructor; exact Hp | exact H].
  - apply IH1 in H as (c1 & g1 & H1 & H).
    apply IH2 in H as (c2 & g2 & H2 & H).
    exists c2, g2. split; [econstructor; eauto | exact H].
  - destruct (exec r1 c g k) as [a'|] eqn:E1.
    + injection H as ->. apply IH1 in E1 as (c1 & g1 & H1 & H).
      exists c1, g1. split; [apply m_alt_l; exact H1 | exact H].
    + apply IH2 in H as (c1 & g1 & H1 & H).
      exists c1, g1. split; [apply m_alt_r; exact H1 | exact H].
  - apply (rep_loop_sound _ r) in H; [|intros; apply IH; assumption].
    destruct H as (c2 & g2 & Hm & Hk). exists c2, g2. split; [|exact Hk].
    rewrite Nat.sub_0_r in Hm.
    replace (option_map (fun h => h - 0) hi) with hi in Hm; [exact Hm|].
    destruct hi; cbn; [f_equal; lia | reflexivity].
  - apply IH in H as (c1 & g1 & H1 & H).
    eexists _, _. split; [constructor; exact H1 | exact H].
  - destruct (xorb _ _) eqn:E; [|discriminate].
    exists c, g. split; [constructor; exact E | exact H].
  - destruct (holds_at p (behind c)) eqn:E; [discriminate|].
    exists c, g. split; [constructor; exact E | exact H].
  - destruct (holds_at p (ahead c)) eqn:E; [discriminate|].
    exists c, g. split; [constructor; exact E | exact H].
Qed.

(** a match only moves forward: what it passes is a prefix of what was ahead *)
Lemma matches_advance r c g c1 g1 :
  matches r c g c1 g1 ->
  exists taken, ahead c = taken ++ ahead c1 /\ behind c1 = rev taken ++ behind c.
Proof.
  induction 1 as [c g|p x bh ah g Hp|r1 r2 c g c1 g1 c2 g2 _ IH1 _ IH2
                 |r1 r2 c g c1 g1 _ IH|r1 r2 c g c1 g1 _ IH|r hi c g
                 |r lo hi c g c1 g1 c2 g2 _ _ IH1 _ IH2|n r c g c1 g1 _ IH
                 |w c g _|p c g _|p c g _];
    try (exists []; split; reflexivity); try exact IH.
  - exists [x]. split; reflexivity.
  - destruct IH1 as (t1 & Ha1 & Hb1), IH2 as (t2 & Ha2 & Hb2).
    exists (t1 ++ t2). rewrite Ha1, Ha2, Hb2, Hb1, rev_app_distr, <- !app_assoc. split; reflexivity.
  - destruct IH1 as (t1 & Ha1 & Hb1), IH2 as (t2 & Ha2 & Hb2).
    exists (t1 ++ t2). rewrite Ha1, Ha2, Hb2, Hb1, rev_app_distr, <- !app_assoc. split; reflexivity.
Qed.


Lemma span_taken c c1 taken :
  behind c1 = rev taken ++ behind c -> span c c1 = taken.
Proof.
  intros H. unfold span. rewrite H, length_app, length_rev.
  replace (length taken + length (behind c) - length (behind c)) with (length (rev taken))
    by (rewrite length_rev; lia).
  rewrite firstn_app, Nat.sub_diag, firstn_all. cbn. rewrite app_nil_r. apply rev_involutive.
Qed.

Lemma match_at_sound r c m :
  match_at r c = Some m ->
  m_start m = c /\ matches r c [] (m_end m) (m_caps m).
Proof.
  unfold match_at. intros H. apply exec_sound in H as (c1 & g1 & Hm & Hk).
  injection Hk as <-. split; [reflexivity | exact Hm].
Qed.

(** the match that [scan] finds starts somewhere in what was ahead *)
Lemma scan_sound r : forall ah bh m,
  scan r bh ah = Some m ->
  exists pre,
    ah = pre ++ ahead (m_start m) /\ behind (m_start m) = rev pre ++ bh
    /\ matches r (m_start m) [] (m_end m) (m_caps m).
Proof.
  induction ah as [|x ah IH]; intros bh m H; cbn [scan] in H.
  - destruct (match_at r (Cursor bh [])) as [m'|] eqn:E; [|discriminate].
    injection H as ->. apply match_at_sound in E as [Hs Hm].
    exists []. rewrite Hs. auto.
  - destruct (match_at r (Cursor bh (x :: ah))) as [m'|] eqn:E.
    + injection H as ->. apply match_at_sound in E as [Hs Hm].
      exists []. rewrite Hs in *. auto.
    + apply IH in H as (pre & Ha & Hb & Hm).
      exists (x :: pre). cbn. rewrite Ha at 1. rewrite Hb, <- app_assoc. auto.
Qed.

(** [re.search]: the subject is a prefix, the text of the match, a rest *)
Lemma search_sound r s m :
  search r s = Some m ->
  exists pre post,
    s = pre ++ group0 m ++ post
    /\ matches r (Cursor (rev pre) (group0 m ++ post)) []
               (Cursor (rev (group0 m) ++ rev pre) post) (m_caps m).
Proof.
  unfold search. intros H. apply scan_sound in H as (pre & Ha & Hb & Hm).
  destruct (matches_advance _ _ _ _ _ Hm) as (taken & Hta & Htb).
  assert (Hg : group0 m = taken) by (apply span_taken; exact Htb).
  exists pre, (ahead (m_end m)). rewrite Hg. split.
  - rewrite Ha, Hta. reflexivity.
  - destruct (m_start m) as [sb sa], (m_end m) as [eb ea]. cbn in *.
    rewrite app_nil_r in Hb. subst. exact Hm.
Qed.

(** a repeated character class takes a run of characters of the class *)
Lemma matches_rep_cls p lo hi c g c1 g1 :
  matches (Rep (Cls p) lo hi) c g c1 g1 ->
  exists taken,
    ahead c = taken ++ ahead c1 /\ behind c1 = rev taken ++ behind c
    /\ Forall (fun x => p x = true) taken /\ lo <= length taken /\ g1 = g.
Proof.
  remember (Rep (Cls p) lo hi) as r eqn:Er. intros H. revert lo hi Er.
  induction H as [| | | | |r hi c g|r lo hi c g c1 g1 c2 g2 Hb H1 _ H2 IH2| | | |];
    intros lo' hi' Er; try discriminate; injection Er as ? ? ?; subst.
  - exists []. repeat split; auto.
  - inversion H1; subst. destruct (IH2 _ _ eq_refl) as (t & Ha & Hbh & Hall & Hlen & ->).
    exists (x :: t). cbn in *. rewrite Ha, Hbh, <- app_assoc. repeat split; auto. lia.
Qed.

(** ** [re.sub] of one character class by nothing is a filter *)

Lemma scan_cls p : forall ah bh,
  match scan (Cls p) bh ah with
  | None => List.filter (fun c => negb (p c)) ah = ah
  | Some m =>
      exists pre x post,
        ah = pre ++ x :: post /\ List.filter (fun c => negb (p c)) pre = pre
        /\ p x = true
        /\ m = Found (Cursor (rev pre ++ bh) (x :: post))
                     (Cursor (x :: rev pre ++ bh) post) []
  end.
Proof.
  induction ah as [|x ah IH]; intros bh; [reflexivity|].
  cbn [scan match_at exec ahead behind].
  destruct (p x) eqn:Hp.
  - exists [], x, ah. auto.
  - specialize (IH (x :: bh)). destruct (scan (Cls p) (x :: bh) ah) as [m|].
    + destruct IH as (pre & y & post & -> & Hpre & Hy & ->).
      exists (x :: pre), y, post. cbn. rewrite Hp, Hpre, <- app_assoc. cbn. auto.
    + cbn. rewrite Hp. cbn. f_equal. exact IH.
Qed.

Lemma sub_go_cls p : forall fuel ah bh,
  length ah < fuel ->
  sub_go fuel (Cls p) (fun _ => []) (Cursor bh ah)
  = List.filter (fun c => negb (p c)) ah.
Proof.
  induction fuel as [|fuel IH]; intros ah bh Hlen; [lia|].
  cbn [sub_go ahead behind].
  pose proof (scan_cls p ah bh) as Hs.
  destruct (scan (Cls p) bh ah) as [m|]; [|symmetry; exact Hs].
  destruct Hs as (pre & x & post & -> & Hpre & Hx & ->).
  cbn [m_start m_end ahead behind].
  rewrite (span_taken _ _ pre) by reflexivity.
  replace (length post <? length (x :: post)) with true
    by (symmetry; apply Nat.ltb_lt; cbn; lia).
  rewrite IH by (rewrite length_app in Hlen; cbn in Hlen; lia).
  rewrite List.filter_app. cbn. rewrite Hx, Hpre. reflexivity.
Qed.

Lemma sub_cls p s :
  sub (Cls p) (fun _ => []) s = List.filter (fun c => negb (p c)) s.
Proof. apply sub_go_cls. lia. Qed.

(** every match of [re.finditer] is a match of the pattern *)
Lemma iter_sound r : forall fuel c m,
  m ∈ iter fuel r c ->
  matches r (m_start m) [] (m_end m) (m_caps m).
Proof.
  induction fuel as [|fuel IH]; intros c m Hin; cbn [iter] in Hin.
  - inversion Hin.
  - destruct (scan r (behind c) (ahead c)) as [m0|] eqn:Hs; [|inversion Hin].
    apply elem_of_cons in Hin as [->|Hin].
    + apply scan_sound in Hs as (_ & _ & _ & Hm). exact Hm.
    + destruct (_ <? _); [eapply IH; exact Hin|].
      destruct (ahead (m_end m0)); [inversion Hin | eapply IH; exact Hin].
Qed.

Lemma finditer_sound r s m :
  m ∈ finditer r s ->
  matches r (m_start m) [] (m_end m) (m_caps m).
Proof. apply iter_sound. Qed.

End ReFacts.

(** ** Decimal digits *)

Module PyFacts.
Import Py.

Lemma digit_value_ascii U c :
  ascii_digit c = true -> exists d, digit_value U c = Some d.
Proof.
  intros H. unfold digit_value. rewrite H.
  replace (is_ascii c) with true; [eauto|].
  unfold ascii_digit, between, is_ascii in *. symmetry. apply N.ltb_lt.
  apply andb_prop in H as [_ H]. apply N.leb_le in H. lia.
Qed.

Lemma int_go_digits U s : forall acc,
  Forall (fun c => ascii_digit c = true) s -> (0 <= acc)%Z ->
  exists z, int_go U acc s = Some z /\ (0 <= z)%Z.
Proof.
  induction s as [|c s IH]; intros acc Hall Hacc; cbn [int_go]; [eauto|].
  inversion Hall as [|? ? Hc Hs]; subst.
  destruct (digit_value_ascii U c Hc) as [d ->].
  apply IH; [exact Hs | lia].
Qed.

Lemma int_digits U s :
  s <> [] -> Forall (fun c => ascii_digit c = true) s ->
  exists z, int_ U s = Some z /\ (0 <= z)%Z.
Proof.
  intros Hne Hall. destruct s as [|c s]; [congruence|].
  unfold int_. apply int_go_digits; [exact Hall | lia].
Qed.

Lemma uint_chars_digits d : Forall (fun c => ascii_digit c = true) (uint_chars d).
Proof. induction d; cbn [uint_chars]; constructor; auto. Qed.

Lemma str_of_nat_digits n : Forall (fun c => ascii_digit c = true) (str_of_nat n).
Proof. apply uint_chars_digits. Qed.

Lemma str_of_Z_digits z :
  (0 <= z)%Z -> Forall (fun c => ascii_digit c = true) (str_of_Z z).
Proof.
  intros Hz. unfold str_of_Z. destruct z as [|p|p]; cbn; try apply uint_chars_digits.
  - repeat constructor.
  - lia.
Qed.

Lemma is_digit_ascii U c : ascii_digit c = true -> is_digit U c = true.
Proof.
  intros H. unfold is_digit. destruct (PyFacts.digit_value_ascii U c H) as [d ->]. reflexivity.
Qed.

Lemma int_go_decimal U s : forall acc,
  Forall (fun c => is_digit U c = true) s ->
  exists z, int_go U acc s = Some z.
Proof.
  induction s as [|c s IH]; intros acc Hall; cbn [int_go]; [eauto|].
  inversion Hall as [|? ? Hc Hs]; subst. unfold is_digit in Hc.
  destruct (digit_value U c); [|discriminate]. apply IH. exact Hs.
Qed.

Lemma uint_chars_nil d : uint_chars d = [] -> d = Decimal.Nil.
Proof. destruct d; cbn; intros H; [reflexivity | discriminate ..]. Qed.

Lemma str_of_nat_nonempty n : str_of_nat n <> [].
Proof.
  unfold str_of_nat. intros H. apply uint_chars_nil in H.
  pose proof (DecimalNat.Unsigned.of_to n) as E. rewrite H in E. cbn in E.
  subst n. discriminate.
Qed.

Lemma uint_chars_inj d : forall d', uint_chars d = uint_chars d' -> d = d'.
Proof.
  induction d; intros d' H; destruct d'; cbn in H; try discriminate;
    try reflexivity; injection H as H; f_equal; auto.
Qed.

Lemma str_of_nat_inj n n' : str_of_nat n = str_of_nat n' -> n = n'.
Proof.
  intros H. apply DecimalNat.Unsigned.to_uint_inj, uint_chars_inj. exact H.
Qed.

Lemma digit_not_lower c : ascii_digit c = true -> ascii_lower c = false.
Proof.
  unfold ascii_digit, ascii_lower, between. intros H.
  apply andb_prop in H as [_ H]. apply N.leb_le in H.
  apply andb_false_iff. left. apply N.leb_gt. lia.
Qed.

(** [str(year)] opens with a digit or a minus sign, never with a letter *)
Lemma str_of_Z_head z :
  exists c rest, str_of_Z z = c :: rest /\ ascii_lower c = false.
Proof.
  unfold str_of_Z. destruct z as [|p|p]; cbn [Z.to_int].
  - eexists _, _. split; reflexivity.
  - pose proof (PyFacts.uint_chars_digits (Pos.to_uint p)) as Hd.
    destruct (uint_chars (Pos.to_uint p)) as [|c rest] eqn:E.
    + apply PyFacts.uint_chars_nil in E. apply DecimalPos.Unsigned.to_uint_nonnil in E. contradiction.
    + eexists _, _. split; [reflexivity|]. apply digit_not_lower.
      inversion Hd; assumption.
  - eexists _, _. split; reflexivity.
Qed.

Lemma letter_is_ascii c : ascii_letter c = true -> is_ascii c = true.
Proof.
  unfold ascii_letter, ascii_upper, ascii_lower, between, is_ascii. intros H.
  apply N.ltb_lt. apply orb_prop in H as [H|H];
    apply andb_prop in H as [_ H]; apply N.leb_le in H; lia.
Qed.

Lemma to_lower_letter c : ascii_letter c = true -> ascii_lower (to_lower c) = true.
Proof.
  unfold to_lower, ascii_letter. destruct (ascii_upper c) eqn:Eu; cbn [orb]; [|auto].
  intros _. unfold ascii_upper, ascii_lower, between in *.
  apply andb_prop in Eu as [H1 H2]. apply N.leb_le in H1, H2.
  apply andb_true_intro. split; apply N.leb_le; lia.
Qed.

(** the lower-cased form of ASCII letters is made of lower-case letters *)
Lemma lower_letters U s :
  Forall (fun c => ascii_letter c = true) s ->
  Forall (fun c => ascii_lower c = true) (lower U s).
Proof.
  intros H. unfold lower.
  replace (forallb is_ascii s) with true.
  - induction H; cbn; constructor; auto using to_lower_letter.
  - symmetry. apply forallb_forall. intros c Hc. apply letter_is_ascii.
    rewrite Forall_forall in H. apply H. apply list_elem_of_In. exact Hc.
Qed.

(** two strings that open with lower-case letters up to a first other
    character have the same letters and the same rest *)
Lemma letters_prefix_inj (l : str) : forall l' c t c' t',
  Forall (fun x => ascii_lower x = true) l ->
  Forall (fun x => ascii_lower x = true) l' ->
  ascii_lower c = false -> ascii_lower c' = false ->
  l ++ c :: t = l' ++ c' :: t' -> l = l' /\ c :: t = c' :: t'.
Proof.
  induction l as [|x l IH]; intros l' c t c' t' Hl Hl' Hc Hc' E.
  - destruct l' as [|y l']; [auto|]. cbn in E. injection E as -> _.
    inversion Hl'; congruence.
  - destruct l' as [|y l']; cbn in E.
    + injection E as -> _. inversion Hl; congruence.
    + injection E as -> E. inversion Hl; inversion Hl'; subst.
      destruct (IH l' c t c' t') as [-> ?]; auto.
Qed.


Lemma py_eqb_eq a : forall b, Py.eqb a b = true <-> a = b.
Proof.
  induction a as [|x a IH]; intros [|y b]; cbn; split; try congruence; try discriminate.
  - intros H. apply andb_prop in H as [Hx Hab]. apply N.eqb_eq in Hx. apply IH in Hab. congruence.
  - intros E. injection E as -> ->. rewrite N.eqb_refl. cbn. apply IH. reflexivity.
Qed.

Lemma py_mem_in x l : Py.mem x l = true <-> x ∈ l.
Proof.
  unfold Py.mem. rewrite existsb_exists. split.
  - intros (y & Hy & E). apply py_eqb_eq in E. subst. apply list_elem_of_In. exact Hy.
  - intros H. exists x. split; [apply list_elem_of_In; exact H | apply py_eqb_eq; reflexivity].
Qed.

End PyFacts.

(** one step of a computation in [result] *)
Ltac ok_step := cbn [mbind result_bind mret result_ret].

(** closes the cases of a statement about the fields of an [id_facts] *)
Ltac answer :=
  cbn [valid reason dob_iso age_str gender invalid];
  repeat split; intros; first [reflexivity | congruence].

(** ** The national identity parser *)

Section IdParser.
Variable U : unicode_tables.
Variable today : date.

Lemma int_r_digits s :
  s <> [] -> Forall (fun c => Py.ascii_digit c = true) s ->
  exists z, int_r U s = Ok z /\ (0 <= z)%Z.
Proof.
  intros Hne Hall. destruct (PyFacts.int_digits U s Hne Hall) as (z & Hz & Hpos).
  exists z. unfold int_r. rewrite Hz. auto.
Qed.

Lemma sum_ints_digits cs :
  Forall (fun c => exists x, c = [x] /\ Py.ascii_digit x = true) cs ->
  exists z, sum_ints U cs = Ok z.
Proof.
  induction 1 as [|c cs (x & -> & Hx) _ (z & IH)]; cbn [sum_ints]; [eauto|].
  destruct (int_r_digits [x]) as (v & -> & _); [discriminate | repeat constructor; exact Hx |].
  ok_step. rewrite IH. ok_step. eauto.
Qed.

Lemma pick_digits digits idxs :
  Forall (fun c => Py.ascii_digit c = true) digits ->
  Forall (fun i => i < length digits) idxs ->
  exists cs, pick digits idxs = Ok cs
    /\ length cs = length idxs
    /\ Forall (fun c => exists x, c = [x] /\ Py.ascii_digit x = true) cs.
Proof.
  intros Hd. induction 1 as [|i idxs Hi _ (cs & IH & Hlen & Hcs)]; cbn [pick].
  - exists []. auto.
  - unfold char_at. destruct (lookup_lt_is_Some_2 digits i Hi) as [x Hx].
    rewrite Hx. ok_step. rewrite IH. ok_step.
    exists ([x] :: cs). repeat split; [cbn; lia|].
    constructor; [|exact Hcs]. exists x. split; [reflexivity|].
    rewrite Forall_forall in Hd. apply Hd. eapply list_elem_of_lookup_2. exact Hx.
Qed.

Lemma concat_singletons cs :
  Forall (fun c : str => exists x, c = [x] /\ Py.ascii_digit x = true) cs ->
  Forall (fun c => Py.ascii_digit c = true) (concat cs) /\ length (concat cs) = length cs.
Proof.
  induction 1 as [|c cs (x & -> & Hx) _ [IH1 IH2]]; cbn; [auto|].
  split; [constructor; assumption | lia].
Qed.

(** the check digit computation raises on no string of 13 decimal digits *)
Lemma luhn_total digits :
  Forall (fun c => Py.ascii_digit c = true) digits ->
  exists b, _luhn_sa_id_ok U digits = Ok b.
Proof.
  intros Hd. unfold _luhn_sa_id_ok.
  destruct (length digits =? 13) eqn:Hlen; [|cbn; eauto].
  apply Nat.eqb_eq in Hlen. cbn [negb orb].
  destruct (negb (Py.isdigit U digits)); [eauto|].
  destruct (pick_digits digits [0; 2; 4; 6; 8; 10] Hd) as (odd & -> & _ & Hodd).
  { rewrite Hlen. repeat constructor; lia. }
  ok_step. destruct (sum_ints_digits odd Hodd) as (a & ->). ok_step.
  destruct (pick_digits digits [1; 3; 5; 7; 9; 11] Hd) as (even & -> & Hel & Heven).
  { rewrite Hlen. repeat constructor; lia. }
  ok_step. destruct (concat_singletons even Heven) as [Hc Hcl].
  destruct (int_r_digits (concat even)) as (e & -> & He); [|exact Hc|].
  { intros E. rewrite E in Hcl. cbn in *. lia. }
  ok_step. destruct (sum_ints_digits (List.map (fun ch => [ch]) (Py.str_of_Z (e * 2)))) as (b & ->).
  { rewrite Forall_map. eapply Forall_impl; [apply PyFacts.str_of_Z_digits; lia|].
    cbn. eauto. }
  ok_step. destruct (pick_digits digits [12] Hd) as (l & Hl & _ & Hlast).
  { rewrite Hlen. repeat constructor; lia. }
  cbn [pick] in Hl. destruct (char_at digits 12) as [c|]; [|discriminate].
  cbn in Hl. injection Hl as <-. ok_step.
  inversion Hlast as [|? ? (x & -> & Hx) _]; subst.
  destruct (int_r_digits [x]) as (v & -> & _); [discriminate | repeat constructor; exact Hx |].
  ok_step. eauto.
Qed.

(** line 226: the digits kept are the ASCII digits of the input, in order *)
Lemma id_digits id_value :
  Re.sub (Re.Cls (fun c => negb (Py.ascii_digit c))) (fun _ => []) id_value
  = List.filter Py.ascii_digit id_value.
Proof.
  rewrite ReFacts.sub_cls. apply List.filter_ext. intros c. apply negb_involutive.
Qed.

Lemma filter_digits (s : str) :
  Forall (fun c => Py.ascii_digit c = true) (List.filter Py.ascii_digit s).
Proof.
  induction s as [|c s IH]; cbn; [constructor|].
  destruct (Py.ascii_digit c) eqn:E; [constructor|]; assumption.
Qed.

(** the parser returns on every input, and what it returns when the
    input is empty, has not 13 digits, or is found invalid *)
Lemma parse_sa_id_fields_cases (id_value : str) :
  exists f,
    parse_sa_id_fields U today id_value = Ok f
    /\ (id_value = [] -> valid f = false /\ reason f = u "empty")
    /\ (id_value <> [] -> length (List.filter Py.ascii_digit id_value) <> 13 ->
        valid f = false /\ reason f = u "length")
    /\ (valid f = false -> dob_iso f = [] /\ age_str f = [] /\ gender f = []).
Proof.
  unfold parse_sa_id_fields. destruct id_value as [|c rest].
  { eexists. split; [reflexivity|]. answer. }
  rewrite id_digits.
  destruct (length (List.filter Py.ascii_digit (c :: rest)) =? 13) eqn:Hlen; cbn [negb].
  2:{ eexists. split; [reflexivity|]. answer. }
  apply Nat.eqb_eq in Hlen.
  destruct (choose_century _ _) as [[dob age]|].
  2:{ eexists. split; [reflexivity|]. answer. }
  destruct (luhn_total _ (filter_digits (c :: rest))) as [ok ->]. ok_step.
  destruct ok; cbn [negb]; (eexists; split; [reflexivity|]); answer.
Qed.

End IdParser.

(** ** The cohort year *)

(** takes a match of a pattern given by its constructors apart *)
Ltac invm :=
  repeat (match goal with
          | H : Re.matches (Re.Seq _ _) _ _ _ _ |- _ => inv H
          | H : Re.matches (Re.Cls _) _ _ _ _ |- _ => inv H
          | H : Re.matches (Re.Grp _ _) _ _ _ _ |- _ => inv H
          | H : Re.matches (Re.Bound _) _ _ _ _ |- _ => inv H
          | H : Re.matches Re.Eps _ _ _ _ |- _ => inv H
          | H : Re.matches (Re.Rep _ _ (Some _)) _ _ _ _ |- _ => inv H
          end;
          cbn [pred option_map Re.below Nat.ltb Nat.leb] in *; try discriminate).

Section Year.
Variable U : unicode_tables.
Variable today : date.

Lemma year_digits c g c1 g1 :
  Re.matches (RE_YEAR U) c g c1 g1 ->
  exists x y, Re.lookup_cap 1 g1 = Some [50%N; 48%N; x; y]
    /\ Py.is_digit U x = true /\ Py.is_digit U y = true.
Proof.
  unfold RE_YEAR.
  change (Re.lit (u "20")) with (Re.Seq (Re.Cls (N.eqb 50)) (Re.Cls (N.eqb 48))).
  cbv [Re.seqs Re.times Re.wordb Re.digit].
  intros H. invm.
  repeat match goal with E : (_ =? _)%N = true |- _ => apply N.eqb_eq in E; subst end.
  eexists _, _. split; [|split].
  - cbn [Re.lookup_cap Nat.eqb]. f_equal. apply ReFacts.span_taken. reflexivity.
  - assumption.
  - assumption.
Qed.

(** [int(m.group(1))] of line 288 never raises *)
Lemma extract_year_total path fallback :
  exists y, extract_year_from_filename U today path fallback = Ok y.
Proof.
  unfold extract_year_from_filename.
  destruct (Re.search _ _) as [m|] eqn:Hs.
  - apply ReFacts.search_sound in Hs as (pre & post & _ & Hm).
    apply year_digits in Hm as (x & y & Hcap & Hx & Hy).
    unfold Re.group. rewrite Hcap. unfold int_r, Py.int_.
    destruct (PyFacts.int_go_decimal U [50%N; 48%N; x; y] 0) as [z ->]; [|eauto].
    repeat constructor; assumption.
  - destruct fallback; eauto.
Qed.

End Year.

(** ** The comment splitter *)

(** the text between two cursors of which the later extends the earlier *)
Ltac prefix_of l bh :=
  lazymatch l with
  | bh => constr:(@nil N)
  | ?x :: ?l' => let p := prefix_of l' bh in constr:(x :: p)
  end.

Ltac span_simpl :=
  repeat match goal with
         | |- context [Re.span (Re.Cursor ?bh ?a) (Re.Cursor ?l ?a')] =>
             let p := prefix_of l bh in
             let t := eval cbn [rev app] in (rev p) in
             rewrite (ReFacts.span_taken (Re.Cursor bh a) (Re.Cursor l a') t)
               by reflexivity
         end.

Section Comments.
Variable U : unicode_tables.

Lemma ddmm_groups c g c1 g1 :
  Re.matches (RE_DDMM U) c g c1 g1 ->
  exists d m,
    Re.lookup_cap 1 g1 = Some d /\ Re.lookup_cap 2 g1 = Some m
    /\ Forall (fun x => Py.is_digit U x = true) d /\ (length d = 1 \/ length d = 2)
    /\ Forall (fun x => Py.is_digit U x = true) m /\ length m = 2.
Proof.
  unfold RE_DDMM. cbv [Re.seqs Re.times Re.opt Re.chr Re.wordb Re.digit].
  intros H. invm.
  all: cbn [Re.lookup_cap Nat.eqb]; span_simpl; eexists _, _;
    (split; [reflexivity|]); (split; [reflexivity|]);
    (split; [repeat constructor; assumption|]);
    (split; [cbn [length]; auto|]);
    (split; [repeat constructor; assumption | reflexivity]).
Qed.

Lemma hhmm_group c g c1 g1 :
  Re.matches (RE_HHMM U) c g c1 g1 ->
  exists t, Re.lookup_cap 1 g1 = Some t
    /\ Forall (fun x => Py.is_digit U x = true) t /\ length t = 4.
Proof.
  unfold RE_HHMM. cbv [Re.seqs Re.times Re.digit].
  intros H. invm.
  repeat match goal with
         | H : Re.matches (Re.NotBehind _) _ _ _ _ |- _ => inv H
         | H : Re.matches (Re.NotAhead _) _ _ _ _ |- _ => inv H
         end.
  cbn [Re.lookup_cap Nat.eqb]. span_simpl. eexists.
  split; [reflexivity|]. split; [repeat constructor; assumption | reflexivity].
Qed.

Lemma add_tokens_shape {A : Type} (P : str -> Prop) (f : A -> str) ms : forall times,
  Forall P times -> Forall (fun m => P (f m)) ms ->
  Forall P (foldl (fun times m => add_token times (f m)) times ms).
Proof.
  induction ms as [|m ms IH]; intros times Ht Hms; cbn [foldl]; [exact Ht|].
  inversion Hms; subst. apply IH; [|assumption].
  unfold add_token. destruct (Py.mem _ _); [exact Ht|].
  apply Forall_app. split; [exact Ht | repeat constructor; assumption].
Qed.

(** a collected token is a day and a month, or four digits *)
Lemma comment_tokens_shape t :
  Forall (fun tok => is_day_month U tok \/ is_four_digits U tok) (comment_tokens U t).
Proof.
  unfold comment_tokens. apply add_tokens_shape; [apply add_tokens_shape|].
  - constructor.
  - apply Forall_forall. intros m Hm. left.
    apply ReFacts.finditer_sound, ddmm_groups in Hm as (d & mo & H1 & H2 & Hd & Hl & Hmo & Hlm).
    unfold Re.group. rewrite H1, H2. exists d, mo. auto.
  - apply Forall_forall. intros m Hm. right.
    apply ReFacts.finditer_sound, hhmm_group in Hm as (tk & H1 & Hd & Hl).
    unfold Re.group. rewrite H1. split; assumption.
Qed.

End Comments.

(** ** The star rating *)

Section Stars.
Variable U : unicode_tables.
Variable today : date.

Lemma search_digits val m :
  Re.search (Re.plus (Re.digit U)) val = Some m ->
  exists pre post,
    val = pre ++ Re.group0 m ++ post /\ Re.group0 m <> []
    /\ Forall (fun c => Py.is_digit U c = true) (Re.group0 m).
Proof.
  intros H. apply ReFacts.search_sound in H as (pre & post & Hval & Hm).
  apply ReFacts.matches_rep_cls in Hm as (taken & Ha & _ & Hall & Hlen & _).
  cbn [Re.ahead] in Ha. apply app_inv_tail in Ha. rewrite <- Ha in Hall, Hlen.
  exists pre, post. repeat split; [exact Hval | | exact Hall].
  intros E. rewrite E in Hlen. cbn in Hlen. lia.
Qed.

(** what [stars_to_number] returns holds decimal digits only *)
Lemma stars_to_number_shape val :
  Forall (fun c => Py.is_digit U c = true) (stars_to_number U val).
Proof.
  unfold stars_to_number. destruct val as [|c val]; [constructor|].
  destruct (Re.search _ _) as [m|] eqn:Hs.
  - apply search_digits in Hs as (_ & _ & _ & _ & Hall). exact Hall.
  - destruct (Py.count_char star_glyph (c :: val)) as [|n].
    + destruct (Py.mem _ _); constructor.
    + eapply Forall_impl; [apply PyFacts.str_of_nat_digits|].
      intros x. apply PyFacts.is_digit_ascii.
Qed.


(** no digit and no star glyph: nothing is returned *)
Lemma stars_to_number_blank val :
  Forall (fun c => Py.is_digit U c = false /\ c <> star_glyph) val ->
  stars_to_number U val = [].
Proof.
  intros Hval. unfold stars_to_number. destruct val as [|c val]; [reflexivity|].
  destruct (Re.search _ _) as [m|] eqn:Hs.
  - exfalso. apply search_digits in Hs as (pre & post & E & Hne & Hall).
    destruct (Re.group0 m) as [|x g0]; [congruence|].
    inversion Hall as [|? ? Hx _]; subst.
    rewrite E in Hval. apply Forall_app in Hval as [_ Hval].
    inversion Hval as [|? ? [Hx' _] _]; subst. congruence.
  - replace (Py.count_char star_glyph (c :: val)) with 0.
    + destruct (Py.mem _ _); reflexivity.
    + unfold Py.count_char. symmetry. clear Hs.
      induction Hval as [|x l [_ Hx] _ IH]; [reflexivity|].
      cbn [List.filter]. destruct (N.eqb_spec star_glyph x) as [E|_]; [congruence|].
      exact IH.
Qed.

End Stars.

(** ** The record builder *)

Section Main.
Variable U : unicode_tables.
Variable today : date.

Section RowFacts.
Variables (headers super_headers : list str) (year : Z).

Abbreviation id_of d := (Py.strip U (cell d (id_col U headers))).
Abbreviation names_of d :=
  (cell d (name_col U headers), cell d (surname_col U headers)).

Lemma build_row_ok idx d id_counts :
  exists t1 t2 t3,
    build_row U today headers super_headers year idx d id_counts
    = Ok (t1, t2, t3,
          (build_student_id U (names_of d).1 (names_of d).2 year id_counts idx).2)
    /\ (let sid := (build_student_id U (names_of d).1 (names_of d).2 year id_counts idx).1 in
        keyed sid (id_of d) t1 /\ keyed sid (id_of d) t2 /\ keyed sid (id_of d) t3)
    /\ field (u "ro") t3 = Some (stars_to_number U (get d (u "ro"))).
Proof.
  unfold build_row. cbn [fst snd].
  destruct (build_student_id _ _ _ _ _ _) as [student_id counts'].
  destruct (parse_contact_field _ _) as [[prim wa] alt].
  destruct (parse_parent_details _ _) as [p_name p_contact].
  destruct (split_comments _ _) as [c_time c_text].
  destruct (parse_sa_id_fields_cases U today (id_of d)) as (f & -> & _).
  ok_step. eexists _, _, _. split; [reflexivity|].
  unfold keyed. cbn [fst snd]. repeat split; reflexivity.
Qed.

(** the loop returns, with one record per row in each table, the three
    records of a position keyed alike, and the identifiers those of
    [assign_ids] *)
Lemma rows_loop_ok rows : forall idx id_counts,
  exists t,
    rows_loop U today headers super_headers year idx rows id_counts = Ok t
    /\ Forall3 (fun r1 r2 r3 =>
                  exists sid idn, keyed sid idn r1 /\ keyed sid idn r2 /\ keyed sid idn r3)
               (t1_rows t) (t2_rows t) (t3_rows t)
    /\ length (t1_rows t) = length rows
    /\ Forall (fun r => exists v, field (u "ro") r = Some v
                                  /\ Forall (fun c => Py.is_digit U c = true) v)
              (t3_rows t)
    /\ Forall2 (fun r sid => field (u "Student_ID") r = Some sid) (t1_rows t)
               (assign_ids U year id_counts idx (List.map (fun d => names_of d) rows)).
Proof.
  induction rows as [|d rows IH]; intros idx id_counts; cbn [rows_loop].
  - eexists. split; [reflexivity|]. cbn. repeat split; constructor.
  - destruct (build_row_ok idx d id_counts) as (t1 & t2 & t3 & -> & Hk & Hro).
    ok_step.
    destruct (IH (S idx) (build_student_id U (names_of d).1 (names_of d).2 year id_counts idx).2)
      as (t & -> & H3 & Hlen & Hros & Hids).
    ok_step. eexists. split; [reflexivity|].
    cbn [t1_rows t2_rows t3_rows List.map assign_ids length].
    destruct (build_student_id _ _ _ _ _ _) as [sid counts'] eqn:Eb.
    cbn [fst snd] in *. repeat split.
    + constructor; [|exact H3]. eexists _, _. exact Hk.
    + lia.
    + constructor; [|exact Hros]. eexists. split; [exact Hro|].
      apply stars_to_number_shape.
    + constructor; [|exact Hids]. apply Hk.
Qed.

End RowFacts.

Lemma year_total input_path cohort_year :
  exists year,
    match cohort_year with
    | Some y => if (y =? 0)%Z then extract_year_from_filename U today input_path None
                else Ok y
    | None => extract_year_from_filename U today input_path None
    end = Ok year.
Proof.
  destruct cohort_year as [y|]; [destruct (y =? 0)%Z|];
    eauto using extract_year_total.
Qed.

(** the loop of line 75 on rows without a cell that is too long, and
    on rows with one *)
Lemma read_rows_within header reader :
  within_limit reader = true ->
  read_rows header reader = Ok (List.map (row_dict header) reader).
Proof.
  induction reader as [|row rest IH]; [reflexivity|]. cbn [within_limit forallb].
  intros H. apply andb_prop in H as [Hrow Hrest]. apply negb_true_iff in Hrow.
  cbn [read_rows List.map]. rewrite Hrow, (IH Hrest). reflexivity.
Qed.

Lemma read_rows_over header reader :
  within_limit reader = false -> read_rows header reader = Raise CsvError.
Proof.
  induction reader as [|row rest IH]; [discriminate|]. cbn [within_limit forallb read_rows].
  destruct (existsb too_long row); [reflexivity|]. cbn [negb andb]. intros H.
  rewrite (IH H). reflexivity.
Qed.

(** the reader on a file with its two header rows *)
Lemma read_within super_header_raw header_raw data :
  within_limit (super_header_raw :: header_raw :: data) = true ->
  read_csv_with_multiline U (Readable (super_header_raw :: header_raw :: data))
  = let cleaned_super := List.map (clean_cell U) super_header_raw in
    let cleaned_header := reconcile (header_cells U 0 header_raw cleaned_super) in
    Ok (cleaned_header, cleaned_super, List.map (row_dict cleaned_header) data).
Proof.
  cbn [within_limit forallb]. intros H.
  apply andb_prop in H as [Hs H]. apply andb_prop in H as [Hh Hd].
  apply negb_true_iff in Hs, Hh.
  unfold read_csv_with_multiline. cbn [next]. rewrite Hs.
  cbn [next mbind result_bind]. rewrite Hh.
  cbn [mbind result_bind]. rewrite (read_rows_within _ data Hd). reflexivity.
Qed.

(** a cell that is too long, wherever it stands, ends the reading *)
Lemma read_over rows :
  within_limit rows = false ->
  read_csv_with_multiline U (Readable rows) = Raise CsvError.
Proof.
  unfold read_csv_with_multiline. destruct rows as [|sh rows]; [discriminate|].
  cbn [within_limit forallb next]. destruct (existsb too_long sh); [reflexivity|].
  destruct rows as [|h data]; [discriminate|].
  cbn [negb andb forallb next mbind result_bind].
  destruct (existsb too_long h); [reflexivity|]. cbn [negb andb mbind result_bind].
  intros H. rewrite (read_rows_over _ data H). reflexivity.
Qed.

Lemma main_over rows input_path cohort_year :
  within_limit rows = false ->
  main U today (Readable rows) input_path cohort_year = Return 4 None.
Proof. intros H. unfold main. rewrite (read_over rows H). reflexivity. Qed.

(** a file with a single row: the reader raises at the row if a cell
    is too long, and line 41 raises [StopIteration] if none is *)
Lemma read_single row :
  read_csv_with_multiline U (Readable [row])
  = Raise (if existsb too_long row then CsvError else StopIteration).
Proof.
  unfold read_csv_with_multiline. cbn [next].
  destruct (existsb too_long row); reflexivity.
Qed.

Lemma main_single row input_path cohort_year :
  main U today (Readable [row]) input_path cohort_year = Return 4 None.
Proof.
  unfold main. rewrite read_single. destruct (existsb too_long row); reflexivity.
Qed.

(** what [main] does on a file with its two header rows and [data] *)
Lemma main_ok super_header_raw header_raw data input_path cohort_year :
  within_limit (super_header_raw :: header_raw :: data) = true ->
  match data with
  | [] =>
      main U today (Readable [super_header_raw; header_raw]) input_path cohort_year
      = Return 0 None
  | _ :: _ =>
      exists t,
        main U today (Readable (super_header_raw :: header_raw :: data))
             input_path cohort_year = Return 0 (Some t)
        /\ Forall3 (fun r1 r2 r3 =>
                      exists sid idn,
                        keyed sid idn r1 /\ keyed sid idn r2 /\ keyed sid idn r3)
                   (t1_rows t) (t2_rows t) (t3_rows t)
        /\ length (t1_rows t) = length data
        /\ Forall (fun r => exists v, field (u "ro") r = Some v
                                      /\ Forall (fun c => Py.is_digit U c = true) v)
                  (t3_rows t)
        /\ exists year names,
             Forall2 (fun r sid => field (u "Student_ID") r = Some sid)
                     (t1_rows t) (assign_ids U year ∅ 0 names)
  end.
Proof.
  intros Hw. destruct (year_total input_path cohort_year) as [year Hy].
  destruct data as [|d data]; unfold main; rewrite (read_within _ _ _ Hw); cbv zeta;
    rewrite Hy; [reflexivity|].
  cbn [List.map].
  match goal with
  | |- context [rows_loop U today ?h ?s year 0 ?rows ∅] =>
      destruct (rows_loop_ok h s year rows 0 ∅) as (t & -> & H3 & Hlen & Hro & Hids)
  end.
  exists t. split; [reflexivity|]. split; [exact H3|]. split; [|split; [exact Hro|]].
  - rewrite Hlen. cbn [length]. rewrite length_map. reflexivity.
  - eexists _, _. exact Hids.
Qed.

End Main.

(** ** Identifiers are distinct *)

Section Ids.
Variable U : unicode_tables.
Variable year : Z.

Local Abbreviation Y := (Py.str_of_Z year).
Local Abbreviation lower_only := (Forall (fun c => Py.ascii_lower c = true)).
Local Abbreviation count_of counts b := (default 0 (counts !! b)).

Lemma filter_holds (p : char -> bool) (s : str) :
  Forall (fun c => p c = true) (List.filter p s).
Proof.
  induction s as [|c s IH]; cbn; [constructor|].
  destruct (p c) eqn:E; [constructor|]; assumption.
Qed.

Lemma slug_lower s : lower_only (slug_letters_two U s).
Proof.
  unfold slug_letters_two. destruct s as [|c s]; [constructor|].
  apply PyFacts.lower_letters. rewrite ReFacts.sub_cls.
  apply Forall_take.
  rewrite (List.filter_ext _ Py.ascii_letter) by (intros; apply negb_involutive).
  apply filter_holds.
Qed.

Lemma base_shape name surname idx :
  is_normal year (student_base U name surname year idx)
  \/ is_fallback year idx (student_base U name surname year idx).
Proof.
  unfold student_base.
  pose proof (slug_lower name) as Hn. pose proof (slug_lower surname) as Hs.
  destruct (slug_letters_two U name) as [|a n2]; [destruct (slug_letters_two U surname) as [|b s2]|].
  - right. reflexivity.
  - left. exists (b :: s2). auto.
  - left. exists ((a :: n2) ++ slug_letters_two U surname).
    split; [apply Forall_app; auto | rewrite <- app_assoc; reflexivity].
Qed.

Lemma unk_lower : lower_only (u "unk").
Proof. repeat constructor. Qed.

Lemma tails_inj k k' t :
  suffixed [] k = t -> suffixed [] k' = t -> k = k'.
Proof.
  destruct k as [|k], k' as [|k']; cbn [suffixed app]; intros <- E; try reflexivity.
  - apply PyFacts.str_of_nat_nonempty in E. contradiction.
  - symmetry in E. apply PyFacts.str_of_nat_nonempty in E. contradiction.
  - apply PyFacts.str_of_nat_inj in E. lia.
Qed.

Lemma suffixed_tail b k : suffixed b k = b ++ suffixed [] k.
Proof. destruct k; cbn [suffixed app]; [rewrite app_nil_r|]; reflexivity. Qed.

Lemma tail_digits k : Forall (fun c => Py.ascii_digit c = true) (suffixed [] k).
Proof. destruct k; cbn [suffixed app]; [constructor | apply PyFacts.str_of_nat_digits]. Qed.

Lemma normal_normal b k b' k' :
  is_normal year b -> is_normal year b' -> suffixed b k = suffixed b' k' -> b = b' /\ k = k'.
Proof.
  intros (l & Hl & ->) (l' & Hl' & ->). rewrite (suffixed_tail _ k), (suffixed_tail _ k').
  destruct (PyFacts.str_of_Z_head year) as (c & rest & -> & Hc).
  rewrite <- !app_assoc. cbn [app]. intros E.
  apply PyFacts.letters_prefix_inj in E as [-> E]; auto.
  injection E as E. apply app_inv_head in E.
  split; [reflexivity|]. eapply tails_inj; [reflexivity | symmetry; exact E].
Qed.

Lemma normal_fallback b k j b' :
  is_normal year b -> is_fallback year j b' -> suffixed b k = b' -> False.
Proof.
  intros (l & Hl & ->) ->. rewrite (suffixed_tail _ k).
  destruct (PyFacts.str_of_Z_head year) as (c & rest & -> & Hc).
  rewrite <- !app_assoc. cbn [app]. intros E.
  apply PyFacts.letters_prefix_inj in E as [_ E]; auto using unk_lower.
  injection E as E. apply app_inv_head in E.
  pose proof (tail_digits k) as Hd. rewrite E in Hd.
  inversion Hd as [|? ? H114 _]. discriminate H114.
Qed.

Lemma fallback_fallback j j' b :
  is_fallback year j b -> is_fallback year j' b -> j = j'.
Proof.
  intros -> E. unfold is_fallback in E.
  repeat apply app_inv_head in E. apply PyFacts.str_of_nat_inj in E. lia.
Qed.


Lemma count_insert (counts : gmap str nat) b n b0 :
  count_of (<[b := n]> counts) b0 = (if decide (b = b0) then n else count_of counts b0).
Proof. rewrite lookup_insert. destruct (decide (b = b0)); reflexivity. Qed.

Lemma build_fresh name surname idx counts issued :
  registry_ok year idx counts issued ->
((build_student_id U name surname year counts idx).1 ∉ issued)
  /\ registry_ok year (S idx) (build_student_id U name surname year counts idx).2
                 ((build_student_id U name surname year counts idx).1 :: issued).
Proof.
  intros [Hkeys Hids]. unfold build_student_id. cbn [fst snd].
  set (b := student_base U name surname year idx).
  set (cnt := count_of counts b).
  pose proof (base_shape name surname idx) as Hshape. fold b in Hshape.
  assert (Hfb : is_fallback year idx b -> cnt = 0).
  { intros Hf. destruct (Nat.eq_dec (count_of counts b) 0) as [|Hpos]; [assumption|exfalso].
    destruct (Hkeys b) as [Hn|(j & Hj & Hf' & _)]; [lia | |].
    - exact (normal_fallback b 0 idx b Hn Hf eq_refl).
    - pose proof (fallback_fallback _ _ _ Hf Hf'). lia. }
  split; [|split].
  - intros Hin. destruct (Hids _ Hin) as (b' & k' & E & Hk').
    destruct (Hkeys b') as [Hn'|(j & Hj & Hf' & H1)]; [lia | |].
    + destruct Hshape as [Hn|Hf].
      * destruct (normal_normal _ _ _ _ Hn Hn' E) as [Eb Ek]. subst b'.
        unfold cnt in Ek. lia.
      * rewrite (Hfb Hf) in E. cbn [suffixed] in E.
        exact (normal_fallback b' k' idx b Hn' Hf (eq_sym E)).
    + assert (k' = 0) as -> by lia. cbn [suffixed] in E. destruct Hshape as [Hn|Hf].
      * exact (normal_fallback b cnt j b' Hn Hf' E).
      * rewrite (Hfb Hf) in E. cbn [suffixed] in E. subst b'.
        pose proof (fallback_fallback _ _ _ Hf Hf'). lia.
  - intros b0 Hpos. rewrite count_insert in Hpos |- *.
    destruct (decide (b = b0)) as [<-|Hne].
    + destruct Hshape as [Hn|Hf]; [left; exact Hn|].
      right. exists idx. rewrite (Hfb Hf). repeat split; [lia | exact Hf].
    + destruct (Hkeys b0 Hpos) as [Hn|(j & Hj & Hf & H1)]; [left; exact Hn|].
      right. exists j. repeat split; [lia | exact Hf | exact H1].
  - intros id Hin. apply elem_of_cons in Hin as [->|Hin].
    + exists b, cnt. split; [reflexivity|]. rewrite count_insert.
      destruct (decide (b = b)); [lia|congruence].
    + destruct (Hids _ Hin) as (b' & k' & E & Hk'). exists b', k'.
      split; [exact E|]. rewrite count_insert.
      destruct (decide (b = b')) as [<-|]; [unfold cnt; lia | exact Hk'].
Qed.

(** the identifiers of the rows still to come are pairwise distinct,
    and none of them was issued before *)
Lemma assign_ids_fresh pairs : forall idx counts issued,
  registry_ok year idx counts issued ->
  NoDup (assign_ids U year counts idx pairs)
  /\ forall id, id ∈ assign_ids U year counts idx pairs -> id ∉ issued.
Proof.
  induction pairs as [|[name surname] pairs IH]; intros idx counts issued Hok;
    cbn [assign_ids].
  - split; [constructor|]. intros id Hin. inversion Hin.
  - destruct (build_fresh name surname idx counts issued Hok) as [Hnew Hok'].
    destruct (build_student_id U name surname year counts idx) as [sid counts'].
    cbn [fst snd] in *.
    destruct (IH (S idx) counts' (sid :: issued) Hok') as [Hnd Hout].
    split.
    + constructor; [|exact Hnd]. intros Hin. apply (Hout _ Hin). left.
    + intros id Hin. apply elem_of_cons in Hin as [->|Hin]; [exact Hnew|].
      intros Hi. apply (Hout _ Hin). right. exact Hi.
Qed.

Lemma registry_ok_empty : registry_ok year 0 ∅ [].
Proof.
  split.
  - intros b H. rewrite lookup_empty in H. cbn in H. lia.
  - intros id H. inversion H.
Qed.

Lemma assign_ids_nodup pairs : NoDup (assign_ids U year ∅ 0 pairs).
Proof. apply (assign_ids_fresh pairs 0 ∅ []), registry_ok_empty. Qed.

End Ids.

(** ** Phone tokens in canonical form *)

(** a digit belongs to the class of the characters of a phone token *)
Ltac digit_in_class :=
  match goal with
  | H : Py.is_digit _ ?x = true |- context [Py.is_digit _ ?x] => rewrite H; reflexivity
  end.

Section Phones.
Variable U : unicode_tables.

Lemma normalize_phone_filter raw :
  normalize_phone U raw
  = List.filter (fun c => Py.is_digit U c || (c =? 43)%N)
      (List.filter (fun c => negb (Py.is_space U c || (c =? 45)%N)) raw).
Proof.
  unfold normalize_phone. rewrite !ReFacts.sub_cls.
  apply List.filter_ext. intros c. apply negb_involutive.
Qed.

(** of the characters a phone token is made of, the canonical form
    keeps decimal digits only *)
Lemma normalize_body (s : str) :
  Forall (fun c => (Py.is_digit U c || Py.is_space U c || (c =? 45)%N) = true) s ->
  Forall (fun c => Py.is_digit U c = true) (normalize_phone U s).
Proof.
  intros Hs. rewrite normalize_phone_filter.
  induction Hs as [|c s Hc _ IH]; cbn [List.filter]; [constructor|].
  destruct (Py.is_space U c || (c =? 45)%N) eqn:E1; cbn [negb]; [exact IH|].
  cbn [List.filter]. apply orb_false_elim in E1 as [Esp E45].
  rewrite Esp, E45, !orb_false_r in Hc.
  rewrite Hc. cbn [orb]. constructor; assumption.
Qed.

Lemma normalize_app a b :
  normalize_phone U (a ++ b) = normalize_phone U a ++ normalize_phone U b.
Proof. rewrite !normalize_phone_filter, !List.filter_app. reflexivity. Qed.

(** the canonical form of a token of [RE_PHONE]: decimal digits, after
    one plus sign if the token opens with one *)
Lemma phone_token_canonical c g c1 g1 :
  Re.matches (RE_PHONE U) c g c1 g1 ->
  exists digits,
    Forall (fun x => Py.is_digit U x = true) digits
    /\ (normalize_phone U (Re.span c c1) = digits
        \/ normalize_phone U (Re.span c c1) = 43%N :: digits).
Proof.
  unfold RE_PHONE. cbv [Re.seqs Re.opt Re.chr Re.digit].
  intros H. invm.
  all: match goal with
       | H : Re.matches (Re.Rep _ _ None) _ _ _ _ |- _ =>
           apply ReFacts.matches_rep_cls in H as (mid & Ha & Hb & Hmid & _ & _)
       end; cbn [Re.ahead Re.behind] in Ha, Hb; subst.
  all: repeat match goal with E : (_ =? _)%N = true |- _ => apply N.eqb_eq in E; subst end.
  all: match goal with
       | |- context [Re.span (Re.Cursor ?bh _)
                             (Re.Cursor (?l :: rev ?mid ++ ?f :: 43%N :: ?bh) _)] =>
           rewrite (ReFacts.span_taken _ _ ([43%N] ++ (f :: mid ++ [l])))
             by (cbn [Re.behind rev app]; rewrite rev_app_distr; cbn [rev app];
                 rewrite <- !app_assoc; reflexivity);
           exists (normalize_phone U (f :: mid ++ [l]));
           split; [|right; rewrite normalize_app; reflexivity]
       | |- context [Re.span (Re.Cursor ?bh _)
                             (Re.Cursor (?l :: rev ?mid ++ ?f :: ?bh) _)] =>
           rewrite (ReFacts.span_taken _ _ (f :: mid ++ [l]))
             by (cbn [Re.behind rev app]; rewrite rev_app_distr; cbn [rev app];
                 rewrite <- !app_assoc; reflexivity);
           exists (normalize_phone U (f :: mid ++ [l]));
           split; [|left; reflexivity]
       end.
  all: apply normalize_body; constructor; [digit_in_class|];
    apply Forall_app; split; [assumption|]; repeat constructor; digit_in_class.
Qed.

(** the numbers of a line are in canonical form *)
Lemma line_numbers_canonical ln n :
  n ∈ line_numbers U ln ->
  exists digits,
    Forall (fun x => Py.is_digit U x = true) digits
    /\ (n = digits \/ n = 43%N :: digits).
Proof.
  unfold line_numbers, Re.findall. rewrite list_elem_of_In, in_map_iff.
  intros (ph & <- & Hph). apply in_map_iff in Hph as (m & <- & Hm).
  apply list_elem_of_In in Hm.
  apply ReFacts.finditer_sound in Hm. unfold Re.group0.
  eapply phone_token_canonical. exact Hm.
Qed.

End Phones.

(** ** The contact slots *)

Section Contacts.
Variable U : unicode_tables.

Lemma truthy_shown o : Py.truthy o = nonempty (Py.or_empty o).
Proof. destruct o as [[|]|]; reflexivity. Qed.

Lemma shown_fill st n : shown (fill st n) = fill_shown (shown st) n.
Proof.
  destruct st as [[p w] a]. unfold fill. rewrite !truthy_shown. cbn [shown].
  destruct (Py.or_empty p) eqn:Ep; cbn [nonempty negb fill_shown shown Py.or_empty];
    [reflexivity|].
  destruct (Py.or_empty w) eqn:Ew; cbn [nonempty negb shown Py.or_empty];
    [rewrite Ep; reflexivity|].
  destruct (Py.or_empty a) eqn:Ea; cbn [nonempty negb shown Py.or_empty];
    rewrite ?Ep, ?Ew, ?Ea; reflexivity.
Qed.

Lemma shown_foldl rem : forall st,
  shown (foldl fill st rem) = foldl fill_shown (shown st) rem.
Proof.
  induction rem as [|n rem IH]; intros st; cbn [foldl]; [reflexivity|].
  rewrite IH, shown_fill. reflexivity.
Qed.

Lemma fill_shown_empty v : fill_shown v [] = v.
Proof. destruct v as [[[|] [|]] [|]]; reflexivity. Qed.

Lemma foldl_fill_filter rem : forall v,
  foldl fill_shown v rem = foldl fill_shown v (List.filter nonempty rem).
Proof.
  induction rem as [|n rem IH]; intros v; [reflexivity|].
  destruct n as [|c n]; cbn [foldl List.filter nonempty].
  - rewrite fill_shown_empty. apply IH.
  - apply IH.
Qed.

Lemma full_stays rem : forall p w a,
  p <> [] -> w <> [] -> a <> [] -> foldl fill_shown (p, w, a) rem = (p, w, a).
Proof.
  induction rem as [|n rem IH]; intros p w a Hp Hw Ha; [reflexivity|].
  cbn [foldl]. replace (fill_shown (p, w, a) n) with (p, w, a); [auto|].
  destruct p, w, a; first [congruence | reflexivity].
Qed.

(** the numbers left for pass 2 go to the empty slots in the order
    primary, WhatsApp, alternative *)
Lemma fill_order (p w a : str) (r : list str) :
  Forall (fun n => n <> []) r ->
  foldl fill_shown (p, w, a) r
  = (Py.or_str p (nth 0 r []),
     Py.or_str w (nth (if nonempty p then 0 else 1) r []),
     Py.or_str a (nth ((if nonempty p then 0 else 1) + (if nonempty w then 0 else 1)) r [])).
Proof.
  intros Hr.
  assert (Hstep : forall n, n ∈ r -> exists c n', n = c :: n').
  { intros [|c n'] Hn; [|eauto]. rewrite Forall_forall in Hr. specialize (Hr _ Hn). congruence. }
  destruct r as [|n1 r]; [destruct p, w, a; reflexivity|].
  destruct (Hstep n1) as (c1 & n1' & ->); [left|].
  destruct r as [|n2 r].
  { destruct p, w, a; reflexivity. }
  destruct (Hstep n2) as (c2 & n2' & ->); [right; left|].
  destruct r as [|n3 r].
  { destruct p, w, a; reflexivity. }
  destruct (Hstep n3) as (c3 & n3' & ->); [right; right; left|].
  destruct p, w, a; cbn [foldl fill_shown]; rewrite ?full_stays by discriminate; reflexivity.
Qed.


Lemma findall_numbers ln :
  match Re.findall (RE_PHONE U) ln with
  | [] => line_numbers U ln = []
  | ph :: _ => exists rest, line_numbers U ln = normalize_phone U ph :: rest
  end.
Proof.
  unfold line_numbers. destruct (Re.findall _ _); cbn [List.map]; eauto.
Qed.

Lemma or_empty_falsy o : Py.truthy o = false -> Py.or_empty o = [].
Proof. destruct o as [[|]|]; cbn; congruence. Qed.

Lemma label_line_apart seen st ln :
  held_apart seen (shown st) ->
  NoDup (seen ++ line_numbers U ln) ->
  held_apart (seen ++ line_numbers U ln) (shown (label_line U st ln)).
Proof.
  intros Hh Hnd.
  assert (Hkeep : held_apart (seen ++ line_numbers U ln) (shown st)).
  { destruct st as [[p w] a]. cbn [shown held_apart] in *.
    destruct Hh as (H1 & H2 & H3 & H4). repeat split; try tauto;
      intros H; apply elem_of_app; left; tauto. }
  unfold label_line. destruct st as [[p w] a].
  pose proof (findall_numbers ln) as Hf.
  destruct (Re.findall (RE_PHONE U) ln) as [|ph phs]; [exact Hkeep|].
  destruct Hf as [rest Hf].
  set (num := normalize_phone U ph) in *.
  assert (Hnum : num ∈ seen ++ line_numbers U ln).
  { rewrite Hf. apply elem_of_app. right. left. }
  assert (Hnew : forall x, x ∈ seen -> x <> num).
  { intros x Hx ->. apply NoDup_app in Hnd as (_ & Hd & _).
    apply (Hd _ Hx). rewrite Hf. left. }
  cbn [shown held_apart] in Hh, Hkeep. destruct Hh as (H1 & H2 & H3 & H4 & H5 & H6).
  destruct Hkeep as (K1 & K2 & K3 & _).
  assert (Hfresh : forall x, (x <> [] -> x ∈ seen) -> num <> [] \/ x <> [] -> x <> num).
  { intros x Hx Hne ->. destruct (Hnew num); [|reflexivity]. tauto. }
  destruct (Re.hit (RE_WHATS U) ln); [|destruct (Re.hit (RE_ALT U) ln);
                                       [|destruct (Re.hit (RE_PRIMARY_HINT U) ln)]].
  - destruct (Py.truthy w) eqn:Et; [cbn [shown held_apart]; tauto|].
    apply or_empty_falsy in Et. cbn [shown held_apart Py.or_empty].
    repeat split; auto; intros Hx; auto. apply not_eq_sym. auto.
  - destruct (Py.truthy a) eqn:Et; [cbn [shown held_apart]; tauto|].
    apply or_empty_falsy in Et. cbn [shown held_apart Py.or_empty].
    repeat split; auto.
  - destruct (Py.truthy p) eqn:Et; [cbn [shown held_apart]; tauto|].
    apply or_empty_falsy in Et. cbn [shown held_apart Py.or_empty].
    repeat split; auto; intros Hx; apply not_eq_sym; auto.
  - cbn [shown held_apart]. tauto.
Qed.

Lemma pass1_apart lines : forall st seen,
  held_apart seen (shown st) ->
  NoDup (seen ++ flat_map (line_numbers U) lines) ->
  held_apart (seen ++ flat_map (line_numbers U) lines)
             (shown (foldl (label_line U) st lines)).
Proof.
  induction lines as [|ln lines IH]; intros st seen Hh Hnd; cbn [foldl flat_map] in *.
  - rewrite app_nil_r. exact Hh.
  - rewrite app_assoc in Hnd |- *. apply IH; [|exact Hnd].
    apply label_line_apart; [exact Hh|].
    apply NoDup_app in Hnd as (Hnd & _). exact Hnd.
Qed.

Lemma remaining_filter st lines :
  remaining U st lines
  = List.filter (fun n => negb (Py.mem n (taken st))) (flat_map (line_numbers U) lines).
Proof.
  unfold remaining. induction lines as [|ln lines IH]; cbn [flat_map]; [reflexivity|].
  rewrite List.filter_app, IH. reflexivity.
Qed.

Lemma nodup_filter (f : str -> bool) l : NoDup l -> NoDup (List.filter f l).
Proof. rewrite !NoDup_ListNoDup. apply List.NoDup_filter. Qed.

Lemma elem_of_filter (f : str -> bool) l x :
  x ∈ List.filter f l <-> x ∈ l /\ f x = true.
Proof. rewrite !list_elem_of_In. apply List.filter_In. Qed.

(** a number left for pass 2 is none of the numbers held after pass 1 *)
Lemma left_not_held st x p w a :
  shown st = (p, w, a) -> Py.mem x (taken st) = false ->
  (p <> [] -> x <> p) /\ (w <> [] -> x <> w) /\ (a <> [] -> x <> a).
Proof.
  destruct st as [[op ow] oa]. cbn [shown taken List.map]. intros E Hm.
  injection E as <- <- <-.
  assert (Hn : forall y, y <> [] -> y ∈ [Py.or_empty op; Py.or_empty ow; Py.or_empty oa] -> x <> y).
  { intros y Hy Hin ->. apply not_true_iff_false in Hm. apply Hm, PyFacts.py_mem_in.
    apply elem_of_filter. split; [exact Hin|]. destruct y; congruence. }
  repeat split; intros H; apply Hn; auto; set_solver.
Qed.

Lemma nth_elem (r : list str) i : nth i r [] <> [] -> nth i r [] ∈ r.
Proof.
  intros H. apply list_elem_of_In. apply nth_In.
  destruct (Nat.lt_ge_cases i (length r)) as [|Hge]; [assumption|].
  rewrite nth_overflow in H by exact Hge. congruence.
Qed.

Lemma nth_apart (r : list str) i j :
  NoDup r -> i <> j -> nth i r [] <> [] -> nth i r [] <> nth j r [].
Proof.
  intros Hnd Hij Hi E. apply Hij.
  assert (Hj : nth j r [] <> []) by congruence.
  assert (Li : i < length r).
  { destruct (Nat.lt_ge_cases i (length r)) as [|Hge]; [assumption|].
    rewrite nth_overflow in Hi by exact Hge. congruence. }
  assert (Lj : j < length r).
  { destruct (Nat.lt_ge_cases j (length r)) as [|Hge]; [assumption|].
    rewrite nth_overflow in Hj by exact Hge. congruence. }
  apply NoDup_ListNoDup in Hnd.
  exact (proj1 (List.NoDup_nth r []) Hnd i j Li Lj E).
Qed.

(** the slots after both passes: the numbers left over fill the slots
    that the labels left empty, in order *)
Lemma contact_fill_order text :
  let st1 := foldl (label_line U) (None, None, None) (contact_lines U text) in
  let r := List.filter nonempty (remaining U st1 (contact_lines U text)) in
  shown (parse_contact_field U text)
  = (Py.or_str (shown st1).1.1 (nth 0 r []),
     Py.or_str (shown st1).1.2 (nth (free (shown st1).1.1) r []),
     Py.or_str (shown st1).2 (nth (free (shown st1).1.1 + free (shown st1).1.2) r [])).
Proof.
  intros st1 r.
  assert (Hshape : shown (parse_contact_field U text)
                   = foldl fill_shown (shown st1) r).
  { unfold parse_contact_field. destruct text as [|c text].
    - reflexivity.
    - fold st1. rewrite shown_foldl, foldl_fill_filter. reflexivity. }
  assert (Hr : Forall (fun n => n <> []) r).
  { apply Forall_forall. intros x Hx. apply elem_of_filter in Hx as [_ Hx].
    destruct x; [discriminate|congruence]. }
  destruct (shown st1) as [[p w] a].
  rewrite (fill_order p w a r Hr) in Hshape. exact Hshape.
Qed.

(** the slots after both passes, with the numbers of the field all
    different *)
Lemma contact_slots text :
  NoDup (phone_numbers U text) ->
  let st1 := foldl (label_line U) (None, None, None) (contact_lines U text) in
  let r := List.filter nonempty (remaining U st1 (contact_lines U text)) in
  shown (parse_contact_field U text)
  = (Py.or_str (shown st1).1.1 (nth 0 r []),
     Py.or_str (shown st1).1.2 (nth (free (shown st1).1.1) r []),
     Py.or_str (shown st1).2 (nth (free (shown st1).1.1 + free (shown st1).1.2) r []))
  /\ (let '(p, w, a) := shown (parse_contact_field U text) in
      p <> [] -> w <> [] -> a <> [] -> p <> w /\ p <> a /\ w <> a).
Proof.
  intros Hnd st1 r.
  assert (Hshape : shown (parse_contact_field U text)
                   = foldl fill_shown (shown st1) r).
  { unfold parse_contact_field. destruct text as [|c text].
    - reflexivity.
    - fold st1. rewrite shown_foldl, foldl_fill_filter. reflexivity. }
  assert (Hr : Forall (fun n => n <> []) r).
  { apply Forall_forall. intros x Hx. apply elem_of_filter in Hx as [_ Hx].
    destruct x; [discriminate|congruence]. }
  assert (Hrnd : NoDup r).
  { unfold r. rewrite remaining_filter. apply nodup_filter, nodup_filter. exact Hnd. }
  pose proof (pass1_apart (contact_lines U text) (None, None, None) []) as Hap.
  cbn [app] in Hap. fold st1 in Hap.
  specialize (Hap ltac:(cbn; tauto) Hnd).
  destruct (shown st1) as [[p w] a] eqn:Est1.
  assert (Hleft : forall i, nth i r [] <> [] ->
                  (p <> [] -> nth i r [] <> p) /\ (w <> [] -> nth i r [] <> w)
                  /\ (a <> [] -> nth i r [] <> a)).
  { intros i Hi. apply nth_elem in Hi. apply elem_of_filter in Hi as [Hi _].
    rewrite remaining_filter in Hi. apply elem_of_filter in Hi as [_ Hi].
    apply negb_true_iff in Hi. exact (left_not_held st1 _ p w a Est1 Hi). }
  rewrite (fill_order p w a r Hr) in Hshape. cbn [fst snd].
  split; [exact Hshape|]. rewrite Hshape.
  cbn [held_apart] in Hap. destruct Hap as (_ & _ & _ & A1 & A2 & A3).
  pose proof (nth_apart r 0 1 Hrnd) as N01. pose proof (nth_apart r 0 2 Hrnd) as N02.
  pose proof (nth_apart r 1 2 Hrnd) as N12.
  pose proof (Hleft 0) as L0. pose proof (Hleft 1) as L1. pose proof (Hleft 2) as L2.
  unfold free.
  destruct p as [|cp p], w as [|cw w], a as [|ca a];
    cbn [Py.or_str nonempty Nat.add]; intros Hp Hw Ha; repeat split;
    first [ apply N01; [lia|assumption] | apply N02; [lia|assumption]
          | apply N12; [lia|assumption]
          | apply A1; assumption | apply A2; assumption | apply A3; assumption
          | apply not_eq_sym; first [apply L0 | apply L1 | apply L2]; assumption
          | first [apply L0 | apply L1 | apply L2]; assumption ].
Qed.

End Contacts.

(** [main] writes tables only for a file with both header rows and a data row *)
Lemma main_written U today src input_path cohort_year code t :
  main U today src input_path cohort_year = Return code (Some t) ->
  exists sh h d data,
    src = Readable (sh :: h :: d :: data)
    /\ within_limit (sh :: h :: d :: data) = true.
Proof.
  intros Hm. destruct src as [| |rows]; try discriminate Hm.
  destruct (within_limit rows) eqn:Hw;
    [|rewrite (main_over U today rows _ _ Hw) in Hm; discriminate Hm].
  destruct rows as [|sh [|h [|d data]]]; [| | | eauto 6].
  - unfold main, read_csv_with_multiline in Hm. cbn [next mbind result_bind] in Hm.
    revert Hm. destruct (year_total U today input_path cohort_year) as [y ->].
    discriminate.
  - rewrite main_single in Hm. discriminate Hm.
  - pose proof (main_ok U today sh h [] input_path cohort_year Hw) as H.
    cbv beta iota in H. rewrite H in Hm. discriminate Hm.
Qed.

(** ** Phone numbers in canonical form *)

Section PhonesMore.
Variable U : unicode_tables.

Local Abbreviation kept := (fun c => Py.is_digit U c || (c =? 43)%N).
Local Abbreviation dropped := (fun c => Py.is_space U c || (c =? 45)%N).

Lemma filter_id {A : Type} (p : A -> bool) l :
  Forall (fun x => p x = true) l -> List.filter p l = l.
Proof.
  induction 1 as [|x l Hx _ IH]; cbn [List.filter]; [reflexivity|].
  rewrite Hx, IH. reflexivity.
Qed.

Lemma filter_keeps {A : Type} (p q : A -> bool) l :
  Forall (fun x => q x = true) l -> Forall (fun x => q x = true) (List.filter p l).
Proof.
  induction 1 as [|x l Hx _ IH]; cbn [List.filter]; [constructor|].
  destruct (p x); [constructor|]; assumption.
Qed.

Lemma normalize_phone_shape raw :
  Forall (fun c => kept c = true) (normalize_phone U raw)
  /\ Forall (fun c => dropped c = false) (normalize_phone U raw)
  /\ normalize_phone U (normalize_phone U raw) = normalize_phone U raw.
Proof.
  rewrite !normalize_phone_filter.
  assert (H1 : Forall (fun c => kept c = true)
                 (List.filter kept (List.filter (fun c => negb (dropped c)) raw)))
    by apply filter_holds.
  assert (H2 : Forall (fun c => negb (dropped c) = true)
                 (List.filter kept (List.filter (fun c => negb (dropped c)) raw)))
    by apply filter_keeps, filter_holds.
  split; [exact H1|]. split.
  - eapply Forall_impl; [exact H2|]. cbn beta. intros c Hc.
    apply negb_true_iff in Hc. exact Hc.
  - rewrite (filter_id (fun c => negb (dropped c))) by exact H2.
    apply filter_id. exact H1.
Qed.

(** the two shapes of the number of a parent: group 1 of
    [RE_PARENT_CONTACT] in canonical form *)
Lemma normalize_single x :
  (x =? 43)%N || Py.is_digit U x = true ->
  normalize_phone U [x] = [x] /\ (x = 43%N \/ Py.is_digit U x = true)
  \/ normalize_phone U [x] = [].
Proof.
  intros Hx. rewrite normalize_phone_filter. cbn [List.filter].
  destruct (dropped x); cbn [negb List.filter]; [right; reflexivity|].
  left. rewrite orb_comm, Hx. split; [reflexivity|].
  apply orb_prop in Hx as [Hx|Hx]; [left; apply N.eqb_eq; exact Hx | right; exact Hx].
Qed.

Lemma parent_contact_canonical c g c1 g1 :
  Re.matches (RE_PARENT_CONTACT U) c g c1 g1 ->
  exists tok, Re.lookup_cap 1 g1 = Some tok /\ canonical U (normalize_phone U tok).
Proof.
  unfold RE_PARENT_CONTACT.
  change (Re.lit_ci U (u "Kontak"))
    with (Re.seqs (List.map (fun c => Re.Cls (Py.ci_eq U c)) (u "Kontak"))).
  change (Re.lit_ci U (u "nr"))
    with (Re.seqs (List.map (fun c => Re.Cls (Py.ci_eq U c)) (u "nr"))).
  cbv [Re.seqs Re.star Re.plus List.map u list_ascii_of_string].
  intros H. invm.
  repeat match goal with
         | H : Re.matches (Re.Rep (Re.Cls _) _ None) _ _ _ _ |- _ =>
             let t := fresh "run" in
             let Ha := fresh "Ha" in
             let Hb := fresh "Hb" in
             let Hr := fresh "Hr" in
             apply ReFacts.matches_rep_cls in H as (t & Ha & Hb & Hr & _ & ?);
             cbn [Re.ahead Re.behind] in Ha, Hb; subst
         end.
  cbn [Re.lookup_cap Nat.eqb].
  match goal with
  | Hb : Re.behind ?c' = rev ?body ++ ?x :: ?bh,
    Hr : Forall _ ?body,
    Hx : (?x =? 43)%N || Py.is_digit U ?x = true |- _ =>
      rewrite (ReFacts.span_taken _ c' (x :: body))
        by (rewrite Hb; cbn [Re.behind rev]; rewrite <- app_assoc; reflexivity);
      exists (x :: body); split; [reflexivity|];
      change (x :: body) with ([x] ++ body); rewrite normalize_app;
      pose proof (normalize_body U body Hr) as Hbody;
      destruct (normalize_single x Hx) as [[-> [-> | Hd]] | ->]
  end.
  - eexists. split; [exact Hbody | right; reflexivity].
  - eexists. split; [|left; reflexivity]. constructor; assumption.
  - eexists. split; [exact Hbody | left; reflexivity].
Qed.

Lemma first_number_canonical text ph rest :
  Re.findall (RE_PHONE U) text = ph :: rest -> canonical U (normalize_phone U ph).
Proof.
  intros E. apply (line_numbers_canonical U text).
  unfold line_numbers. rewrite E. left.
Qed.

End PhonesMore.

(** * The worked examples of the specification

    The model run on the examples of the specification, for every
    Unicode database and a fixed day for [date.today()]. *)

Example contact_example (U : unicode_tables) :
  parse_contact_field U
    (u "Kontak: 082 555 1212" ++ [10%N] ++ u "WhatsApp 083 111 2222")
  = (Some (u "0825551212"), Some (u "0831112222"), None).
Proof. vm_compute. reflexivity. Qed.

Example comment_example (U : unicode_tables) :
  split_comments U (u "Called 15/08 at 0930, will call back 0945")
  = (u "15/08 0930 0945", u "Called at , will call back").
Proof. vm_compute. reflexivity. Qed.

Example identity_example (U : unicode_tables) :
  parse_sa_id_fields U (Date 2024 6 15) (u "8001015009087")
  = Ok (IdFacts (u "1980-01-01") (u "44") (u "Male") true []).
Proof. vm_compute. reflexivity. Qed.

Example century_example (U : unicode_tables) :
  try_century U (Date 2024 6 15) (u "05") (u "01") (u "01") 2000
  = Some (Date 2005 1 1, 19%Z)
  /\ try_century U (Date 2024 6 15) (u "45") (u "01") (u "01") 2000 = None
  /\ try_century U (Date 2024 6 15) (u "45") (u "01") (u "01") 1900
     = Some (Date 1945 1 1, 79%Z).
Proof. vm_compute. repeat split; reflexivity. Qed.

Example identifiers_example (U : unicode_tables) :
  assign_ids U 2024 ∅ 0
    [(u "Jan", u "Smit"); (u "Jana", u "Smuts"); (u "", u "12"); (u "U", u "nk")]
  = [u "jasm2024"; u "jasm20242"; u "unk2024r3"; u "unk2024"].
Proof. vm_compute. reflexivity. Qed.

Example stars_example (U : unicode_tables) :
  stars_to_number U (u "4 of 5") = u "4"
  /\ stars_to_number U (u "pending") = []
  /\ stars_to_number U (u "N/A") = [].
Proof. vm_compute. repeat split; reflexivity. Qed.

(** the glyph is not an ASCII character: whether it counts as a star
    or as a digit is the database's to say *)
Example star_glyph_example :
  stars_to_number ascii_only [star_glyph; star_glyph; star_glyph] = u "3".
Proof. vm_compute. reflexivity. Qed.

(** * The claims of the specification *)

(** the runs behind the closed instances below, for every database *)
Lemma date_with_year_gives_no_token (U : unicode_tables) :
  split_comments U (u "15/08/2024") = ([], u "15/082024").
Proof. vm_compute. reflexivity. Qed.

Lemma repeated_number_fills_all_slots (U : unicode_tables) :
  parse_contact_field U
    (u "WhatsApp 082 111 2222" ++ [10%N] ++ u "Alt 082 111 2222"
     ++ [10%N] ++ u "Call 082 111 2222")
  = (Some (u "0821112222"), Some (u "0821112222"), Some (u "0821112222")).
Proof. vm_compute. reflexivity. Qed.

(** C1: the identifiers that [build_student_id] produces along a run,
    fed the shared registry (empty at the start) and the 0-based row
    ordinal, are pairwise distinct, whatever the (name, surname) pairs
    and the cohort year; a run on the same pairs with the same year
    gives the same identifiers in the same order; and the Student_ID
    column of the first table [main] writes is such a run. *)
Theorem student_ids_distinct (U : unicode_tables) :
  (forall year pairs, NoDup (assign_ids U year ∅ 0 pairs))
  /\ (forall year pairs year' pairs',
        year' = year -> pairs' = pairs ->
        assign_ids U year' ∅ 0 pairs' = assign_ids U year ∅ 0 pairs)
  /\ (forall today src input_path cohort_year code t,
        main U today src input_path cohort_year = Return code (Some t) ->
        exists year names,
          Forall2 (fun r sid => field (u "Student_ID") r = Some sid)
                  (t1_rows t) (assign_ids U year ∅ 0 names)).
Proof.
  split; [intros; apply assign_ids_nodup|]. split.
  - intros year pairs year' pairs' -> ->. reflexivity.
  - intros today src input_path cohort_year code t Hm.
    destruct (main_written _ _ _ _ _ _ _ Hm) as (sh & h & d & data & -> & Hw).
    destruct (main_ok U today sh h (d :: data) input_path cohort_year Hw)
      as (t' & Hm' & _ & _ & _ & Hids).
    rewrite Hm' in Hm. injection Hm as _ <-. exact Hids.
Qed.

(** C2, as amended: on a file that the reader reads to its end, with
    its two header rows and at least one data row, [main] returns 0 and
    has built three tables, each with one record per data row, the
    three records of a position carrying the same Student_ID and
    ID_Number.  On a file without any row, and on a file with just its
    two header rows, no table is built: [main] returns 0 at its guard.
    On a file with a cell longer than the reader admits it returns 4,
    and no table is built either. *)
Theorem main_tables_aligned (U : unicode_tables) (today : date)
    (super_header_raw header_raw : list str) (data : list (list str))
    (input_path : str) (cohort_year : option Z) :
  main U today (Readable []) input_path cohort_year = Return 0 None
  /\ if within_limit (super_header_raw :: header_raw :: data)
     then
       match data with
       | [] =>
           main U today (Readable [super_header_raw; header_raw]) input_path cohort_year
           = Return 0 None
       | _ :: _ =>
           exists t,
             main U today (Readable (super_header_raw :: header_raw :: data))
                  input_path cohort_year = Return 0 (Some t)
             /\ length (t1_rows t) = length data
             /\ length (t2_rows t) = length data
             /\ length (t3_rows t) = length data
             /\ Forall3 (fun r1 r2 r3 =>
                           exists sid idn,
                             keyed sid idn r1 /\ keyed sid idn r2 /\ keyed sid idn r3)
                        (t1_rows t) (t2_rows t) (t3_rows t)
       end
     else
       main U today (Readable (super_header_raw :: header_raw :: data))
            input_path cohort_year = Return 4 None.
Proof.
  split.
  - unfold main, read_csv_with_multiline. cbn [next].
    destruct (year_total U today input_path cohort_year) as [y ->]. reflexivity.
  - destruct (within_limit (super_header_raw :: header_raw :: data)) eqn:Hw;
      [|apply main_over; exact Hw].
    pose proof (main_ok U today super_header_raw header_raw data input_path
                  cohort_year Hw) as H.
    destruct data as [|d data]; [exact H|].
    destruct H as (t & Hm & H3 & Hlen & _). exists t.
    pose proof (Forall3_length_lm _ _ _ _ H3) as L12.
    pose proof (Forall3_length_lr _ _ _ _ H3) as L13.
    repeat split; [exact Hm | | | | exact H3]; congruence.
Qed.

(** C2, the claim as stated fails for zero rows: with the two header
    rows and no data row, [main] returns 0 at its guard (lines 340-342),
    before the three record sets exist; no record set of length zero is
    built or written.  It fails as well for a data row with a cell of
    131073 characters: the reader raises, [main] returns 4, and no
    record set is built for the one data row. *)
Lemma main_zero_rows_builds_nothing :
  let run :=
    main ascii_only (Date 2024 11 3)
         (Readable [[u "Personal"; u "Personal"]; [u "Name"; u "Surname"]])
         (u "2024 Cohort.csv") None in
  let long :=
    main ascii_only (Date 2024 11 3)
         (Readable [[u "Personal"; u "Personal"]; [u "Name"; u "Surname"];
                    [repeat 120%N (N.to_nat 131073); u "Smith"]])
         (u "2024 Cohort.csv") None in
  (run = Return 0 None
   /\ ~ (exists code t,
           run = Return code (Some t)
           /\ length (t1_rows t) = 0 /\ length (t2_rows t) = 0
           /\ length (t3_rows t) = 0))
  /\ long = Return 4 None.
Proof.
  cbv zeta. split.
  - rewrite (main_ok ascii_only (Date 2024 11 3) [u "Personal"; u "Personal"]
                     [u "Name"; u "Surname"] [] (u "2024 Cohort.csv") None eq_refl).
    split; [reflexivity|]. intros (code & t & E & _). discriminate E.
  - apply main_over. vm_compute. reflexivity.
Qed.

(** C3: [parse_sa_id_fields] returns on every input string: it never
    raises.  The empty string is invalid for the reason "empty"; a
    non-empty string whose decimal digits (the characters 0 to 9 left by
    line 226) are not exactly 13 is invalid for the reason "length"; and
    an invalid result has an empty date of birth, age and gender. *)
Theorem parse_sa_id_fields_never_raises (U : unicode_tables) (today : date)
    (id_value : str) :
  exists f,
    parse_sa_id_fields U today id_value = Ok f
    /\ (id_value = [] -> valid f = false /\ reason f = u "empty")
    /\ (id_value <> [] -> length (List.filter Py.ascii_digit id_value) <> 13 ->
        valid f = false /\ reason f = u "length")
    /\ (valid f = false -> dob_iso f = [] /\ age_str f = [] /\ gender f = []).
Proof. apply parse_sa_id_fields_cases. Qed.

(** C4: the detail header A, A, A_2 followed by three more columns is
    reconciled to A, A_2, A_2, R1, R2, R3: the second A takes the
    suffix _2 and meets the third column, so two of the columns before
    the last three carry the same name. *)
Theorem reconciled_header_repeats_a_name (U : unicode_tables) :
  read_csv_with_multiline U
    (Readable [[u "Group"];
               [u "A"; u "A"; u "A_2"; u "x"; u "y"; u "z"]])
  = Ok ([u "A"; u "A_2"; u "A_2"; u "R1"; u "R2"; u "R3"], [u "Group"], []).
Proof. vm_compute. reflexivity. Qed.

(** C5: with no row at all the function returns the empty plan and no
    rows; with exactly one row the second [next(reader)] of line 41
    raises [StopIteration], which nothing in the function catches
    ([main] turns it into exit code 4).  The one row that the reader
    itself refuses, for a cell that is too long, raises [csv.Error] at
    line 38 instead, with the same exit code. *)
Theorem read_one_row_raises (U : unicode_tables) (today : date) (row : list str)
    (input_path : str) (cohort_year : option Z) :
  read_csv_with_multiline U (Readable []) = Ok ([], [], [])
  /\ read_csv_with_multiline U (Readable [row])
     = Raise (if existsb too_long row then CsvError else StopIteration)
  /\ main U today (Readable [row]) input_path cohort_year = Return 4 None.
Proof.
  split; [reflexivity|]. split; [apply read_single | apply main_single].
Qed.

(** C6: on the cell 15/08/2024 the rule of line 177, written for a
    date that ends in a slash, takes the slash before the year as well;
    the date pattern, which on the cell as it stands finds the day and
    the month, no longer matches, and [split_comments] collects no
    token: the text keeps every digit of the date. *)
Theorem split_comments_date_with_year (U : unicode_tables) :
  split_comments U (u "15/08/2024") = ([], u "15/082024")
  /\ Re.sub (RE_TRAILING_SLASH U) (Re.group 1) (u "15/08/2024") = u "15/082024"
  /\ List.map (fun m => (Re.group 1 m, Re.group 2 m, Re.group 3 m))
              (Re.finditer (RE_DDMM U) (u "15/08/2024"))
     = [(u "15", u "08", u "2024")]
  /\ Re.finditer (RE_DDMM U) (u "15/082024") = [].
Proof.
  split; [apply date_with_year_gives_no_token|]. vm_compute. repeat split; reflexivity.
Qed.

(** C7: on the cell a1234 the token 1234 is collected but, standing
    against a letter, not removed; a second pass on the remaining text
    finds it again. *)
Theorem split_comments_second_pass_finds_token (U : unicode_tables) :
  split_comments U (u "a1234") = (u "1234", u "a1234")
  /\ fst (split_comments U (snd (split_comments U (u "a1234")))) = u "1234".
Proof. vm_compute. split; reflexivity. Qed.


(** a string that is not such a token: every plus sign is kept, not
    only a leading one *)
Lemma normalize_phone_keeps_inner_plus (U : unicode_tables) :
  normalize_phone U (u "082 555 1212 / +27 83 111 2222")
  = u "0825551212+27831112222".
Proof. vm_compute. reflexivity. Qed.

(** C9, as amended: in every contact field the numbers that no label
    placed fill the slots left empty by the labels in the order
    primary, WhatsApp, alternative; and when no number occurs twice in
    the field (the numbers taken in canonical form), the three slots,
    if all are populated, hold pairwise distinct values. *)
Theorem contact_slots_distinct (U : unicode_tables) (text : str) :
  let st1 := foldl (label_line U) (None, None, None) (contact_lines U text) in
  let r := List.filter nonempty (remaining U st1 (contact_lines U text)) in
  shown (parse_contact_field U text)
  = (Py.or_str (shown st1).1.1 (nth 0 r []),
     Py.or_str (shown st1).1.2 (nth (free (shown st1).1.1) r []),
     Py.or_str (shown st1).2 (nth (free (shown st1).1.1 + free (shown st1).1.2) r []))
  /\ (NoDup (phone_numbers U text) ->
      let '(p, w, a) := shown (parse_contact_field U text) in
      p <> [] -> w <> [] -> a <> [] -> p <> w /\ p <> a /\ w <> a).
Proof.
  split; [apply contact_fill_order|]. intros Hnd. apply (contact_slots U text Hnd).
Qed.

(** a field with one labelled and two unlabelled numbers, all different *)
Lemma contact_slots_distinct_witness :
  let text := u "083 111 3333" ++ [10%N] ++ u "WhatsApp: 082 111 2222"
              ++ [10%N] ++ u "084 111 4444" in
  NoDup (phone_numbers ascii_only text)
  /\ shown (parse_contact_field ascii_only text)
     = (u "0831113333", u "0821112222", u "0841114444")
  /\ (let '(p, w, a) := shown (parse_contact_field ascii_only text) in
      p <> [] -> w <> [] -> a <> [] -> p <> w /\ p <> a /\ w <> a).
Proof.
  intros text.
  assert (Hnd : NoDup (phone_numbers ascii_only text)).
  { apply (bool_decide_unpack _). vm_compute. exact I. }
  split; [exact Hnd|].
  destruct (contact_slots_distinct ascii_only text) as [E Hd].
  split; [rewrite E; vm_compute; reflexivity | exact (Hd Hnd)].
Defined.

(** C9, the claim as stated fails: the same number on a WhatsApp line,
    an alternative line and a call line fills all three slots, which
    are then populated and equal. *)
Lemma contact_slots_repeat_a_number :
  parse_contact_field ascii_only
    (u "WhatsApp 082 111 2222" ++ [10%N] ++ u "Alt 082 111 2222"
     ++ [10%N] ++ u "Call 082 111 2222")
  = (Some (u "0821112222"), Some (u "0821112222"), Some (u "0821112222")).
Proof. apply repeated_number_fills_all_slots. Qed.

(** C10: a cell without decimal digit and without star glyph gives the
    empty string, whatever else it holds; what [stars_to_number]
    returns, and so the field ro of every record of the third table, is
    a run of decimal digits or empty. *)
Theorem stars_to_number_digits_or_empty (U : unicode_tables) :
  (forall val,
     Forall (fun c => Py.is_digit U c = false /\ c <> star_glyph) val ->
     stars_to_number U val = [])
  /\ (forall val, Forall (fun c => Py.is_digit U c = true) (stars_to_number U val))
  /\ (forall today src input_path cohort_year code t,
        main U today src input_path cohort_year = Return code (Some t) ->
        Forall (fun r => exists v, field (u "ro") r = Some v
                                   /\ Forall (fun c => Py.is_digit U c = true) v)
               (t3_rows t)).
Proof.
  split; [exact (stars_to_number_blank U)|]. split; [exact (stars_to_number_shape U)|].
  intros today src input_path cohort_year code t Hm.
  destruct (main_written _ _ _ _ _ _ _ Hm) as (sh & h & d & data & -> & Hw).
  destruct (main_ok U today sh h (d :: data) input_path cohort_year Hw)
    as (t' & Hm' & _ & _ & Hro & _).
  rewrite Hm' in Hm. injection Hm as _ <-. exact Hro.
Qed.

(** * The rest of the program *)

(** ** Words and spaces *)

Section Words.
Variable U : unicode_tables.

Local Abbreviation is_space := (Py.is_space U).
Local Abbreviation lstrip := (Py.lstrip U).
Local Abbreviation rstrip := (Py.rstrip U).
Local Abbreviation strip := (Py.strip U).
Local Abbreviation split := (Py.split U).
Local Abbreviation tidy ws := (Py.join (u " ") ws).

Lemma space_is_space : is_space 32 = true.
Proof. reflexivity. Qed.

Lemma lstrip_snoc l c :
  lstrip (l ++ [c])
  = match lstrip l with
    | [] => if is_space c then [] else [c]
    | r => r ++ [c]
    end.
Proof.
  induction l as [|x l IH]; cbn [app Py.lstrip]; [reflexivity|].
  destruct (is_space x); [exact IH | reflexivity].
Qed.

Lemma rstrip_cons c s :
  rstrip (c :: s)
  = match rstrip s with
    | [] => if is_space c then [] else [c]
    | r => c :: r
    end.
Proof.
  unfold Py.rstrip. cbn [rev]. rewrite lstrip_snoc.
  destruct (Py.lstrip U (rev s)) as [|x r] eqn:E.
  - cbn [rev]. destruct (is_space c); reflexivity.
  - rewrite rev_app_distr. cbn [rev app].
    destruct (rev r ++ [x]) as [|y t] eqn:E'; [|reflexivity].
    apply app_eq_nil in E' as [_ E']. discriminate.
Qed.

Lemma rstrip_word w x :
  Forall (fun c => is_space c = false) w -> rstrip (w ++ x) = w ++ rstrip x.
Proof.
  induction 1 as [|c w Hc _ IH]; [reflexivity|].
  cbn [app]. rewrite rstrip_cons, IH.
  destruct (w ++ Py.rstrip U x) eqn:E; [rewrite Hc|]; reflexivity.
Qed.

(** the equations of [split] *)
Lemma split_space c s : is_space c = true -> split (c :: s) = split s.
Proof. intros H. unfold Py.split. cbn [Py.split_go]. rewrite H. reflexivity. Qed.

Lemma split_go_run w : forall cur rest,
  Forall (fun c => is_space c = false) w ->
  Py.split_go U cur (w ++ rest) = Py.split_go U (rev w ++ cur) rest.
Proof.
  induction w as [|c w IH]; intros cur rest H; [reflexivity|].
  inversion H as [|? ? Hc Hw]; subst. cbn [app Py.split_go rev]. rewrite Hc.
  rewrite IH by exact Hw. rewrite <- app_assoc. reflexivity.
Qed.

Lemma split_word w rest :
  word U w -> boundary U rest -> split (w ++ rest) = w :: split rest.
Proof.
  intros [Hne Hw] Hb. unfold Py.split. rewrite split_go_run by exact Hw.
  rewrite app_nil_r.
  assert (Hr : rev w <> []).
  { intros E. apply Hne. rewrite <- (rev_involutive w), E. reflexivity. }
  destruct rest as [|c rest]; cbn [Py.split_go].
  - destruct (rev w) eqn:E; [congruence|]. rewrite <- E, rev_involutive. reflexivity.
  - cbn [boundary] in Hb. rewrite Hb.
    destruct (rev w) eqn:E; [congruence|]. rewrite <- E, rev_involutive. reflexivity.
Qed.

(** a text opens with a run of characters that are no spaces, up to a boundary *)
Lemma run_then_boundary s :
  exists w rest, s = w ++ rest /\ Forall (fun c => is_space c = false) w /\ boundary U rest
                 /\ length rest <= length s.
Proof.
  induction s as [|c s (w & rest & -> & Hw & Hb & Hl)].
  - exists [], []. repeat split; auto.
  - destruct (is_space c) eqn:Hc.
    + exists [], (c :: w ++ rest). repeat split; auto.
    + exists (c :: w), rest. repeat split; auto. cbn. lia.
Qed.

(** induction on a text read as spaces and words *)
Lemma words_ind (P : str -> Prop) :
  P [] ->
  (forall c s, is_space c = true -> P s -> P (c :: s)) ->
  (forall w rest, word U w -> boundary U rest -> P rest -> P (w ++ rest)) ->
  forall s, P s.
Proof.
  intros H0 Hs Hw s.
  assert (H : forall n s, length s <= n -> P s); [|apply (H (length s)); lia].
  clear s. induction n as [|n IH]; intros [|c s] Hlen; cbn in Hlen; try exact H0; [lia|].
  destruct (is_space c) eqn:Hc.
  - apply Hs; [exact Hc|]. apply IH. lia.
  - destruct (run_then_boundary s) as (w & rest & -> & Hrun & Hb & Hl).
    change (c :: w ++ rest) with ((c :: w) ++ rest). apply Hw.
    + split; [discriminate | constructor; assumption].
    + exact Hb.
    + apply IH. lia.
Qed.

(** [split] gives words *)
Lemma split_words s : Forall (word U) (split s).
Proof.
  induction s as [| c s Hc IH | w rest Hw Hb IH] using words_ind.
  - constructor.
  - rewrite split_space by exact Hc. exact IH.
  - rewrite split_word by assumption. constructor; assumption.
Qed.

Lemma tidy_cons w ws :
  tidy (w :: ws) = match ws with [] => w | _ => w ++ 32%N :: tidy ws end.
Proof. destruct ws; reflexivity. Qed.

Lemma tidy_nil_inv ws : Forall (word U) ws -> tidy ws = [] -> ws = [].
Proof.
  intros H E. destruct H as [|w ws [Hne _] _]; [reflexivity|].
  rewrite tidy_cons in E. destruct ws; [congruence|].
  apply app_eq_nil in E as [E _]. congruence.
Qed.

Lemma tidy_boundary ws : Forall (word U) ws ->
  match tidy ws with [] => ws = [] | c :: _ => is_space c = false end.
Proof.
  intros H. destruct (tidy ws) as [|c t] eqn:E; [apply tidy_nil_inv; assumption|].
  destruct H as [|w ws' [Hne Hw] _]; [discriminate|].
  rewrite tidy_cons in E. destruct Hw as [|x w Hx _]; [congruence|].
  destruct ws'; cbn [app] in E; injection E as <- _; exact Hx.
Qed.

(** the words of words joined by single spaces are those words *)
Lemma split_tidy ws : Forall (word U) ws -> split (tidy ws) = ws.
Proof.
  induction 1 as [|w ws Hw _ IH]; [reflexivity|].
  rewrite tidy_cons. destruct ws as [|w' ws'].
  - rewrite <- (app_nil_r w) at 1. rewrite split_word; [reflexivity | exact Hw | exact I].
  - rewrite split_word; [|exact Hw | exact space_is_space].
    rewrite split_space by exact space_is_space. rewrite IH. reflexivity.
Qed.

Lemma lstrip_tidy ws : Forall (word U) ws -> lstrip (tidy ws) = tidy ws.
Proof.
  intros H. pose proof (tidy_boundary ws H) as Hb.
  destruct (tidy ws) as [|c t]; [reflexivity|]. cbn [Py.lstrip]. rewrite Hb. reflexivity.
Qed.

Lemma rstrip_tidy ws : Forall (word U) ws -> rstrip (tidy ws) = tidy ws.
Proof.
  induction 1 as [|w ws [Hne Hw] Hws IH]; [reflexivity|].
  rewrite tidy_cons. destruct ws as [|w' ws'].
  - rewrite <- (app_nil_r w) at 1. rewrite rstrip_word by exact Hw.
    rewrite app_nil_r. reflexivity.
  - rewrite rstrip_word by exact Hw. f_equal. rewrite rstrip_cons, IH.
    destruct (tidy (w' :: ws')) eqn:E; [|reflexivity].
    apply tidy_nil_inv in E; [discriminate | exact Hws].
Qed.

Lemma strip_tidy ws : Forall (word U) ws -> strip (tidy ws) = tidy ws.
Proof.
  intros H. unfold Py.strip. rewrite lstrip_tidy by exact H. apply rstrip_tidy, H.
Qed.

(** squeezing the runs of spaces *)
Section Squeeze.
Variable p : char -> bool.
Hypothesis p_space : forall c, p c = true -> is_space c = true.

Lemma split_go_squeeze s : forall cur inrun,
  (inrun = true -> cur = []) ->
  Py.split_go U cur (squeeze p inrun s) = Py.split_go U cur s.
Proof.
  induction s as [|c s IH]; intros cur inrun Hin; [reflexivity|].
  cbn [squeeze]. destruct (p c) eqn:Hp.
  - pose proof (p_space c Hp) as Hc. cbn [Py.split_go]. rewrite Hc.
    destruct inrun.
    + rewrite (Hin eq_refl). apply IH. reflexivity.
    + cbn [Py.split_go]. rewrite space_is_space.
      rewrite (IH [] true) by reflexivity. reflexivity.
  - cbn [Py.split_go]. destruct (is_space c); rewrite IH by discriminate; reflexivity.
Qed.

Lemma split_squeeze s : split (squeeze p false s) = split s.
Proof. apply split_go_squeeze. discriminate. Qed.

End Squeeze.

Local Abbreviation squash := (squeeze is_space).

Lemma squash_run w rest b :
  word U w -> squash b (w ++ rest) = w ++ squash false rest.
Proof.
  intros [Hne Hw]. revert b. induction Hw as [|c w Hc Hw IH]; intros b; [congruence|].
  cbn [app squeeze]. rewrite Hc. f_equal.
  destruct w as [|c' w']; [reflexivity|]. apply IH. discriminate.
Qed.

Lemma lstrip_squash s : lstrip (squash false s) = squash true s.
Proof.
  assert (H : lstrip (squash true s) = squash true s).
  { induction s as [|c s IH]; [reflexivity|]. cbn [squeeze].
    destruct (is_space c) eqn:Hc; [exact IH|]. cbn [Py.lstrip]. rewrite Hc. reflexivity. }
  destruct s as [|c s]; [reflexivity|]. cbn [squeeze] in *.
  destruct (is_space c) eqn:Hc; [|exact H].
  cbn [Py.lstrip]. rewrite space_is_space. exact H.
Qed.

Lemma rstrip_squash s : rstrip (squash true s) = tidy (split s).
Proof.
  induction s as [| c s Hc IH | w rest Hw Hb IH] using words_ind.
  - reflexivity.
  - cbn [squeeze]. rewrite Hc, split_space by exact Hc. exact IH.
  - rewrite squash_run, split_word by assumption.
    rewrite rstrip_word by apply Hw. rewrite tidy_cons.
    destruct rest as [|c rest].
    + cbn. rewrite app_nil_r. reflexivity.
    + cbn [boundary] in Hb. cbn [squeeze] in IH |- *. rewrite Hb in IH |- *.
      rewrite rstrip_cons, IH, space_is_space.
      pose proof (split_words (c :: rest)) as Hws.
      destruct (Py.split U (c :: rest)) as [|w' ws'] eqn:E; [rewrite app_nil_r; reflexivity|].
      destruct (tidy (w' :: ws')) eqn:E'; [|reflexivity].
      apply tidy_nil_inv in E'; [discriminate | exact Hws].
Qed.

(** line 195 and the like: runs of spaces squeezed and the ends
    trimmed leave the words, joined by single spaces *)
Lemma strip_squash s : strip (squash false s) = tidy (split s).
Proof. unfold Py.strip. rewrite lstrip_squash. apply rstrip_squash. Qed.

End Words.

(** ** A repeated character class is greedy *)

Module GreedyFacts.
Import Re.

Section Class.
Variable p : char -> bool.

Local Abbreviation run_ends := (run_ends p).

Lemma run_then_rest s :
  exists run rest, s = run ++ rest /\ Forall (fun c => p c = true) run /\ run_ends rest.
Proof.
  induction s as [|c s (run & rest & -> & Hrun & Hrest)].
  - exists [], []. repeat split; auto.
  - destruct (p c) eqn:Hc.
    + exists (c :: run), rest. repeat split; auto.
    + exists [], (c :: run ++ rest). repeat split; auto.
Qed.

Lemma rep_cls_greedy {A : Type} (f : cursor -> captures -> A)
    (body : cursor -> captures -> (cursor -> captures -> option A) -> option A)
    lo run : forall rest bh i fuel g,
  (forall c g k, body c g k = exec (Cls p) c g k) ->
  Forall (fun c => p c = true) run -> run_ends rest ->
  length (run ++ rest) < fuel ->
  rep_loop body lo None (fun c g => Some (f c g)) fuel i (Cursor bh (run ++ rest)) g
  = if lo <=? i + length run then Some (f (Cursor (rev run ++ bh) rest) g) else None.
Proof.
  induction run as [|x run IH]; intros rest bh i fuel g Hbody Hrun Hrest Hfuel;
    (destruct fuel as [|fuel]; [cbn in Hfuel; lia|]); cbn [rep_loop below app];
    rewrite Hbody; cbn [exec ahead behind].
  - rewrite Nat.add_0_r. cbn [length rev app].
    destruct rest as [|c rest]; [reflexivity|]. cbn in Hrest. rewrite Hrest. reflexivity.
  - inversion Hrun as [|? ? Hx Hrun']; subst. rewrite Hx.
    replace (length (run ++ rest) <? length (x :: run ++ rest)) with true
      by (symmetry; apply Nat.ltb_lt; cbn; lia).
    cbn [orb]. rewrite (IH rest (x :: bh) (S i) fuel g Hbody Hrun' Hrest) by (cbn in Hfuel; lia).
    cbn [length rev]. rewrite <- app_assoc. cbn [app].
    replace (S i + length run) with (i + S (length run)) by lia.
    destruct (Nat.leb_spec lo (i + S (length run))) as [_|Hlt]; [reflexivity|].
    destruct (Nat.leb_spec lo i); [lia | reflexivity].
Qed.

Lemma match_at_plus run rest bh :
  Forall (fun c => p c = true) run -> run_ends rest ->
  match_at (plus (Cls p)) (Cursor bh (run ++ rest))
  = match run with
    | [] => None
    | _ => Some (Found (Cursor bh (run ++ rest)) (Cursor (rev run ++ bh) rest) [])
    end.
Proof.
  intros Hrun Hrest. unfold match_at, plus. cbn [exec ahead].
  rewrite (rep_cls_greedy (fun c' g => Found (Cursor bh (run ++ rest)) c' g))
    by (auto; lia).
  cbn [Nat.add].
  destruct run; reflexivity.
Qed.

(** the leftmost run of the class, taken whole *)
Lemma scan_plus : forall ah bh,
  match scan (plus (Cls p)) bh ah with
  | None => Forall (fun c => p c = false) ah
  | Some m =>
      exists pre run post,
        ah = pre ++ run ++ post
        /\ Forall (fun c => p c = false) pre
        /\ Forall (fun c => p c = true) run /\ run <> [] /\ run_ends post
        /\ m = Found (Cursor (rev pre ++ bh) (run ++ post))
                     (Cursor (rev run ++ rev pre ++ bh) post) []
  end.
Proof.
  induction ah as [|x ah IH]; intros bh.
  - cbn. constructor.
  - cbn [scan].
    destruct (run_then_rest (x :: ah)) as (run & rest & E & Hrun & Hrest).
    pose proof (match_at_plus run rest bh Hrun Hrest) as Hm.
    rewrite <- E in Hm. rewrite Hm. clear Hm.
    destruct run as [|y run].
    + cbn [app] in E. subst rest. cbn in Hrest.
      specialize (IH (x :: bh)). destruct (scan (plus (Cls p)) (x :: bh) ah) as [m|].
      * destruct IH as (pre & run & post & -> & Hpre & Hrun' & Hne & Hpost & ->).
        exists (x :: pre), run, post. cbn [rev app]. rewrite <- !app_assoc. cbn [app].
        repeat split; auto.
      * constructor; assumption.
    + exists [], (y :: run), rest. cbn [rev app] in *.
      repeat split; auto; first [discriminate | rewrite E; reflexivity].
Qed.

Lemma squeeze_outside s b :
  Forall (fun c => p c = false) s -> squeeze p b s = s.
Proof.
  intros H. revert b. induction H as [|c s Hc _ IH]; intros b; [reflexivity|].
  cbn [squeeze]. rewrite Hc, IH. reflexivity.
Qed.

Lemma squeeze_app_outside pre s b :
  Forall (fun c => p c = false) pre -> pre <> [] ->
  squeeze p b (pre ++ s) = pre ++ squeeze p false s.
Proof.
  intros H. revert b. induction H as [|c t Hc _ IH]; intros b Hne; [congruence|].
  cbn [app squeeze]. rewrite Hc. f_equal.
  destruct t as [|c' t']; [reflexivity|]. apply IH. discriminate.
Qed.

Lemma squeeze_inside run post :
  Forall (fun c => p c = true) run -> run_ends post ->
  squeeze p true (run ++ post) = squeeze p false post.
Proof.
  intros H Hpost. induction H as [|c t Hc _ IH].
  - destruct post as [|c post]; [reflexivity|]. cbn in Hpost. cbn [app squeeze].
    rewrite Hpost. reflexivity.
  - cbn [app squeeze]. rewrite Hc. exact IH.
Qed.

Lemma squeeze_run pre run post :
  Forall (fun c => p c = false) pre ->
  Forall (fun c => p c = true) run -> run <> [] -> run_ends post ->
  squeeze p false (pre ++ run ++ post) = pre ++ 32%N :: squeeze p false post.
Proof.
  intros Hpre Hrun Hne Hpost.
  assert (H : squeeze p false (run ++ post) = 32%N :: squeeze p false post).
  { destruct Hrun as [|c t Hc Ht]; [congruence|]. cbn [app squeeze]. rewrite Hc.
    f_equal. apply squeeze_inside; assumption. }
  destruct pre as [|c pre]; [exact H|].
  rewrite squeeze_app_outside by (auto; discriminate). rewrite H. reflexivity.
Qed.

Lemma sub_go_plus : forall fuel ah bh,
  length ah < fuel ->
  sub_go fuel (plus (Cls p)) (fun _ => [32%N]) (Cursor bh ah) = squeeze p false ah.
Proof.
  induction fuel as [|fuel IH]; intros ah bh Hlen; [lia|].
  cbn [sub_go ahead behind].
  pose proof (scan_plus ah bh) as Hs.
  destruct (scan (plus (Cls p)) bh ah) as [m|].
  - destruct Hs as (pre & run & post & -> & Hpre & Hrun & Hne & Hpost & ->).
    cbn [m_start m_end ahead behind].
    rewrite (ReFacts.span_taken _ _ pre) by reflexivity.
    assert (Hlt : length post < length (run ++ post)).
    { rewrite length_app. destruct run; [congruence | cbn; lia]. }
    replace (length post <? length (run ++ post)) with true
      by (symmetry; apply Nat.ltb_lt; exact Hlt).
    rewrite IH by (rewrite length_app in Hlen; lia).
    rewrite squeeze_run by assumption. reflexivity.
  - rewrite squeeze_outside by exact Hs. reflexivity.
Qed.

(** [re.sub] of the runs of a class by one space *)
Lemma sub_plus s :
  sub (plus (Cls p)) (fun _ => [32%N]) s = squeeze p false s.
Proof. apply sub_go_plus. lia. Qed.

End Class.

(** ** A pattern that needs a character the text does not have *)

Section Absent.
Variable r : regex.
Variable q : char -> bool.
Hypothesis needs : forall c g c1 g1,
  matches r c g c1 g1 -> exists x, x ∈ ahead c /\ q x = true.

Lemma scan_absent ah bh :
  Forall (fun c => q c = false) ah -> scan r bh ah = None.
Proof.
  intros Hah. destruct (scan r bh ah) as [m|] eqn:Hs; [exfalso|reflexivity].
  apply ReFacts.scan_sound in Hs as (pre & E & _ & Hm).
  apply needs in Hm as (x & Hx & Hq).
  rewrite Forall_forall in Hah. rewrite (Hah x) in Hq; [discriminate|].
  rewrite E. apply elem_of_app. right. exact Hx.
Qed.

Lemma finditer_absent s :
  Forall (fun c => q c = false) s -> finditer r s = [].
Proof.
  intros H. unfold finditer. cbn [iter ahead behind]. rewrite scan_absent by exact H.
  reflexivity.
Qed.

Lemma sub_absent repl s :
  Forall (fun c => q c = false) s -> sub r repl s = s.
Proof.
  intros H. unfold sub. cbn [sub_go ahead behind]. rewrite scan_absent by exact H.
  reflexivity.
Qed.

End Absent.

End GreedyFacts.

(** ** Cleaned cells and comment texts *)

Section Cleaning.
Variable U : unicode_tables.

Local Abbreviation tidy ws := (Py.join (u " ") ws).

Lemma replace_char_absent a b s :
  Forall (fun c => c <> a) s -> Py.replace_char a b s = s.
Proof.
  induction 1 as [|c s Hc _ IH]; [reflexivity|].
  unfold Py.replace_char in *. cbn [flat_map].
  destruct (N.eqb_spec c a); [congruence|]. rewrite IH. reflexivity.
Qed.

(** words joined by single spaces hold no line break *)
Lemma tidy_one_line ws :
  Forall (word U) ws -> Forall (fun c => c <> 13%N) (tidy ws) /\ Forall (fun c => c <> 10%N) (tidy ws).
Proof.
  assert (Hw : forall w, Forall (fun c => Py.is_space U c = false) w ->
                 Forall (fun c => c <> 13%N) w /\ Forall (fun c => c <> 10%N) w).
  { induction 1 as [|c w Hc _ [IH1 IH2]]; [split; constructor|].
    split; constructor; auto; intros ->; discriminate Hc. }
  induction 1 as [|w ws [_ Hwd] _ [IH1 IH2]]; [split; constructor|].
  rewrite tidy_cons. destruct (Hw w Hwd) as [H1 H2]. destruct ws as [|w' ws']; [auto|].
  split; apply Forall_app; split; auto; constructor; auto; discriminate.
Qed.

Lemma clean_cell_tidy ws : Forall (word U) ws -> clean_cell U (tidy ws) = tidy ws.
Proof.
  intros H. unfold clean_cell. destruct (tidy_one_line ws H) as [H13 H10].
  rewrite (replace_char_absent 13) by exact H13.
  rewrite (replace_char_absent 10) by exact H10.
  rewrite strip_tidy, split_tidy by exact H. reflexivity.
Qed.

Lemma sub_spaces x :
  Re.sub (Re.plus (Re.space U)) (fun _ => u " ") x = squeeze (Py.is_space U) false x.
Proof. apply GreedyFacts.sub_plus. Qed.

Lemma split_comments_text text :
  exists x, snd (split_comments U text) = tidy (Py.split U x).
Proof.
  destruct text as [|c text]; [exists []; reflexivity|].
  unfold split_comments. cbn [snd]. rewrite sub_spaces, strip_squash. eauto.
Qed.









(** the three patterns of the splitter need a digit *)
Ltac needs_digit :=
  intros c g c1 g1 H; invm;
  repeat match goal with
         | H : Re.matches (Re.NotBehind _) _ _ _ _ |- _ => inv H
         end;
  cbn [Re.ahead];
  match goal with
  | Hx : Py.is_digit U ?x = true |- exists y, y ∈ ?x :: _ /\ _ =>
      exists x; split; [left | exact Hx]
  end.

Lemma trailing_slash_needs_digit c g c1 g1 :
  Re.matches (RE_TRAILING_SLASH U) c g c1 g1 ->
  exists x, x ∈ Re.ahead c /\ Py.is_digit U x = true.
Proof.
  unfold RE_TRAILING_SLASH. cbv [Re.seqs Re.times Re.chr Re.wordb Re.digit].
  revert c g c1 g1. needs_digit.
Qed.

Lemma ddmm_needs_digit c g c1 g1 :
  Re.matches (RE_DDMM U) c g c1 g1 ->
  exists x, x ∈ Re.ahead c /\ Py.is_digit U x = true.
Proof.
  unfold RE_DDMM. cbv [Re.seqs Re.times Re.opt Re.chr Re.wordb Re.digit].
  revert c g c1 g1. needs_digit.
Qed.

Lemma hhmm_needs_digit c g c1 g1 :
  Re.matches (RE_HHMM U) c g c1 g1 ->
  exists x, x ∈ Re.ahead c /\ Py.is_digit U x = true.
Proof.
  unfold RE_HHMM. cbv [Re.seqs Re.times Re.digit].
  revert c g c1 g1. needs_digit.
Qed.

Lemma line_break_is_space c :
  ((c =? 13)%N || (c =? 10)%N) = true -> Py.is_space U c = true.
Proof.
  intros H. apply orb_prop in H as [H|H]; apply N.eqb_eq in H; subst; reflexivity.
Qed.

Lemma split_comments_no_digit text :
  Forall (fun c => Py.is_digit U c = false) text ->
  split_comments U text = ([], tidy (Py.split U text)).
Proof.
  intros H. destruct text as [|c text]; [reflexivity|].
  unfold split_comments, comment_tokens.
  rewrite (GreedyFacts.sub_absent _ _ trailing_slash_needs_digit) by exact H.
  rewrite (GreedyFacts.finditer_absent _ _ ddmm_needs_digit) by exact H.
  rewrite (GreedyFacts.finditer_absent _ _ hhmm_needs_digit) by exact H.
  cbn [foldl]. rewrite sub_spaces, strip_squash.
  change (u " ") with [32%N].
  rewrite GreedyFacts.sub_plus, (split_squeeze U _ line_break_is_space).
  reflexivity.
Qed.

End Cleaning.

(** ** Dictionaries built pair by pair *)

Section Dicts.
Context {V : Type}.

Lemma dict_of_snoc (pairs : list (str * V)) k v :
  dict_of (pairs ++ [(k, v)]) = <[k := v]> (dict_of pairs).
Proof. unfold dict_of. rewrite foldl_snoc. reflexivity. Qed.

Lemma dict_of_rev (pairs : list (str * V)) :
  dict_of pairs = list_to_map (reverse pairs).
Proof.
  induction pairs as [|[k v] pairs IH] using rev_ind; [reflexivity|].
  rewrite dict_of_snoc, reverse_snoc, IH. reflexivity.
Qed.

Lemma dict_of_elem (pairs : list (str * V)) k v :
  dict_of pairs !! k = Some v -> (k, v) ∈ pairs.
Proof.
  rewrite dict_of_rev. intros H. apply elem_of_list_to_map_2 in H.
  apply elem_of_reverse. exact H.
Qed.

Lemma dict_of_none (pairs : list (str * V)) k :
  dict_of pairs !! k = None <-> k ∉ pairs.*1.
Proof.
  rewrite dict_of_rev, <- not_elem_of_list_to_map, fmap_reverse, elem_of_reverse.
  reflexivity.
Qed.

Lemma dict_of_dom (pairs : list (str * V)) :
  dom (dict_of pairs) = list_to_set pairs.*1.
Proof.
  rewrite dict_of_rev, dom_list_to_map_L, fmap_reverse.
  apply set_eq. intros x. rewrite !elem_of_list_to_set, elem_of_reverse. reflexivity.
Qed.

(** the pair that counts is the last one with the key *)
Lemma dict_of_last (pairs : list (str * V)) : forall i k v,
  pairs !! i = Some (k, v) ->
  (forall j, i < j -> pairs.*1 !! j <> Some k) ->
  dict_of pairs !! k = Some v.
Proof.
  induction pairs as [|[k' v'] pairs IH] using rev_ind; intros i k v Hi Hlast.
  - discriminate.
  - rewrite dict_of_snoc.
    destruct (Nat.lt_ge_cases i (length pairs)) as [Hlt|Hge].
    + rewrite lookup_app_l in Hi by exact Hlt.
      assert (Hne : k' <> k).
      { intros ->. apply (Hlast (length pairs) Hlt).
        rewrite fmap_app, lookup_app_r by (rewrite length_fmap; lia).
        rewrite length_fmap, Nat.sub_diag. reflexivity. }
      rewrite lookup_insert_ne by exact Hne. apply (IH i); [exact Hi|].
      intros j Hj Hk. apply (Hlast j Hj). rewrite fmap_app.
      apply lookup_app_l_Some. exact Hk.
    + rewrite lookup_app_r in Hi by exact Hge.
      destruct (i - length pairs) as [|n] eqn:E; [|discriminate].
      cbn in Hi. injection Hi as -> ->. apply lookup_insert_eq.
Qed.

End Dicts.

(** ** The header reconciler and the rows *)

Section Reader.
Variable U : unicode_tables.

Lemma make_unique_length names : forall seen,
  length (make_unique seen names) = length names.
Proof.
  induction names as [|h names IH]; intros seen; cbn [make_unique length]; [reflexivity|].
  rewrite IH. reflexivity.
Qed.

Lemma header_cells_length header_raw cleaned_super : forall i,
  length (header_cells U i header_raw cleaned_super) = length header_raw.
Proof.
  induction header_raw as [|h rest IH]; intros i; cbn [header_cells length]; [reflexivity|].
  rewrite IH. reflexivity.
Qed.

Lemma reconcile_shape cleaned_header :
  length (reconcile cleaned_header) = length cleaned_header
  /\ drop (length cleaned_header - 3) (reconcile cleaned_header)
     = if 3 <=? length cleaned_header then [u "R1"; u "R2"; u "R3"]
       else reconcile cleaned_header.
Proof.
  unfold reconcile. set (n := length cleaned_header).
  set (named := make_unique ∅ (take (n - 3) cleaned_header) ++ drop (n - 3) cleaned_header).
  assert (Hn : length named = n).
  { unfold named. rewrite length_app, make_unique_length, <- length_app, take_drop.
    reflexivity. }
  destruct (Nat.leb_spec 3 n) as [Hle|Hlt].
  - assert (Ht : length (take (n - 3) named) = n - 3) by (rewrite length_take; lia).
    split.
    + rewrite length_app, Ht. cbn. lia.
    + rewrite <- Ht at 1. apply drop_app_length.
  - split; [exact Hn|]. replace (n - 3) with 0 by lia. reflexivity.
Qed.

Lemma repeat_lookup {A : Type} (x : A) n i : i < n -> repeat x n !! i = Some x.
Proof.
  revert i. induction n as [|n IH]; intros [|i] H; cbn; try lia; [reflexivity|].
  apply IH. lia.
Qed.

Lemma fit_length n row : length (fit n row) = n.
Proof.
  unfold fit. rewrite length_take, length_app, repeat_length. lia.
Qed.

Lemma fit_lookup n row i :
  i < n -> fit n row !! i = Some (default [] (row !! i)).
Proof.
  intros Hi. unfold fit. rewrite lookup_take_lt by exact Hi.
  destruct (Nat.lt_ge_cases i (length row)) as [Hlt|Hge].
  - rewrite lookup_app_l by exact Hlt.
    destruct (lookup_lt_is_Some_2 row i Hlt) as [x ->]. reflexivity.
  - rewrite lookup_app_r by exact Hge.
    rewrite repeat_lookup by lia.
    rewrite (lookup_ge_None_2 row i) by exact Hge. reflexivity.
Qed.

Lemma row_dict_dom header row :
  dom (row_dict header row) = list_to_set header.
Proof.
  unfold row_dict. rewrite dict_of_dom, fst_zip; [reflexivity|].
  rewrite fit_length. reflexivity.
Qed.

Lemma row_dict_last header row i h :
  header !! i = Some h -> (forall j, i < j -> header !! j <> Some h) ->
  row_dict header row !! h = Some (default [] (row !! i)).
Proof.
  intros Hi Hlast. unfold row_dict. apply (dict_of_last _ i).
  - apply lookup_zip_Some. split; [exact Hi|].
    apply fit_lookup. apply lookup_lt_Some in Hi. exact Hi.
  - rewrite fst_zip by (rewrite fit_length; reflexivity). exact Hlast.
Qed.

End Reader.

(** ** The closed form of a counter of occurrences *)

Lemma occurrences_cons x y l :
  occurrences x (y :: l) = (if Py.eqb x y then 1 else 0) + occurrences x l.
Proof. unfold occurrences. cbn [List.filter]. destruct (Py.eqb x y); reflexivity. Qed.

Lemma count_after_insert (seen : gmap str nat) k c k' :
  default 0 (<[k := default 0 (seen !! k) + 1]> seen !! k') + c
  = default 0 (seen !! k') + ((if Py.eqb k' k then 1 else 0) + c).
Proof.
  destruct (Py.eqb k' k) eqn:E.
  - apply PyFacts.py_eqb_eq in E. subst k'. rewrite lookup_insert_eq. cbn. lia.
  - rewrite lookup_insert_ne; [lia|]. intros ->.
    assert (Py.eqb k' k' = true) by (apply PyFacts.py_eqb_eq; reflexivity). congruence.
Qed.

Section Names.

Local Abbreviation key_of := (fun h : str => Py.or_str h (u "Unnamed")).

Lemma make_unique_counts names : forall seen,
  make_unique seen names
  = imap (fun i h =>
            renamed (key_of h)
              (default 0 (seen !! key_of h)
               + occurrences (key_of h) (take i (List.map key_of names))))
         names.
Proof.
  induction names as [|h names IH]; intros seen; [reflexivity|].
  cbn [make_unique]. rewrite imap_cons. f_equal.
  - cbn [take]. unfold occurrences. cbn [List.filter length]. rewrite Nat.add_0_r.
    reflexivity.
  - rewrite IH. apply imap_ext. intros i h' _. cbn [List.map take compose].
    rewrite occurrences_cons. f_equal. apply count_after_insert.
Qed.

End Names.

(** ** Looking a column up *)

Section Columns.
Variable U : unicode_tables.

Lemma startswith_refl p s : Py.startswith p (p ++ s) = true.
Proof.
  induction p as [|c p IH]; [destruct s; reflexivity|].
  cbn [app Py.startswith]. rewrite N.eqb_refl. exact IH.
Qed.

Lemma contains_refl p : Py.contains p p = true.
Proof.
  pose proof (startswith_refl p []) as H. rewrite app_nil_r in H.
  destruct p; cbn [Py.contains]; rewrite H; reflexivity.
Qed.

Lemma get_col_cases headers name :
  match get_col U headers name with
  | Some h => h ∈ headers /\ Py.contains (Py.lower U name) (Py.lower U h) = true
  | None =>
      forall h, h ∈ headers ->
        Py.lower U h <> Py.lower U name
        /\ (h <> [] -> Py.contains (Py.lower U name) (Py.lower U h) = false)
  end.
Proof.
  unfold get_col.
  set (pairs := List.map (fun h => (Py.lower U h, h)) headers).
  destruct (dict_of pairs !! Py.lower U name) as [h|] eqn:Hc.
  - apply dict_of_elem in Hc. unfold pairs in Hc. apply list_elem_of_In, in_map_iff in Hc.
    destruct Hc as (h' & E & Hin). injection E as E ->.
    split; [apply list_elem_of_In; exact Hin|]. rewrite E. apply contains_refl.
  - apply dict_of_none in Hc.
    destruct (List.find _ headers) as [h|] eqn:Hf.
    + apply find_some in Hf as [Hin Hh]. apply andb_prop in Hh as [_ Hh].
      split; [apply list_elem_of_In; exact Hin | exact Hh].
    + intros h Hin. split.
      * intros E. apply Hc. unfold pairs. rewrite <- list_fmap_compose.
        apply list_elem_of_fmap. exists h. split; [symmetry; exact E | exact Hin].
      * intros Hne. apply list_elem_of_In in Hin.
        pose proof (find_none _ _ Hf h Hin) as Hh. cbn beta in Hh.
        destruct h; [congruence|]. exact Hh.
Qed.

Lemma get_col_exact headers name h :
  h ∈ headers -> Py.lower U h = Py.lower U name ->
  exists h', get_col U headers name = Some h' /\ h' ∈ headers
             /\ Py.lower U h' = Py.lower U name.
Proof.
  intros Hin E. unfold get_col.
  set (pairs := List.map (fun h => (Py.lower U h, h)) headers).
  destruct (dict_of pairs !! Py.lower U name) as [h'|] eqn:Hc.
  - exists h'. split; [reflexivity|]. apply dict_of_elem in Hc.
    unfold pairs in Hc. apply list_elem_of_In, in_map_iff in Hc.
    destruct Hc as (h0 & E0 & Hin0). injection E0 as E0 ->.
    split; [apply list_elem_of_In; exact Hin0 | exact E0].
  - exfalso. apply dict_of_none in Hc. apply Hc. unfold pairs.
    rewrite <- list_fmap_compose. apply list_elem_of_fmap.
    exists h. split; [symmetry; exact E | exact Hin].
Qed.

End Columns.

(** ** The groups of the super header *)

Section Groups.

Local Abbreviation step :=
  (fun (g : gmap str (list nat)) (p : nat * str) =>
     match p.2 with
     | [] => g
     | sh => <[sh := default [] (g !! sh) ++ [p.1]]> g
     end).

Lemma zip_positions_snoc (l : list str) x :
  zip (seq 0 (length (l ++ [x]))) (l ++ [x])
  = zip (seq 0 (length l)) l ++ [(length l, x)].
Proof.
  rewrite length_app. cbn [length]. rewrite Nat.add_1_r, seq_S. cbn [Nat.add].
  rewrite zip_with_app by (rewrite length_seq; reflexivity). reflexivity.
Qed.

Lemma positions_snoc (l : list str) x g :
  List.filter (fun i => Py.eqb (nth i (l ++ [x]) []) g) (seq 0 (length (l ++ [x])))
  = List.filter (fun i => Py.eqb (nth i l []) g) (seq 0 (length l))
    ++ (if Py.eqb x g then [length l] else []).
Proof.
  rewrite length_app. cbn [length]. rewrite Nat.add_1_r, seq_S, List.filter_app.
  cbn [Nat.add List.filter]. rewrite nth_middle. f_equal.
  apply List.filter_ext_in. intros i Hi. apply in_seq in Hi.
  rewrite app_nth1 by lia. reflexivity.
Qed.

Lemma group_indices_closed super_headers g :
  default [] (group_indices super_headers !! g)
  = if nonempty g
    then List.filter (fun i => Py.eqb (nth i super_headers []) g)
                     (seq 0 (length super_headers))
    else [].
Proof.
  unfold group_indices.
  induction super_headers as [|x l IH] using rev_ind.
  - cbn. rewrite lookup_empty. destruct (nonempty g); reflexivity.
  - rewrite zip_positions_snoc, foldl_snoc, positions_snoc. cbn [fst snd].
    destruct x as [|c x].
    + rewrite IH. destruct g as [|d g]; cbn [nonempty Py.eqb]; [reflexivity|].
      rewrite app_nil_r. reflexivity.
    + destruct (Py.eqb (c :: x) g) eqn:E.
      * apply PyFacts.py_eqb_eq in E. subst g. rewrite lookup_insert_eq.
        cbn [default nonempty] in IH |- *. unfold id. f_equal. exact IH.
      * rewrite lookup_insert_ne.
        -- rewrite IH. destruct (nonempty g); [rewrite app_nil_r|]; reflexivity.
        -- intros Eg. apply PyFacts.py_eqb_eq in Eg. congruence.
Qed.

End Groups.

(** ** Columns found by a part of their name *)

Section Fuzzy.
Variable U : unicode_tables.
Variable headers : list str.

Lemma startswith_prefix p q : forall s,
  Py.startswith (p ++ q) s = true -> Py.startswith p s = true.
Proof.
  induction p as [|c p IH]; intros s H; [destruct s; reflexivity|].
  destruct s as [|x s]; [discriminate H|]. cbn [app Py.startswith] in *.
  apply andb_prop in H as [-> H]. apply IH. exact H.
Qed.

Lemma contains_prefix p q s :
  Py.contains (p ++ q) s = true -> Py.contains p s = true.
Proof.
  induction s as [|x s IH]; cbn [Py.contains]; intros H.
  - apply orb_prop in H as [H|H]; [|discriminate H].
    rewrite (startswith_prefix p q [] H). reflexivity.
  - apply orb_prop in H as [H|H].
    + rewrite (startswith_prefix p q _ H). reflexivity.
    + rewrite (IH H). apply orb_true_r.
Qed.

Lemma lower_nil : Py.lower U [] = [].
Proof. reflexivity. Qed.

(** a column found for a name that is not empty is not empty *)
Lemma get_col_named name h :
  Py.lower U name <> [] -> get_col U headers name = Some h -> h <> [].
Proof.
  intros Hname Hg. pose proof (get_col_cases U headers name) as Hc.
  rewrite Hg in Hc. destruct Hc as [_ Hc]. intros ->.
  rewrite lower_nil in Hc. destruct (Py.lower U name); [congruence|].
  discriminate Hc.
Qed.

(** when a column is found for a longer name, one is found for a
    name the longer one begins with *)
Lemma get_col_shorter name name' k q h :
  Py.lower U name = k -> Py.lower U name' = k ++ q -> k <> [] ->
  get_col U headers name' = Some h ->
  exists h', get_col U headers name = Some h' /\ h' ∈ headers /\ h' <> []
             /\ Py.contains k (Py.lower U h') = true.
Proof.
  intros Ek Ek' Hk Hg.
  assert (Hh : h <> []).
  { apply (get_col_named name'); [|exact Hg]. rewrite Ek'. destruct k; [congruence|discriminate]. }
  pose proof (get_col_cases U headers name') as Hc. rewrite Hg, Ek' in Hc.
  destruct Hc as [Hin Hc]. apply contains_prefix in Hc.
  pose proof (get_col_cases U headers name) as Hn. rewrite Ek in Hn.
  destruct (get_col U headers name) as [h'|] eqn:Hg'.
  - exists h'. destruct Hn as [Hin' Hc']. repeat split; try assumption.
    apply (get_col_named name); [rewrite Ek; exact Hk | exact Hg'].
  - destruct (Hn h Hin) as [_ Hno]. rewrite (Hno Hh) in Hc. discriminate Hc.
Qed.

Lemma or_opt_some a b h :
  Py.or_opt a b = Some h -> a = Some h \/ b = Some h.
Proof. unfold Py.or_opt. destruct (Py.truthy a); auto. Qed.

(** lines 390-391 *)
Lemma academic_cols :
  academic_details_1_col U headers = get_col U headers (u "Unnamed")
  /\ academic_details_2_col U headers = get_col U headers (u "Unnamed_2").
Proof.
  assert (H1 : academic_details_1_col U headers = get_col U headers (u "Unnamed")).
  { unfold academic_details_1_col, Py.or_opt.
    destruct (get_col U headers (u "Unnamed")) as [h|] eqn:Ha.
    - replace (Py.truthy (Some h)) with true; [reflexivity|].
      apply get_col_named in Ha; [|discriminate]. destruct h; [congruence|reflexivity].
    - cbn [Py.truthy].
      destruct (get_col U headers (u "Unnamed_2")) as [h|] eqn:Hb; [|reflexivity].
      destruct (get_col_shorter (u "Unnamed") (u "Unnamed_2") (u "unnamed") (u "_2") h)
        as (h' & Hg & _); [reflexivity | reflexivity | discriminate | exact Hb |].
      congruence. }
  split; [exact H1|]. unfold academic_details_2_col. rewrite H1.
  destruct (decide _) as [_|Hne]; [reflexivity | congruence].
Qed.

(** lines 356 and 372 *)
Lemma id_doc_found h :
  id_col U headers = Some h ->
  exists h', id_doc_col U headers = Some h' /\ h' ∈ headers /\ h' <> []
             /\ Py.contains (u "id") (Py.lower U h') = true.
Proof.
  unfold id_col, id_doc_col. intros H.
  apply or_opt_some in H as [H|H]; [|apply or_opt_some in H as [H|H]].
  - apply (get_col_shorter (u "ID") (u "ID Number") (u "id") (u " number") h);
      [reflexivity | reflexivity | discriminate | exact H].
  - apply (get_col_shorter (u "ID") (u "ID_Number") (u "id") (u "_number") h);
      [reflexivity | reflexivity | discriminate | exact H].
  - apply (get_col_shorter (u "ID") (u "ID No") (u "id") (u " no") h);
      [reflexivity | reflexivity | discriminate | exact H].
Qed.

End Fuzzy.

(** ** The digits of an identity number *)

Section IdDigits.
Variable U : unicode_tables.
Variable today : date.

Local Abbreviation digit_char := (fun c => Py.ascii_digit c = true).

Lemma digit_cases c :
  digit_char c ->
  In c [48; 49; 50; 51; 52; 53; 54; 55; 56; 57]%N.
Proof.
  unfold Py.ascii_digit, Py.between. intros H.
  apply andb_prop in H as [H1 H2]. apply N.leb_le in H1, H2. cbn [In]. lia.
Qed.

Lemma int_r_single x :
  digit_char x -> int_r U [x] = Ok (Z.of_N (x - 48)).
Proof.
  intros H. apply digit_cases in H. cbn [In] in H.
  repeat (destruct H as [<-|H]; [reflexivity|]). contradiction.
Qed.

Lemma isdigit_digits s : s <> [] -> Forall digit_char s -> Py.isdigit U s = true.
Proof.
  intros Hne H. destruct s as [|c s]; [congruence|]. unfold Py.isdigit.
  apply forallb_forall. intros x Hx. rewrite Forall_forall in H.
  apply list_elem_of_In, H in Hx. unfold Py.is_digit_like.
  replace (Py.is_ascii x) with true; [exact Hx|].
  unfold Py.ascii_digit, Py.between, Py.is_ascii in *.
  apply andb_prop in Hx as [_ Hx]. apply N.leb_le in Hx.
  symmetry. apply N.ltb_lt. lia.
Qed.

(** two digits read as a number and written back with [%02d], and
    with a century in front with [%04d] *)
Lemma two_digits a b :
  digit_char a -> digit_char b ->
  exists z, int_r U [a; b] = Ok z
    /\ (0 <= z <= 99)%Z
    /\ zero_pad 2 z = [a; b]
    /\ zero_pad 4 (1900 + z) = u "19" ++ [a; b]
    /\ zero_pad 4 (2000 + z) = u "20" ++ [a; b].
Proof.
  intros Ha Hb. apply digit_cases in Ha, Hb. cbn [In] in Ha, Hb.
  repeat (destruct Ha as [<-|Ha]; [|]); try contradiction;
    repeat (destruct Hb as [<-|Hb]; [|]); try contradiction;
    (eexists; split; [vm_compute; reflexivity|]);
    (split; [lia|]); vm_compute; repeat split; reflexivity.
Qed.

Lemma four_digits a b c d :
  digit_char a -> digit_char b -> digit_char c -> digit_char d ->
  exists z, int_r U [a; b; c; d] = Ok z
    /\ (5000 <=? z)%Z = (53 <=? a)%N.
Proof.
  intros Ha Hb Hc Hd. unfold int_r, Py.int_. cbn [Py.int_go].
  destruct (PyFacts.digit_value_ascii U a Ha) as [va Ea].
  destruct (PyFacts.digit_value_ascii U b Hb) as [vb Eb].
  destruct (PyFacts.digit_value_ascii U c Hc) as [vc Ec].
  destruct (PyFacts.digit_value_ascii U d Hd) as [vd Ed].
  assert (Hval : forall x v, digit_char x -> Py.digit_value U x = Some v ->
                   v = N.to_nat (x - 48) /\ v <= 9).
  { intros x v Hx Ev. unfold Py.digit_value in Ev. rewrite Hx in Ev.
    unfold Py.ascii_digit, Py.between, Py.is_ascii in *.
    apply andb_prop in Hx as [H1 H2]. apply N.leb_le in H1, H2.
    replace (x <? 128)%N with true in Ev by (symmetry; apply N.ltb_lt; lia).
    injection Ev as <-. lia. }
  destruct (Hval a va Ha Ea) as [Ea' La], (Hval b vb Hb Eb) as [_ Lb],
           (Hval c vc Hc Ec) as [_ Lc], (Hval d vd Hd Ed) as [_ Ld].
  rewrite Ea, Eb, Ec, Ed. eexists. split; [reflexivity|].
  unfold Py.ascii_digit, Py.between in Ha.
  apply andb_prop in Ha as [H1 H2]. apply N.leb_le in H1, H2.
  destruct (Z.leb_spec 5000 (10 * (10 * (10 * (10 * 0 + Z.of_nat va) + Z.of_nat vb)
                                   + Z.of_nat vc) + Z.of_nat vd));
    destruct (N.leb_spec 53 a); try reflexivity; lia.
Qed.

(** a string of 13 decimal digits, digit by digit *)
Lemma thirteen_digits (digits : str) :
  length digits = 13 -> Forall digit_char digits ->
  exists d0 d1 d2 d3 d4 d5 d6 d7 d8 d9 d10 d11 d12,
    digits = [d0; d1; d2; d3; d4; d5; d6; d7; d8; d9; d10; d11; d12]
    /\ Forall digit_char [d0; d1; d2; d3; d4; d5; d6; d7; d8; d9; d10; d11; d12].
Proof.
  intros Hlen Hd.
  do 13 (destruct digits as [|? digits]; [discriminate Hlen|]).
  destruct digits; [|discriminate Hlen].
  do 13 eexists. split; [reflexivity | exact Hd].
Qed.

(** what a century gives *)
Lemma try_century_some a b c d e f century dob age :
  Forall digit_char [a; b; c; d; e; f] ->
  try_century U today [a; b] [c; d] [e; f] century = Some (dob, age) ->
  exists y m dd,
    int_r U [a; b] = Ok y /\ int_r U [c; d] = Ok m /\ int_r U [e; f] = Ok dd
    /\ dob = Date (century + y) m dd
    /\ age = (dyear today - (century + y)
              - (if before_birthday today (Date (century + y) m dd) then 1 else 0))%Z
    /\ (0 <= age <= 120)%Z.
Proof.
  intros Hd H. unfold try_century in H.
  repeat match goal with
         | H : Forall _ (_ :: _) |- _ => inversion H; clear H; subst
         end.
  destruct (two_digits a b) as (y & Ey & _); [assumption ..|].
  destruct (two_digits c d) as (m & Em & _); [assumption ..|].
  destruct (two_digits e f) as (dd & Ed & _); [assumption ..|].
  rewrite Ey, Em, Ed in H. cbn [mbind result_bind mret result_ret] in H.
  exists y, m, dd. repeat split; try assumption.
  all: unfold mkdate in H; destruct (_ && _)%bool in H; [|discriminate H];
    cbn [mbind result_bind mret result_ret] in H; cbn [catch dyear] in H;
    match type of H with
    | (if ?t then _ else _) = _ => destruct t eqn:Ht; [|discriminate H]
    end; injection H as <- <-; try reflexivity.
  all: apply andb_prop in Ht as [Hlo Hhi]; apply Z.leb_le in Hlo, Hhi; cbn [dyear] in *; lia.
Qed.

Lemma try_century_iso a b c d e f century dob age :
  Forall digit_char [a; b; c; d; e; f] ->
  century = 1900%Z \/ century = 2000%Z ->
  try_century U today [a; b] [c; d] [e; f] century = Some (dob, age) ->
  isoformat dob
  = (if (century =? 1900)%Z then u "19" else u "20")
    ++ [a; b] ++ u "-" ++ [c; d] ++ u "-" ++ [e; f]
  /\ (0 <= age <= 120)%Z.
Proof.
  intros Hd Hc H.
  destruct (try_century_some a b c d e f century dob age Hd H)
    as (y & m & dd & Ey & Em & Ed & -> & _ & Hage).
  split; [|exact Hage].
  repeat match goal with
         | H : Forall _ (_ :: _) |- _ => inversion H; clear H; subst
         end.
  destruct (two_digits a b) as (y' & Ey' & _ & _ & Y19 & Y20); [assumption ..|].
  destruct (two_digits c d) as (m' & Em' & _ & Hm & _); [assumption ..|].
  destruct (two_digits e f) as (dd' & Ed' & _ & Hdd & _); [assumption ..|].
  assert (y' = y) by congruence. assert (m' = m) by congruence.
  assert (dd' = dd) by congruence. subst y' m' dd'.
  unfold isoformat. cbn [dyear dmonth dday]. rewrite Hm, Hdd.
  destruct Hc as [-> | ->]; cbn [Z.eqb Pos.eqb]; [rewrite Y19 | rewrite Y20];
    rewrite <- !app_assoc; reflexivity.
Qed.

Lemma choose_century_from a b r :
  choose_century a b = Some r -> a = Some r \/ b = Some r.
Proof.
  unfold choose_century. destruct a as [[d19 a19]|], b as [[d20 a20]|]; try discriminate.
  - destruct (100 <? a19)%Z; intros [= <-]; auto.
  - intros [= <-]; auto.
  - intros [= <-]; auto.
Qed.

(** what a valid result holds *)
Lemma parse_valid id_value f :
  parse_sa_id_fields U today id_value = Ok f -> valid f = true ->
  let digits := List.filter Py.ascii_digit id_value in
  length digits = 13
  /\ _luhn_sa_id_ok U digits = Ok true
  /\ reason f = []
  /\ (exists cc, (cc = u "19" \/ cc = u "20")
        /\ dob_iso f = cc ++ slice 0 2 digits ++ u "-" ++ slice 2 4 digits
                          ++ u "-" ++ slice 4 6 digits)
  /\ (exists age, (0 <= age <= 120)%Z /\ age_str f = Py.str_of_Z age)
  /\ gender f = (if (53 <=? nth 6 digits 0)%N then u "Male" else u "Female").
Proof.
  intros Hp Hv digits. unfold parse_sa_id_fields in Hp.
  destruct id_value as [|c0 rest]; [injection Hp as <-; discriminate Hv|].
  rewrite id_digits in Hp. fold digits in Hp.
  destruct (length digits =? 13) eqn:Hlen; cbn [negb] in Hp;
    [|injection Hp as <-; discriminate Hv].
  apply Nat.eqb_eq in Hlen.
  destruct (thirteen_digits digits Hlen (filter_digits _))
    as (d0 & d1 & d2 & d3 & d4 & d5 & d6 & d7 & d8 & d9 & d10 & d11 & d12 & E & Hd).
  rewrite E in Hp |- *. cbn [slice firstn skipn Nat.sub nth] in Hp |- *.
  destruct (choose_century _ _) as [[dob age]|] eqn:Hc;
    [|injection Hp as <-; discriminate Hv].
  destruct (_luhn_sa_id_ok U _) as [[|]|] eqn:Hl; cbn [mbind result_bind negb] in Hp;
    [| injection Hp as <-; discriminate Hv | discriminate Hp].
  assert (H6 : Forall digit_char [d0; d1; d2; d3; d4; d5]).
  { repeat match goal with
           | H : Forall _ (_ :: _) |- _ => inversion H; clear H; subst
           end. repeat constructor; assumption. }
  assert (Hiso : exists cc, (cc = u "19" \/ cc = u "20")
                   /\ isoformat dob = cc ++ [d0; d1] ++ u "-" ++ [d2; d3] ++ u "-" ++ [d4; d5]
                   /\ (0 <= age <= 120)%Z).
  { apply choose_century_from in Hc as [Hc|Hc];
      (eapply try_century_iso in Hc as [Hiso Hage]; [|exact H6|auto]);
      cbn [Z.eqb Pos.eqb] in Hiso; eauto. }
  destruct Hiso as (cc & Hcc & Hiso & Hage).
  destruct (four_digits d6 d7 d8 d9) as (z & Ez & Hz).
  1-4: repeat match goal with
              | H : Forall _ (_ :: _) |- _ => inversion H; clear H; subst
              end; assumption.
  rewrite Ez in Hp. cbn [catch] in Hp. rewrite Hz in Hp.
  injection Hp as <-. cbn [reason dob_iso age_str gender].
  repeat split; eauto.
Qed.

(** the sum of the check digit computation does not depend on the
    check digit *)
Lemma luhn_form p0 p1 p2 p3 p4 p5 p6 p7 p8 p9 p10 p11 :
  Forall digit_char [p0; p1; p2; p3; p4; p5; p6; p7; p8; p9; p10; p11] ->
  exists c,
    forall d, digit_char d ->
      _luhn_sa_id_ok U [p0; p1; p2; p3; p4; p5; p6; p7; p8; p9; p10; p11; d]
      = Ok (((10 - c mod 10) mod 10 =? Z.of_N (d - 48))%Z).
Proof.
  intros Hp.
  assert (Hall : forall d, digit_char d ->
            Py.isdigit U [p0; p1; p2; p3; p4; p5; p6; p7; p8; p9; p10; p11; d] = true).
  { intros d Hd. apply isdigit_digits; [discriminate|].
    repeat match goal with
           | H : Forall _ (_ :: _) |- _ => inversion H; clear H; subst
           end. repeat constructor; assumption. }
  repeat match goal with
         | H : Forall _ (_ :: _) |- _ => inversion H; clear H; subst
         end.
  destruct (PyFacts.int_digits U [p1; p3; p5; p7; p9; p11]) as (e & He & Hpos);
    [discriminate | repeat constructor; assumption |].
  destruct (sum_ints_digits U (List.map (fun ch => [ch]) (Py.str_of_Z (e * 2))))
    as (b & Hb).
  { rewrite Forall_map. eapply Forall_impl; [apply PyFacts.str_of_Z_digits; lia|].
    cbn. eauto. }
  eexists. intros d Hd. unfold _luhn_sa_id_ok. rewrite (Hall d Hd).
  cbn [length Nat.eqb negb orb pick char_at lookup list_lookup mbind result_bind
       mret result_ret sum_ints concat app].
  rewrite !int_r_single by assumption.
  cbn [mbind result_bind mret result_ret].
  unfold int_r at 1. rewrite He. cbn [mbind result_bind mret result_ret].
  rewrite Hb. cbn [mbind result_bind mret result_ret]. reflexivity.
Qed.

End IdDigits.

(** ** The identifiers in closed form *)

Section IdsClosed.
Variable U : unicode_tables.
Variable year : Z.

Local Abbreviation base_at := (fun (j : nat) (p : str * str) => student_base U p.1 p.2 year j).

Lemma assign_ids_counts pairs : forall counts idx,
  assign_ids U year counts idx pairs
  = imap (fun i p =>
            suffixed (base_at (idx + i) p)
              (default 0 (counts !! base_at (idx + i) p)
               + occurrences (base_at (idx + i) p)
                   (take i (imap (fun j q => base_at (idx + j) q) pairs))))
         pairs.
Proof.
  induction pairs as [|[name surname] pairs IH]; intros counts idx; [reflexivity|].
  cbn [assign_ids build_student_id]. rewrite imap_cons. f_equal.
  - cbn [take fst snd]. unfold occurrences. cbn [List.filter length].
    rewrite !Nat.add_0_r. reflexivity.
  - rewrite IH. apply imap_ext. intros i [n s] _. cbn [compose fst snd].
    replace (idx + S i) with (S idx + i) by lia.
    rewrite imap_cons. cbn [take fst snd]. rewrite occurrences_cons.
    rewrite (Nat.add_0_r idx).
    rewrite (imap_ext ((fun j q => base_at (idx + j) q) ∘ S)
                      (fun j q => base_at (S idx + j) q))
      by (intros j q _; cbn [compose]; replace (idx + S j) with (S idx + j) by lia;
          reflexivity).
    f_equal. apply count_after_insert.
Qed.

End IdsClosed.

(** ** The slug of a name *)

Section Slug.
Variable U : unicode_tables.

Lemma letters_ascii (s : str) :
  Forall (fun c => Py.ascii_letter c = true) s -> forallb Py.is_ascii s = true.
Proof.
  intros H. apply forallb_forall. intros c Hc. apply PyFacts.letter_is_ascii.
  rewrite Forall_forall in H. apply H, list_elem_of_In, Hc.
Qed.

Lemma slug_of_letters (s : str) :
  slug_letters_two U s
  = List.map Py.to_lower
      (take 2 (List.filter Py.ascii_letter
                 (List.filter (fun ch => negb (Py.combining U ch)) (Py.nfkd U s)))).
Proof.
  unfold slug_letters_two. destruct s as [|c s].
  - unfold Py.nfkd. reflexivity.
  - rewrite ReFacts.sub_cls.
    rewrite (List.filter_ext _ Py.ascii_letter) by (intros; apply negb_involutive).
    unfold Py.lower. rewrite letters_ascii; [reflexivity|].
    apply Forall_take, filter_holds.
Qed.

Lemma filter_all {A : Type} (p : A -> bool) l :
  forallb p l = true -> List.filter p l = l.
Proof.
  induction l as [|x l IH]; cbn; [reflexivity|].
  intros H. apply andb_prop in H as [-> H]. rewrite IH by exact H. reflexivity.
Qed.

Lemma slug_shape (s : str) :
  length (slug_letters_two U s) <= 2
  /\ Forall (fun c => Py.ascii_lower c = true) (slug_letters_two U s)
  /\ (if forallb Py.is_ascii s
      then slug_letters_two U s
           = List.map Py.to_lower (take 2 (List.filter Py.ascii_letter s))
      else True).
Proof.
  split; [|split].
  - rewrite slug_of_letters, length_map, length_take. lia.
  - apply slug_lower.
  - destruct (forallb Py.is_ascii s) eqn:E; [|exact I].
    rewrite slug_of_letters. unfold Py.nfkd. rewrite E.
    rewrite (filter_all (fun ch => negb (Py.combining U ch))); [reflexivity|].
    apply forallb_forall. intros c Hc. unfold Py.combining.
    rewrite forallb_forall in E. rewrite (E c Hc). reflexivity.
Qed.

End Slug.

(** ** The cohort year *)

Section YearMore.
Variable U : unicode_tables.
Variable today : date.

Lemma basename_go_app dir file : forall cur,
  basename_go cur (dir ++ 47%N :: file) = basename_go [] file.
Proof.
  induction dir as [|c dir IH]; intros cur; cbn [app basename_go].
  - reflexivity.
  - destruct (c =? 47)%N; apply IH.
Qed.

Lemma basename_after_slash dir file :
  basename (dir ++ u "/" ++ file) = basename file.
Proof. apply basename_go_app. Qed.

(** a match of [RE_YEAR] starts at a character 2 *)
Lemma year_starts c g c1 g1 :
  Re.matches (RE_YEAR U) c g c1 g1 -> exists rest, Re.ahead c = 50%N :: rest.
Proof.
  unfold RE_YEAR.
  change (Re.lit (u "20")) with (Re.Seq (Re.Cls (N.eqb 50)) (Re.Cls (N.eqb 48))).
  cbv [Re.seqs Re.times Re.wordb Re.digit].
  intros H. invm.
  repeat match goal with E : (_ =? _)%N = true |- _ => apply N.eqb_eq in E; subst end.
  cbn [Re.ahead]. eauto.
Qed.

Lemma year_needs c g c1 g1 :
  Re.matches (RE_YEAR U) c g c1 g1 ->
  exists x, x ∈ Re.ahead c /\ (x =? 50)%N = true.
Proof.
  intros H. apply year_starts in H as [rest ->]. exists 50%N. split; [left | reflexivity].
Qed.

(** the scan passes over what holds no 2 *)
Lemma scan_year_skip pre s : forall bh,
  Forall (fun c => c <> 50%N) pre ->
  Re.scan (RE_YEAR U) bh (pre ++ s) = Re.scan (RE_YEAR U) (rev pre ++ bh) s.
Proof.
  induction pre as [|c pre IH]; intros bh Hpre; [reflexivity|].
  inversion Hpre as [|? ? Hc Hrest]; subst. cbn [app Re.scan].
  destruct (Re.match_at (RE_YEAR U) _) as [m|] eqn:E.
  - exfalso. apply ReFacts.match_at_sound in E as [_ Hm].
    apply year_starts in Hm as [rest Hr]. cbn [Re.ahead] in Hr. congruence.
  - rewrite IH by exact Hrest. cbn [rev]. rewrite <- app_assoc. reflexivity.
Qed.

Lemma digit_is_word x : Py.ascii_digit x = true -> Py.is_word U x = true.
Proof.
  intros H. unfold Py.is_word. rewrite H.
  replace (Py.is_ascii x) with true; [rewrite orb_true_r; reflexivity|].
  unfold Py.ascii_digit, Py.between, Py.is_ascii in *. symmetry. apply N.ltb_lt.
  apply andb_prop in H as [_ H]. apply N.leb_le in H. lia.
Qed.

Lemma run_ends_holds (p : char -> bool) s : run_ends p s -> Re.holds_at p s = false.
Proof. destruct s; [reflexivity | exact id]. Qed.

(** the pattern at a 20 with two digits, between two places where no
    word goes on *)
Lemma match_at_year bh x y post :
  Re.holds_at (Py.is_word U) bh = false ->
  Py.ascii_digit x = true -> Py.ascii_digit y = true ->
  Re.holds_at (Py.is_word U) post = false ->
  Re.match_at (RE_YEAR U) (Re.Cursor bh (50 :: 48 :: x :: y :: post)%N)
  = Some (Re.Found (Re.Cursor bh (50 :: 48 :: x :: y :: post)%N)
                   (Re.Cursor (y :: x :: 48 :: 50 :: bh)%N post)
                   [(1, [50; 48; x; y]%N)]).
Proof.
  intros Hb Hx Hy Hp. unfold Re.match_at, RE_YEAR.
  change (Re.lit (u "20")) with (Re.Seq (Re.Cls (N.eqb 50)) (Re.Cls (N.eqb 48))).
  cbv [Re.seqs Re.times Re.wordb Re.digit].
  cbn [Re.exec Re.ahead Re.behind]. rewrite Hb.
  cbn [Re.holds_at]. change (Py.is_word U 50%N) with true.
  change (50 =? 50)%N with true. change (48 =? 48)%N with true. cbn [xorb].
  cbn [length Nat.add Re.rep_loop Re.below Re.ahead Re.behind].
  rewrite (PyFacts.is_digit_ascii U x Hx).
  change (0 <? 2) with true. change (2 <=? 0) with false. rewrite orb_true_r.
  cbn [Re.ahead Re.behind]. rewrite (PyFacts.is_digit_ascii U y Hy).
  change (1 <? 2) with true. change (2 <=? 1) with false. rewrite orb_true_r.
  change (2 <? 2) with false. change (2 <=? 2) with true.
  cbn [Re.ahead Re.behind Re.holds_at]. rewrite (digit_is_word y Hy), Hp. cbn [xorb].
  rewrite (ReFacts.span_taken _ _ [50; 48; x; y]%N) by reflexivity.
  reflexivity.
Qed.

Lemma year_value x y :
  Py.ascii_digit x = true -> Py.ascii_digit y = true ->
  int_r U [50; 48; x; y]%N = Ok (2000 + 10 * Z.of_N (x - 48) + Z.of_N (y - 48))%Z.
Proof.
  intros Hx Hy. apply digit_cases in Hx, Hy. cbn [In] in Hx, Hy.
  repeat (destruct Hx as [<-|Hx]; [|]); try contradiction;
    repeat (destruct Hy as [<-|Hy]; [|]); try contradiction; reflexivity.
Qed.

(** the year is read at the first 20 of the name, when no 2 stands
    before it *)
Lemma extract_year_read path fallback pre x y post :
  basename path = pre ++ [50; 48; x; y]%N ++ post ->
  Forall (fun c => c <> 50%N) pre ->
  run_ends (Py.is_word U) (rev pre) ->
  Py.ascii_digit x = true -> Py.ascii_digit y = true ->
  run_ends (Py.is_word U) post ->
  extract_year_from_filename U today path fallback
  = Ok (2000 + 10 * Z.of_N (x - 48) + Z.of_N (y - 48))%Z.
Proof.
  intros Hbase Hpre Hb Hx Hy Hp. apply run_ends_holds in Hb, Hp.
  unfold extract_year_from_filename, Re.search.
  rewrite Hbase, scan_year_skip by exact Hpre. rewrite app_nil_r.
  cbn [app Re.scan]. rewrite (match_at_year _ x y post Hb Hx Hy Hp).
  unfold Re.group. cbn [Re.m_caps Re.lookup_cap Nat.eqb]. apply year_value; assumption.
Qed.

Lemma extract_year_fallback path fallback :
  Forall (fun c => c <> 50%N) (basename path) ->
  extract_year_from_filename U today path fallback = Ok (default (dyear today) fallback).
Proof.
  intros H. unfold extract_year_from_filename, Re.search.
  rewrite (GreedyFacts.scan_absent _ _ year_needs).
  - destruct fallback; reflexivity.
  - eapply Forall_impl; [exact H|]. intros c Hc. apply N.eqb_neq. exact Hc.
Qed.

Hypothesis decimal_digits : forall c d, decimal_value U c = Some d -> d <= 9.

Lemma digit_value_bound c d : Py.digit_value U c = Some d -> d <= 9.
Proof.
  unfold Py.digit_value. destruct (Py.is_ascii c); [|apply decimal_digits].
  destruct (Py.ascii_digit c) eqn:E; [|discriminate].
  intros [= <-]. unfold Py.ascii_digit, Py.between in E.
  apply andb_prop in E as [H1 H2]. apply N.leb_le in H1, H2. lia.
Qed.

Lemma extract_year_range path fallback :
  exists y,
    extract_year_from_filename U today path fallback = Ok y
    /\ ((2000 <= y <= 2099)%Z \/ y = default (dyear today) fallback).
Proof.
  unfold extract_year_from_filename.
  destruct (Re.search _ _) as [m|] eqn:Hs.
  - apply ReFacts.search_sound in Hs as (pre & post & _ & Hm).
    apply year_digits in Hm as (x & y & Hcap & Hx & Hy).
    unfold Re.group. rewrite Hcap. unfold int_r, Py.int_. cbn [Py.int_go].
    change (Py.digit_value U 50) with (Some 2).
    change (Py.digit_value U 48) with (Some 0).
    unfold Py.is_digit in Hx, Hy.
    destruct (Py.digit_value U x) as [vx|] eqn:Ex; [|discriminate].
    destruct (Py.digit_value U y) as [vy|] eqn:Ey; [|discriminate].
    apply digit_value_bound in Ex, Ey.
    eexists. split; [reflexivity|]. left. lia.
  - destruct fallback; eexists; (split; [reflexivity|]); right; reflexivity.
Qed.

End YearMore.

(** ** What [main] writes *)

Section Written.
Variable U : unicode_tables.
Variable today : date.

Lemma field_head k v (r : record) : field k ((k, v) :: r) = Some v.
Proof.
  cbn [field]. replace (Py.eqb k k) with true; [reflexivity|].
  symmetry. apply PyFacts.py_eqb_eq. reflexivity.
Qed.

Lemma field_tail k v f (r : record) : f <> k -> field f ((k, v) :: r) = field f r.
Proof.
  intros Hne. cbn [field]. destruct (Py.eqb k f) eqn:E; [|reflexivity].
  apply PyFacts.py_eqb_eq in E. congruence.
Qed.

(** a record with distinct keys, read key by key, gives its values *)
Lemma fields_read_back (r : record) :
  NoDup r.*1 ->
  List.map (fun f => default [] (field f r)) r.*1 = r.*2.
Proof.
  induction r as [|[k v] r IH]; [reflexivity|].
  cbn [fmap list_fmap fst snd List.map]. intros Hnd.
  apply NoDup_cons in Hnd as [Hk Hnd].
  rewrite field_head. cbn [default]. f_equal.
  rewrite <- IH by exact Hnd. apply map_ext_in. intros f Hf.
  rewrite field_tail; [reflexivity|]. intros ->. apply Hk, list_elem_of_In, Hf.
Qed.

Lemma written_lines fieldnames (data : list record) :
  NoDup fieldnames ->
  Forall (fun r => r.*1 = fieldnames) data ->
  write_csv fieldnames data = fieldnames :: List.map (fun r => r.*2) data.
Proof.
  intros Hnd Hdata. unfold write_csv. f_equal.
  apply map_ext_Forall. eapply Forall_impl; [exact Hdata|].
  cbn beta. intros r <-. apply fields_read_back. exact Hnd.
Qed.

Lemma field_lists_nodup : NoDup t1_fields /\ NoDup t2_fields /\ NoDup t3_fields.
Proof.
  repeat split; apply (bool_decide_unpack _); vm_compute; exact I.
Qed.

Section RowFields.
Variables (headers super_headers : list str) (year : Z).

Lemma build_row_fields idx d id_counts :
  exists t1 t2 t3 counts,
    build_row U today headers super_headers year idx d id_counts
    = Ok (t1, t2, t3, counts)
    /\ t1.*1 = t1_fields /\ t2.*1 = t2_fields /\ t3.*1 = t3_fields.
Proof.
  unfold build_row.
  destruct (build_student_id _ _ _ _ _ _) as [student_id counts'].
  destruct (parse_contact_field _ _) as [[prim wa] alt].
  destruct (parse_parent_details _ _) as [p_name p_contact].
  destruct (split_comments _ _) as [c_time c_text].
  destruct (parse_sa_id_fields_cases U today
              (Py.strip U (cell d (id_col U headers)))) as (f & -> & _).
  ok_step. do 4 eexists. split; [reflexivity|]. repeat split; reflexivity.
Qed.

Lemma rows_loop_fields rows : forall idx id_counts,
  exists t,
    rows_loop U today headers super_headers year idx rows id_counts = Ok t
    /\ Forall (fun r => r.*1 = t1_fields) (t1_rows t)
    /\ Forall (fun r => r.*1 = t2_fields) (t2_rows t)
    /\ Forall (fun r => r.*1 = t3_fields) (t3_rows t).
Proof.
  induction rows as [|d rows IH]; intros idx id_counts; cbn [rows_loop].
  - eexists. split; [reflexivity|]. cbn. repeat split; constructor.
  - destruct (build_row_fields idx d id_counts) as (t1 & t2 & t3 & counts & -> & H1 & H2 & H3).
    ok_step. destruct (IH (S idx) counts) as (t & -> & F1 & F2 & F3).
    ok_step. eexists. split; [reflexivity|].
    cbn [t1_rows t2_rows t3_rows]. repeat split; constructor; assumption.
Qed.

End RowFields.

Lemma main_fields src input_path cohort_year :
  match main U today src input_path cohort_year with
  | Return _ (Some t) =>
      Forall (fun r => r.*1 = t1_fields) (t1_rows t)
      /\ Forall (fun r => r.*1 = t2_fields) (t2_rows t)
      /\ Forall (fun r => r.*1 = t3_fields) (t3_rows t)
  | _ => True
  end.
Proof.
  unfold main. destruct (read_csv_with_multiline U src) as [[[headers sh] rows]|e].
  2:{ destruct e; exact I. }
  destruct (year_total U today input_path cohort_year) as [year ->].
  destruct rows as [|d rows]; [exact I|].
  destruct (rows_loop_fields headers sh year (d :: rows) 0 ∅) as (t & -> & H).
  exact H.
Qed.


End Written.

(** ** Where the slots come from *)

Section SlotsFrom.
Variable U : unicode_tables.

Lemma label_line_from nums st ln :
  (forall n, n ∈ line_numbers U ln -> n ∈ nums) ->
  slots_from nums st -> slots_from nums (label_line U st ln).
Proof.
  intros Hln Hst. unfold label_line. destruct st as [[p w] a].
  pose proof (findall_numbers U ln) as Hf.
  destruct (Re.findall (RE_PHONE U) ln) as [|ph phs]; [exact Hst|].
  destruct Hf as [rest Hf].
  assert (Hnum : normalize_phone U ph ∈ nums) by (apply Hln; rewrite Hf; left).
  cbn [slots_from] in Hst.
  inversion Hst as [|? ? Hp Hst1]; subst. inversion Hst1 as [|? ? Hw Hst2]; subst.
  inversion Hst2 as [|? ? Ha _]; subst.
  destruct (Re.hit _ ln); [|destruct (Re.hit _ ln); [|destruct (Re.hit _ ln)]];
    try (destruct (Py.truthy _)); cbn [slots_from]; repeat constructor; assumption.
Qed.

Lemma pass1_from nums lines : forall st,
  (forall ln n, ln ∈ lines -> n ∈ line_numbers U ln -> n ∈ nums) ->
  slots_from nums st -> slots_from nums (foldl (label_line U) st lines).
Proof.
  induction lines as [|ln lines IH]; intros st Hl Hst; cbn [foldl]; [exact Hst|].
  apply IH.
  - intros ln' n Hin. apply Hl. right. exact Hin.
  - apply label_line_from; [|exact Hst]. intros n. apply Hl. left.
Qed.

Lemma fill_from nums st n : n ∈ nums -> slots_from nums st -> slots_from nums (fill st n).
Proof.
  intros Hn Hst. unfold fill. destruct st as [[p w] a]. cbn [slots_from] in Hst.
  inversion Hst as [|? ? Hp Hst1]; subst. inversion Hst1 as [|? ? Hw Hst2]; subst.
  inversion Hst2 as [|? ? Ha _]; subst.
  destruct (negb _); [|destruct (negb _); [|destruct (negb _)]];
    cbn [slots_from]; repeat constructor; assumption.
Qed.

Lemma pass2_from nums rem : forall st,
  (forall n, n ∈ rem -> n ∈ nums) ->
  slots_from nums st -> slots_from nums (foldl fill st rem).
Proof.
  induction rem as [|n rem IH]; intros st Hrem Hst; cbn [foldl]; [exact Hst|].
  apply IH; [intros n' Hn'; apply Hrem; right; exact Hn'|].
  apply fill_from; [apply Hrem; left | exact Hst].
Qed.

Lemma numbers_of_line lines ln n :
  ln ∈ lines -> n ∈ line_numbers U ln -> n ∈ flat_map (line_numbers U) lines.
Proof.
  intros Hln Hn. apply list_elem_of_In, in_flat_map. exists ln.
  split; apply list_elem_of_In; assumption.
Qed.

Lemma parse_contact_from text :
  slots_from (phone_numbers U text) (parse_contact_field U text).
Proof.
  unfold parse_contact_field. destruct text as [|c text].
  { cbn. repeat constructor. }
  set (lines := contact_lines U (c :: text)).
  assert (H1 : slots_from (phone_numbers U (c :: text))
                 (foldl (label_line U) (None, None, None) lines)).
  { apply pass1_from; [|cbn; repeat constructor].
    intros ln n. apply numbers_of_line. }
  apply pass2_from; [|exact H1].
  intros n Hn. rewrite remaining_filter in Hn.
  apply elem_of_filter in Hn as [Hn _]. exact Hn.
Qed.

Lemma phone_number_canonical text n :
  n ∈ phone_numbers U text -> canonical U n.
Proof.
  unfold phone_numbers. intros H. apply list_elem_of_In, in_flat_map in H.
  destruct H as (ln & _ & Hn). apply list_elem_of_In in Hn.
  exact (line_numbers_canonical U ln n Hn).
Qed.

End SlotsFrom.

(** ** The details of a parent *)

Section Parent.
Variable U : unicode_tables.

Local Abbreviation tidy ws := (Py.join (u " ") ws).

Lemma lstrip_head s :
  match Py.lstrip U s with [] => True | c :: _ => Py.is_space U c = false end.
Proof.
  induction s as [|c s IH]; cbn [Py.lstrip]; [exact I|].
  destruct (Py.is_space U c) eqn:E; [exact IH | exact E].
Qed.

Lemma strip_head s :
  match Py.strip U s with [] => True | c :: _ => Py.is_space U c = false end.
Proof.
  unfold Py.strip. pose proof (lstrip_head s) as H.
  destruct (Py.lstrip U s) as [|c r]; [exact I|].
  rewrite rstrip_cons. destruct (Py.rstrip U r); [rewrite H|]; [exact H | exact H].
Qed.

Lemma split_go_some s : forall cur, cur <> [] -> Py.split_go U cur s <> [].
Proof.
  induction s as [|c s IH]; intros cur Hcur; cbn [Py.split_go].
  - destruct cur; [congruence | discriminate].
  - destruct (Py.is_space U c); [destruct cur; [congruence | discriminate]|].
    apply IH. discriminate.
Qed.

Lemma split_some c s : Py.is_space U c = false -> Py.split U (c :: s) <> [].
Proof.
  intros Hc. unfold Py.split. cbn [Py.split_go]. rewrite Hc.
  apply split_go_some. discriminate.
Qed.

Local Abbreviation well_spaced := (well_spaced U).

Lemma tidy_name c s :
  Py.is_space U c = false -> well_spaced (tidy (Py.split U (c :: s))).
Proof.
  intros Hc. pose proof (split_words U (c :: s)) as Hw. split.
  - intros E. apply (tidy_nil_inv U) in E; [|exact Hw]. exact (split_some c s Hc E).
  - eauto.
Qed.

Lemma parse_parent_shape text :
  let '(name, contact) := parse_parent_details U text in
  match name with None => True | Some n => well_spaced n end
  /\ match contact with None => True | Some c => canonical U c end.
Proof.
  unfold parse_parent_details. destruct text as [|c0 text]; [split; exact I|].
  set (t := c0 :: text).
  (* the name before lines 167-168: nothing, or a text that opens with no space *)
  set (name1 := match Re.search (RE_PARENT_NAME U) t with
                | Some m => if given U (Py.strip U (Re.group 1 m))
                            then Some (Py.strip U (Re.group 1 m)) else None
                | None => None
                end).
  assert (H1 : match name1 with
               | None => True
               | Some n => exists c s, n = c :: s /\ Py.is_space U c = false
               end).
  { unfold name1. destruct (Re.search (RE_PARENT_NAME U) t) as [m|]; [|exact I].
    pose proof (strip_head (Re.group 1 m)) as Hh.
    unfold given. destruct (Py.strip U (Re.group 1 m)) as [|c s]; [exact I|].
    destruct (negb _); [eauto | exact I]. }
  set (name2 := match Re.search (RE_PARENT_SURNAME_OF U) t with
                | Some m2 => _
                | None => name1
                end).
  assert (H2 : match name2 with
               | None => True
               | Some n => exists c s, n = c :: s /\ Py.is_space U c = false
               end).
  { unfold name2. destruct (Re.search (RE_PARENT_SURNAME_OF U) t) as [m2|]; [|exact H1].
    pose proof (strip_head (Re.group 1 m2)) as Hh.
    unfold given. destruct (Py.strip U (Re.group 1 m2)) as [|c s]; [exact H1|].
    destruct (negb (Py.eqb _ _)); [|exact H1].
    destruct name1 as [[|c1 s1]|]; cbn [Py.truthy Py.or_empty andb negb].
    - destruct H1 as (? & ? & ? & _). discriminate.
    - destruct H1 as (c' & s' & [= <- <-] & Hc').
      destruct (negb (Py.contains _ _)); cbn [app]; eauto.
    - eauto. }
  clearbody name2. clear name1 H1.
  split.
  - destruct name2 as [[|c s]|]; cbn [Py.truthy Py.or_empty]; [| |exact I].
    + destruct H2 as (? & ? & ? & _). discriminate.
    + destruct H2 as (c' & s' & [= <- <-] & Hc'). apply tidy_name. exact Hc'.
  - destruct (Re.search (RE_PARENT_CONTACT U) t) as [m3|] eqn:Hs.
    + apply ReFacts.search_sound in Hs as (pre & post & _ & Hm).
      apply parent_contact_canonical in Hm as (tok & Hcap & Hcan).
      unfold Re.group. rewrite Hcap.
      destruct (negb (Py.truthy (Some (normalize_phone U tok)))); [|exact Hcan].
      destruct (Re.findall (RE_PHONE U) t) as [|ph rest] eqn:Hf; [exact Hcan|].
      exact (first_number_canonical U t ph rest Hf).
    + cbn [Py.truthy negb].
      destruct (Re.findall (RE_PHONE U) t) as [|ph rest] eqn:Hf; [exact I|].
      exact (first_number_canonical U t ph rest Hf).
Qed.

End Parent.

(** ** Trimming first, squeezing after *)

Section Trimmed.
Variable U : unicode_tables.

Local Abbreviation is_space := (Py.is_space U).
Local Abbreviation lstrip := (Py.lstrip U).
Local Abbreviation rstrip := (Py.rstrip U).
Local Abbreviation strip := (Py.strip U).
Local Abbreviation split := (Py.split U).
Local Abbreviation squash := (squeeze is_space).
Local Abbreviation tidy ws := (Py.join (u " ") ws).

Lemma lstrip_fixed s :
  match s with [] => True | c :: _ => is_space c = false end -> lstrip s = s.
Proof. destruct s as [|c s]; [reflexivity|]. cbn [Py.lstrip]. intros ->. reflexivity. Qed.

Lemma rstrip_idem s : rstrip (rstrip s) = rstrip s.
Proof.
  unfold Py.rstrip. rewrite rev_involutive. f_equal.
  apply lstrip_fixed, lstrip_head.
Qed.

Lemma split_lstrip s : split (lstrip s) = split s.
Proof.
  induction s as [|c s IH]; [reflexivity|]. cbn [Py.lstrip].
  destruct (is_space c) eqn:Hc; [|reflexivity].
  rewrite split_space by exact Hc. exact IH.
Qed.

Lemma rstrip_boundary rest : boundary U rest -> boundary U (rstrip rest).
Proof.
  destruct rest as [|c rest]; [intros _; exact I|]. cbn [boundary]. intros Hc.
  rewrite rstrip_cons. destruct (Py.rstrip U rest); [rewrite Hc; exact I | exact Hc].
Qed.

Lemma split_rstrip s : split (rstrip s) = split s.
Proof.
  induction s as [| c s Hc IH | w rest Hw Hb IH] using (words_ind U).
  - reflexivity.
  - rewrite rstrip_cons, (split_space U c s Hc).
    destruct (Py.rstrip U s) as [|x r] eqn:E.
    + rewrite Hc. rewrite <- IH. reflexivity.
    + rewrite (split_space U c (x :: r) Hc). exact IH.
  - rewrite rstrip_word by apply Hw.
    rewrite !split_word; auto using rstrip_boundary. rewrite IH. reflexivity.
Qed.

Lemma split_strip s : split (strip s) = split s.
Proof. unfold Py.strip. rewrite split_rstrip. apply split_lstrip. Qed.

Lemma squash_some s b : rstrip s <> [] -> squash b s <> [].
Proof.
  revert b. induction s as [|c s IH]; intros b H; [exact H|].
  cbn [squeeze]. rewrite rstrip_cons in H.
  destruct (is_space c) eqn:Hc; [|discriminate].
  destruct (Py.rstrip U s) eqn:E; [congruence|].
  destruct b; [apply IH; discriminate | discriminate].
Qed.

Lemma rstrip_squash_fixed s : rstrip s = s -> forall b, rstrip (squash b s) = squash b s.
Proof.
  induction s as [|c s IH]; intros H b; [reflexivity|].
  rewrite rstrip_cons in H.
  destruct (Py.rstrip U s) as [|x r] eqn:E.
  - destruct (is_space c) eqn:Hc; [discriminate|]. injection H as <-.
    cbn [squeeze]. rewrite Hc. rewrite rstrip_cons. cbn. rewrite Hc. reflexivity.
  - injection H as H. specialize (IH H).
    assert (Hne : forall b', squash b' s <> []).
    { intros b'. apply squash_some. rewrite E. discriminate. }
    cbn [squeeze]. destruct (is_space c) eqn:Hc.
    + destruct b; [apply IH|]. rewrite rstrip_cons, IH.
      destruct (squash true s) eqn:E'; [destruct (Hne true E') | reflexivity].
    + rewrite rstrip_cons, IH.
      destruct (squash false s) eqn:E'; [destruct (Hne false E') | reflexivity].
Qed.

(** [norm] of the validator: a text trimmed, then its runs of spaces
    squeezed, is its words joined by single spaces *)
Lemma squash_strip s : squash false (strip s) = tidy (split s).
Proof.
  rewrite <- split_strip, <- strip_squash. unfold Py.strip at 2.
  rewrite lstrip_squash.
  rewrite rstrip_squash_fixed by (unfold Py.strip; apply rstrip_idem).
  pose proof (strip_head U s) as Hh.
  destruct (Py.strip U s) as [|c r]; [reflexivity|]. cbn [squeeze]. rewrite Hh.
  reflexivity.
Qed.

Lemma norm_words o : norm U o = tidy (split (Py.or_empty o)).
Proof.
  unfold norm. change (u " ") with [32%N].
  unfold Re.space. rewrite GreedyFacts.sub_plus. apply squash_strip.
Qed.

End Trimmed.

(** ** The leftmost run of a class *)

Section LeftmostRun.
Variable p : char -> bool.

Lemma scan_plus_at pre run post :
  Forall (fun c => p c = false) pre ->
  Forall (fun c => p c = true) run -> run <> [] -> run_ends p post ->
  forall bh,
    Re.scan (Re.plus (Re.Cls p)) bh (pre ++ run ++ post)
    = Some (Re.Found (Re.Cursor (rev pre ++ bh) (run ++ post))
                     (Re.Cursor (rev run ++ rev pre ++ bh) post) []).
Proof.
  intros Hpre Hrun Hne Hpost.
  induction Hpre as [|x pre Hx _ IH]; intros bh.
  - cbn [app rev]. destruct run as [|y run]; [congruence|].
    cbn [Re.scan app]. change (y :: run ++ post) with ((y :: run) ++ post).
    rewrite (GreedyFacts.match_at_plus p (y :: run) post bh Hrun Hpost). reflexivity.
  - cbn [app Re.scan].
    pose proof (GreedyFacts.match_at_plus p [] (x :: pre ++ run ++ post) bh
                  (Forall_nil_2 _) Hx) as Hm.
    cbn [app] in Hm. rewrite Hm. rewrite IH. cbn [rev]. rewrite <- !app_assoc.
    reflexivity.
Qed.

End LeftmostRun.

(** ** The star rating, case by case *)

Section StarsMore.
Variable U : unicode_tables.

Lemma stars_first_digits pre run post :
  Forall (fun c => Py.is_digit U c = false) pre ->
  Forall (fun c => Py.is_digit U c = true) run -> run <> [] ->
  run_ends (Py.is_digit U) post ->
  stars_to_number U (pre ++ run ++ post) = run.
Proof.
  intros Hpre Hrun Hne Hpost. unfold stars_to_number.
  destruct (pre ++ run ++ post) as [|c s] eqn:E.
  { apply app_eq_nil in E as [_ E]. apply app_eq_nil in E as [E _]. congruence. }
  rewrite <- E. unfold Re.search, Re.digit.
  rewrite (scan_plus_at _ pre run post Hpre Hrun Hne Hpost).
  unfold Re.group0. cbn [Re.m_start Re.m_end].
  apply ReFacts.span_taken. reflexivity.
Qed.

Lemma plus_needs c g c1 g1 :
  Re.matches (Re.plus (Re.digit U)) c g c1 g1 ->
  exists x, x ∈ Re.ahead c /\ Py.is_digit U x = true.
Proof.
  intros H. inversion H as [| | | | | |? ? ? ? ? c2 g2 ? ? _ H1 _| | | |]; subst.
  inversion H1; subst. cbn [Re.ahead]. eexists. split; [left | assumption].
Qed.

Lemma stars_counted val :
  Forall (fun c => Py.is_digit U c = false) val ->
  stars_to_number U val
  = match Py.count_char star_glyph val with
    | O => []
    | S n => Py.str_of_nat (S n)
    end.
Proof.
  intros H. unfold stars_to_number. destruct val as [|c s]; [reflexivity|].
  unfold Re.search. rewrite (GreedyFacts.scan_absent _ _ plus_needs) by exact H.
  destruct (Py.count_char star_glyph (c :: s)); [|reflexivity].
  destruct (Py.mem _ _); reflexivity.
Qed.

End StarsMore.

(** ** A number in the field, a slot filled *)

Section SlotFilled.
Variable U : unicode_tables.
Hypothesis digits_no_spaces : forall c, Py.is_digit U c = true -> Py.is_space U c = false.

Lemma digit_kept x : Py.is_digit U x = true -> normalize_phone U [x] = [x].
Proof.
  intros Hx. rewrite normalize_phone_filter. cbn [List.filter].
  rewrite (digits_no_spaces x Hx).
  assert (H45 : (x =? 45)%N = false).
  { destruct (N.eqb_spec x 45) as [->|]; [discriminate Hx | reflexivity]. }
  rewrite H45. cbn [orb negb List.filter]. rewrite Hx. reflexivity.
Qed.

Lemma phone_token_some c g c1 g1 :
  Re.matches (RE_PHONE U) c g c1 g1 -> normalize_phone U (Re.span c c1) <> [].
Proof.
  unfold RE_PHONE. cbv [Re.seqs Re.opt Re.chr Re.digit].
  intros H. invm.
  all: match goal with
       | H : Re.matches (Re.Rep _ _ None) _ _ _ _ |- _ =>
           apply ReFacts.matches_rep_cls in H as (mid & Ha & Hb & Hmid & _ & _)
       end; cbn [Re.ahead Re.behind] in Ha, Hb; subst.
  all: repeat match goal with E : (_ =? _)%N = true |- _ => apply N.eqb_eq in E; subst end.
  all: match goal with
       | |- context [Re.span (Re.Cursor ?bh _)
                             (Re.Cursor (?l :: rev ?mid ++ ?f :: 43%N :: ?bh) _)] =>
           rewrite (ReFacts.span_taken _ _ ([43%N] ++ [f] ++ (mid ++ [l])))
             by (cbn [Re.behind rev app]; rewrite rev_app_distr; cbn [rev app];
                 rewrite <- !app_assoc; reflexivity);
           rewrite !normalize_app, (digit_kept f) by assumption
       | |- context [Re.span (Re.Cursor ?bh _)
                             (Re.Cursor (?l :: rev ?mid ++ ?f :: ?bh) _)] =>
           rewrite (ReFacts.span_taken _ _ ([f] ++ (mid ++ [l])))
             by (cbn [Re.behind rev app]; rewrite rev_app_distr; cbn [rev app];
                 rewrite <- !app_assoc; reflexivity);
           rewrite !normalize_app, (digit_kept f) by assumption
       end.
  all: intros E; repeat (apply app_eq_nil in E as [? E]); discriminate.
Qed.

Lemma phone_number_some text n : n ∈ phone_numbers U text -> n <> [].
Proof.
  unfold phone_numbers. intros H. apply list_elem_of_In, in_flat_map in H.
  destruct H as (ln & _ & Hn). unfold line_numbers, Re.findall in Hn.
  apply in_map_iff in Hn as (ph & <- & Hph). apply in_map_iff in Hph as (m & <- & Hm).
  apply list_elem_of_In, ReFacts.finditer_sound in Hm.
  unfold Re.group0. eapply phone_token_some. exact Hm.
Qed.

Lemma fill_keeps_some st n : some_slot st = true -> some_slot (fill st n) = true.
Proof.
  destruct st as [[p w] a]. unfold fill. cbn [some_slot].
  destruct (Py.truthy p) eqn:Ep, (Py.truthy w) eqn:Ew, (Py.truthy a) eqn:Ea;
    cbn [negb orb some_slot]; intros H; try discriminate H;
    rewrite ?Ep, ?Ew, ?Ea, ?orb_true_r; reflexivity.
Qed.

Lemma pass2_keeps_some rem : forall st,
  some_slot st = true -> some_slot (foldl fill st rem) = true.
Proof.
  induction rem as [|n rem IH]; intros st H; cbn [foldl]; [exact H|].
  apply IH, fill_keeps_some, H.
Qed.

Lemma filter_nothing_taken (l : list str) :
  List.filter (fun n => negb (Py.mem n [])) l = l.
Proof.
  induction l as [|x l IH]; [reflexivity|]. cbn [List.filter].
  change (Py.mem x []) with false. cbn [negb]. f_equal. exact IH.
Qed.

Lemma parse_contact_some text :
  phone_numbers U text <> [] -> some_slot (parse_contact_field U text) = true.
Proof.
  intros Hnums. unfold parse_contact_field. destruct text as [|c0 text].
  { destruct Hnums. reflexivity. }
  set (lines := contact_lines U (c0 :: text)).
  set (st1 := foldl (label_line U) (None, None, None) lines).
  assert (H1 : slots_from (phone_numbers U (c0 :: text)) st1).
  { apply pass1_from; [|cbn; repeat constructor].
    intros ln n. apply numbers_of_line. }
  assert (Hcase : some_slot st1 = true \/ st1 = (None, None, None)).
  { destruct st1 as [[p w] a]. cbn [slots_from] in H1.
    inversion H1 as [|? ? Hp H1']; subst. inversion H1' as [|? ? Hw H1'']; subst.
    inversion H1'' as [|? ? Ha _]; subst.
    assert (Ht : forall o : option str,
              match o with None => True | Some n => n ∈ phone_numbers U (c0 :: text) end ->
              Py.truthy o = true \/ o = None).
    { intros [n|] Ho; [left | right; reflexivity].
      apply phone_number_some in Ho. destruct n; [congruence | reflexivity]. }
    unfold some_slot.
    destruct (Ht p Hp) as [->| ->]; [left; reflexivity|].
    destruct (Ht w Hw) as [->| ->]; [left; reflexivity|].
    destruct (Ht a Ha) as [->| ->]; [left; reflexivity | right; reflexivity]. }
  destruct Hcase as [Hs|E]; [apply pass2_keeps_some; exact Hs|].
  rewrite E. rewrite remaining_filter. cbn [taken List.map Py.or_empty List.filter].
  rewrite filter_nothing_taken.
  change (flat_map (line_numbers U) lines) with (phone_numbers U (c0 :: text)).
  destruct (phone_numbers U (c0 :: text)) as [|n rest] eqn:En; [congruence|].
  assert (Hn : n <> []) by (apply (phone_number_some (c0 :: text)); rewrite En; left).
  change (some_slot (foldl fill (fill (None, None, None) n) rest) = true).
  apply pass2_keeps_some. destruct n; [congruence | reflexivity].
Qed.

End SlotFilled.

Lemma ascii_digits_no_spaces c :
  Py.is_digit ascii_only c = true -> Py.is_space ascii_only c = false.
Proof.
  unfold Py.is_digit, Py.digit_value, Py.is_space. cbn [decimal_value space_like ascii_only].
  destruct (Py.is_ascii c); [|discriminate].
  destruct (Py.ascii_digit c) eqn:E; [|discriminate]. intros _.
  unfold Py.ascii_digit, Py.ascii_space, Py.between in *.
  apply andb_prop in E as [H1 H2]. apply N.leb_le in H1, H2.
  repeat (apply orb_false_intro); try apply andb_false_intro2;
    first [apply N.leb_gt; lia | apply N.eqb_neq; lia].
Qed.

(** ** A digit that is no decimal digit *)

Section NotDecimal.
Variable U : unicode_tables.

Lemma luhn_raises c rest :
  Py.is_ascii c = false -> digit_like U c = true -> decimal_value U c = None ->
  length rest = 12 -> forallb (Py.is_digit_like U) rest = true ->
  _luhn_sa_id_ok U (c :: rest) = Raise ValueError.
Proof.
  intros Hc Hd Hv Hlen Hrest. unfold _luhn_sa_id_ok.
  cbn [length]. rewrite Hlen. cbn [Nat.eqb negb orb].
  assert (Hdl : Py.is_digit_like U c = true)
    by (unfold Py.is_digit_like; rewrite Hc; exact Hd).
  unfold Py.isdigit. cbn [forallb]. rewrite Hrest, Hdl. cbn [andb negb].
  do 12 (destruct rest as [|? rest]; [discriminate Hlen|]).
  cbn [pick char_at lookup list_lookup mbind result_bind mret result_ret sum_ints].
  assert (Hint : int_r U [c] = Raise ValueError).
  { unfold int_r, Py.int_. cbn [Py.int_go]. unfold Py.digit_value.
    rewrite Hc, Hv. reflexivity. }
  rewrite Hint. reflexivity.
Qed.

End NotDecimal.

(** ** The plan of the columns *)

Section Plan.
Variable U : unicode_tables.

Lemma make_unique_named names : forall seen,
  Forall (fun h => h <> []) (make_unique seen names).
Proof.
  induction names as [|h names IH]; intros seen; cbn [make_unique]; constructor.
  - destruct (default 0 (seen !! Py.or_str h (u "Unnamed"))).
    + destruct h; discriminate.
    + destruct h; discriminate.
  - apply IH.
Qed.

Lemma reconcile_named cleaned_header :
  3 <= length cleaned_header -> Forall (fun h => h <> []) (reconcile cleaned_header).
Proof.
  intros Hn. unfold reconcile.
  replace (3 <=? length cleaned_header) with true by (symmetry; apply Nat.leb_le; exact Hn).
  apply Forall_app. split; [|repeat constructor; discriminate].
  rewrite take_app_le by (rewrite make_unique_length, length_take; lia).
  apply Forall_take, make_unique_named.
Qed.

Lemma read_shape super_header_raw header_raw data :
  if within_limit (super_header_raw :: header_raw :: data)
  then
    exists headers rows,
      read_csv_with_multiline U (Readable (super_header_raw :: header_raw :: data))
      = Ok (headers, List.map (clean_cell U) super_header_raw, rows)
      /\ length headers = length header_raw
      /\ length rows = length data
      /\ Forall (fun d : gmap str str => dom d = list_to_set headers) rows
      /\ (if 3 <=? length header_raw
          then drop (length header_raw - 3) headers = [u "R1"; u "R2"; u "R3"]
               /\ Forall (fun h => h <> []) headers
          else True)
  else
    read_csv_with_multiline U (Readable (super_header_raw :: header_raw :: data))
    = Raise CsvError.
Proof.
  destruct (within_limit (super_header_raw :: header_raw :: data)) eqn:Hw;
    [|apply read_over; exact Hw].
  rewrite (read_within U _ _ _ Hw). cbv zeta.
  set (cells := header_cells U 0 header_raw (List.map (clean_cell U) super_header_raw)).
  assert (Hc : length cells = length header_raw) by apply header_cells_length.
  destruct (reconcile_shape cells) as [Hlen Hlast].
  eexists _, _. split; [reflexivity|].
  split; [congruence|]. split; [apply length_map|]. split.
  - apply Forall_forall. intros d Hd. apply list_elem_of_In, in_map_iff in Hd.
    destruct Hd as (row & <- & _). apply row_dict_dom.
  - rewrite <- Hc. destruct (Nat.leb_spec 3 (length cells)) as [Hle|_]; [|exact I].
    split; [exact Hlast | apply reconcile_named; exact Hle].
Qed.

Lemma get_col_exact_first headers name :
  if existsb (fun h => Py.eqb (Py.lower U h) (Py.lower U name)) headers
  then exists h, get_col U headers name = Some h /\ h ∈ headers
                 /\ Py.lower U h = Py.lower U name
  else get_col U headers name
       = List.find (fun h => nonempty h && Py.contains (Py.lower U name) (Py.lower U h))
                   headers.
Proof.
  destruct (existsb _ headers) eqn:E.
  - apply existsb_exists in E as (h & Hin & Eh). apply PyFacts.py_eqb_eq in Eh.
    apply (get_col_exact U headers name h); [apply list_elem_of_In; exact Hin | exact Eh].
  - unfold get_col.
    destruct (dict_of _ !! Py.lower U name) as [h|] eqn:Hc; [exfalso|reflexivity].
    apply dict_of_elem, list_elem_of_In, in_map_iff in Hc.
    destruct Hc as (h' & Eh & Hin). injection Eh as Eh ->.
    apply not_true_iff_false in E. apply E, existsb_exists. exists h.
    split; [exact Hin | apply PyFacts.py_eqb_eq; exact Eh].
Qed.

End Plan.

(** * Further properties of the program *)


(** X2: the keys of every record [main] builds are the field names of
    its table, in order: for each of the three files [write_csv] puts
    the field names on the first line and, for each record, all its
    values in the order of the record; no value is left out and no
    field is filled with a blank for want of a key. *)
Theorem main_writes_every_field (U : unicode_tables) (today : date) (src : source)
    (input_path : str) (cohort_year : option Z) :
  match main U today src input_path cohort_year with
  | Return _ (Some t) =>
      write_csv t1_fields (t1_rows t) = t1_fields :: List.map (fun r => r.*2) (t1_rows t)
      /\ write_csv t2_fields (t2_rows t) = t2_fields :: List.map (fun r => r.*2) (t2_rows t)
      /\ write_csv t3_fields (t3_rows t) = t3_fields :: List.map (fun r => r.*2) (t3_rows t)
  | _ => True
  end.
Proof.
  pose proof (main_fields U today src input_path cohort_year) as H.
  destruct (main U today src input_path cohort_year) as [code [t|]|e]; try exact I.
  destruct H as (H1 & H2 & H3), field_lists_nodup as (N1 & N2 & N3).
  repeat split; apply written_lines; assumption.
Qed.

(** X3: on a file with its two header rows, no cell of which is longer
    than the reader admits, the function returns as many column names
    as the detail header has cells, the cleaned super header, and one
    dictionary per data row whose keys are exactly the column names,
    however many cells the row has; with three columns or more the last
    three names are R1, R2, R3 and no name is empty.  With a cell that
    is too long, in a header row or in a data row, it raises
    [csv.Error]. *)
Theorem read_csv_shape (U : unicode_tables) (super_header_raw header_raw : list str)
    (data : list (list str)) :
  if within_limit (super_header_raw :: header_raw :: data)
  then
    exists headers rows,
      read_csv_with_multiline U (Readable (super_header_raw :: header_raw :: data))
      = Ok (headers, List.map (clean_cell U) super_header_raw, rows)
      /\ length headers = length header_raw
      /\ length rows = length data
      /\ Forall (fun d : gmap str str => dom d = list_to_set headers) rows
      /\ (if 3 <=? length header_raw
          then drop (length header_raw - 3) headers = [u "R1"; u "R2"; u "R3"]
               /\ Forall (fun h => h <> []) headers
          else True)
  else
    read_csv_with_multiline U (Readable (super_header_raw :: header_raw :: data))
    = Raise CsvError.
Proof. apply read_shape. Qed.

(** X4: in the dictionary of a row, the value under a column name is
    the cell of the last column that carries the name, and the empty
    string if the row is too short to have that cell. *)
Theorem row_value_of_last_column (header row : list str) (i : nat) (h : str) :
  header !! i = Some h -> (forall j, i < j -> header !! j <> Some h) ->
  row_dict header row !! h = Some (default [] (row !! i)).
Proof. apply row_dict_last. Qed.

Lemma row_value_of_last_column_witness :
  row_dict [u "A"; u "B"; u "A"; u "C"] [u "1"; u "2"; u "3"] !! u "A" = Some (u "3")
  /\ row_dict [u "A"; u "B"; u "A"; u "C"] [u "1"; u "2"; u "3"] !! u "C" = Some [].
Proof.
  split.
  - apply (row_value_of_last_column [u "A"; u "B"; u "A"; u "C"]
             [u "1"; u "2"; u "3"] 2 (u "A")); [reflexivity|].
    intros [|[|[|[|j]]]] Hj; try lia; discriminate.
  - apply (row_value_of_last_column [u "A"; u "B"; u "A"; u "C"]
             [u "1"; u "2"; u "3"] 3 (u "C")); [reflexivity|].
    intros [|[|[|[|j]]]] Hj; try lia; discriminate.
Defined.

(** X5: the loop that renames the columns gives each column its name
    (Unnamed for a blank one) bare at the first occurrence of the name,
    and followed by an underscore and the occurrence number at every
    later one; the name an earlier column was renamed to plays no part. *)
Theorem header_suffix_counts_occurrences (names : list str) :
  make_unique ∅ names
  = imap (fun i h =>
            renamed (Py.or_str h (u "Unnamed"))
              (occurrences (Py.or_str h (u "Unnamed"))
                 (take i (List.map (fun h => Py.or_str h (u "Unnamed")) names))))
         names.
Proof.
  rewrite make_unique_counts. apply imap_ext. intros i h _. cbn beta.
  rewrite lookup_empty. reflexivity.
Qed.

(** X6: a cleaned header cell is a sequence of words (non-empty, free
    of spaces and line breaks) separated by single spaces, and cleaning
    it again changes nothing. *)
Theorem clean_cell_single_spaced (U : unicode_tables) (h : str) :
  (exists ws, clean_cell U h = Py.join (u " ") ws /\ Forall (word U) ws)
  /\ clean_cell U (clean_cell U h) = clean_cell U h.
Proof.
  assert (H : exists ws, clean_cell U h = Py.join (u " ") ws /\ Forall (word U) ws).
  { eexists. split; [reflexivity | apply split_words]. }
  split; [exact H|]. destruct H as (ws & -> & Hws). apply clean_cell_tidy, Hws.
Qed.

(** X7: the column that [get_col] finds is one of the headers and
    contains the name asked for, case ignored; it finds none only if no
    header equals the name and no non-empty header contains it; and a
    header that equals the name, case ignored, is preferred to one that
    merely contains it. *)
Theorem get_col_finds (U : unicode_tables) (headers : list str) (name : str) :
  match get_col U headers name with
  | Some h => h ∈ headers /\ Py.contains (Py.lower U name) (Py.lower U h) = true
  | None =>
      forall h, h ∈ headers ->
        Py.lower U h <> Py.lower U name
        /\ (h <> [] -> Py.contains (Py.lower U name) (Py.lower U h) = false)
  end
  /\ (if existsb (fun h => Py.eqb (Py.lower U h) (Py.lower U name)) headers
      then exists h, get_col U headers name = Some h /\ h ∈ headers
                     /\ Py.lower U h = Py.lower U name
      else get_col U headers name
           = List.find (fun h => nonempty h
                                 && Py.contains (Py.lower U name) (Py.lower U h))
                       headers).
Proof. split; [apply get_col_cases | apply get_col_exact_first]. Qed.

(** X8: the positions listed for a group are the positions of the
    super header cells equal to its name, in ascending order; the empty
    name has no group. *)
Theorem group_indices_positions (super_headers : list str) (g : str) :
  default [] (group_indices super_headers !! g)
  = if nonempty g
    then List.filter (fun i => Py.eqb (nth i super_headers []) g)
                     (seq 0 (length super_headers))
    else [].
Proof. apply group_indices_closed. Qed.

(** X9: what [normalize_phone] returns holds decimal digits and plus
    signs only, no space and no hyphen, and normalising it again
    changes nothing. *)
Theorem normalize_phone_digits_and_plus (U : unicode_tables) (raw : str) :
  Forall (fun c => Py.is_digit U c || (c =? 43)%N = true) (normalize_phone U raw)
  /\ Forall (fun c => Py.is_space U c || (c =? 45)%N = false) (normalize_phone U raw)
  /\ normalize_phone U (normalize_phone U raw) = normalize_phone U raw.
Proof. apply normalize_phone_shape. Qed.

(** X10: a slot that [parse_contact_field] fills holds one of the
    numbers found in the field, in canonical form: decimal digits, after
    one plus sign or none.  A field without a number leaves the three
    slots empty. *)
Theorem contact_slots_hold_numbers_of_the_field (U : unicode_tables) (text : str) :
  let '(p, w, a) := parse_contact_field U text in
  Forall (fun o : option str =>
            match o with
            | None => True
            | Some n => n ∈ phone_numbers U text /\ canonical U n
            end) [p; w; a].
Proof.
  pose proof (parse_contact_from U text) as H.
  destruct (parse_contact_field U text) as [[p w] a]. cbn [slots_from] in H.
  eapply Forall_impl; [exact H|]. intros [n|] Hn; [|exact I].
  split; [exact Hn | exact (phone_number_canonical U text n Hn)].
Qed.

(** X11: when no decimal digit of the database is a space, a field in
    which a number is found never leaves the three slots empty. *)
Theorem contact_with_number_fills_a_slot (U : unicode_tables) (text : str) :
  (forall c, Py.is_digit U c = true -> Py.is_space U c = false) ->
  phone_numbers U text <> [] ->
  some_slot (parse_contact_field U text) = true.
Proof. intros H. apply (parse_contact_some U H). Qed.

Lemma contact_with_number_fills_a_slot_witness :
  some_slot (parse_contact_field ascii_only (u "WhatsApp 082 111 2222")) = true.
Proof.
  apply (contact_with_number_fills_a_slot ascii_only (u "WhatsApp 082 111 2222")
           ascii_digits_no_spaces).
  vm_compute. discriminate.
Defined.

(** X12: the name [parse_parent_details] returns, if any, is not empty
    and is a sequence of words separated by single spaces; the contact
    it returns, if any, is in canonical form. *)
Theorem parent_details_shape (U : unicode_tables) (text : str) :
  let '(name, contact) := parse_parent_details U text in
  match name with None => True | Some n => well_spaced U n end
  /\ match contact with None => True | Some c => canonical U c end.
Proof. apply parse_parent_shape. Qed.

(** X13: the comment text that [split_comments] returns is a sequence
    of words separated by single spaces: it holds no line break and no
    tab, no space at either end and no two spaces in a row. *)
Theorem comment_text_single_spaced (U : unicode_tables) (text : str) :
  exists ws, snd (split_comments U text) = Py.join (u " ") ws /\ Forall (word U) ws.
Proof.
  destruct (split_comments_text U text) as [x ->].
  eexists. split; [reflexivity | apply split_words].
Qed.

(** X14: a cell without any decimal digit gives no token, and its
    words, joined by single spaces, as the comment text. *)
Theorem split_comments_without_digit (U : unicode_tables) (text : str) :
  Forall (fun c => Py.is_digit U c = false) text ->
  split_comments U text = ([], Py.join (u " ") (Py.split U text)).
Proof. apply split_comments_no_digit. Qed.

Lemma split_comments_without_digit_witness :
  split_comments ascii_only (u "  phoned mother," ++ [13%N; 10%N] ++ u "no answer ")
  = ([], u "phoned mother, no answer").
Proof.
  rewrite (split_comments_without_digit ascii_only) by (repeat constructor).
  vm_compute. reflexivity.
Defined.


(** X16: twelve decimal digits have exactly one check digit: one
    decimal digit, and no other, completes them to a number that passes
    the test of [_luhn_sa_id_ok]. *)
Theorem luhn_check_digit_unique (U : unicode_tables) (prefix : str) :
  length prefix = 12 -> Forall (fun c => Py.ascii_digit c = true) prefix ->
  exists d,
    Py.ascii_digit d = true
    /\ forall d', Py.ascii_digit d' = true ->
         (_luhn_sa_id_ok U (prefix ++ [d']) = Ok true <-> d' = d).
Proof.
  intros Hlen Hp.
  do 12 (destruct prefix as [|? prefix]; [discriminate Hlen|]).
  destruct prefix; [|discriminate Hlen].
  destruct (luhn_form U _ _ _ _ _ _ _ _ _ _ _ _ Hp) as (c & Hc).
  set (v := ((10 - c mod 10) mod 10)%Z) in *.
  assert (Hv : (0 <= v < 10)%Z) by (apply Z.mod_pos_bound; lia).
  exists (48 + Z.to_N v)%N. split.
  - unfold Py.ascii_digit, Py.between. apply andb_true_intro.
    split; apply N.leb_le; lia.
  - intros d' Hd'. cbn [app]. rewrite (Hc d' Hd').
    unfold Py.ascii_digit, Py.between in Hd'.
    apply andb_prop in Hd' as [H1 H2]. apply N.leb_le in H1, H2.
    split.
    + intros [= E]. apply Z.eqb_eq in E. lia.
    + intros ->. f_equal. apply Z.eqb_eq. lia.
Qed.

Lemma luhn_check_digit_unique_witness :
  exists d,
    Py.ascii_digit d = true
    /\ forall d', Py.ascii_digit d' = true ->
         (_luhn_sa_id_ok ascii_only (u "800101500908" ++ [d']) = Ok true <-> d' = d).
Proof.
  apply (luhn_check_digit_unique ascii_only (u "800101500908"));
    [reflexivity | repeat constructor].
Defined.

(** X17: the guard of [_luhn_sa_id_ok] is [str.isdigit], the conversion
    is [int]: on 13 characters that [isdigit] accepts, the first of
    which is no decimal digit (the superscript two is such a character),
    the function raises [ValueError] instead of returning false. *)
Theorem luhn_raises_on_digit_that_is_no_decimal (U : unicode_tables) (c : char)
    (rest : str) :
  Py.is_ascii c = false -> digit_like U c = true -> decimal_value U c = None ->
  length rest = 12 -> forallb (Py.is_digit_like U) rest = true ->
  _luhn_sa_id_ok U (c :: rest) = Raise ValueError.
Proof. apply luhn_raises. Qed.

Lemma luhn_raises_on_digit_that_is_no_decimal_witness :
  _luhn_sa_id_ok with_superscript_two (178%N :: u "001015009087") = Raise ValueError.
Proof.
  apply (luhn_raises_on_digit_that_is_no_decimal with_superscript_two 178
           (u "001015009087")); reflexivity.
Defined.

(** X18: a valid result carries the date of birth the identity number
    spells (its first six digits behind the century 19 or 20), an age
    from 0 to 120, and the gender its seventh digit gives (Male from 5
    on); the number has 13 digits and passes the check digit test. *)
Theorem valid_id_facts (U : unicode_tables) (today : date) (id_value : str)
    (f : id_facts) :
  parse_sa_id_fields U today id_value = Ok f -> valid f = true ->
  let digits := List.filter Py.ascii_digit id_value in
  length digits = 13
  /\ _luhn_sa_id_ok U digits = Ok true
  /\ reason f = []
  /\ (exists cc, (cc = u "19" \/ cc = u "20")
        /\ dob_iso f = cc ++ slice 0 2 digits ++ u "-" ++ slice 2 4 digits
                          ++ u "-" ++ slice 4 6 digits)
  /\ (exists age, (0 <= age <= 120)%Z /\ age_str f = Py.str_of_Z age)
  /\ gender f = (if (53 <=? nth 6 digits 0)%N then u "Male" else u "Female").
Proof. apply parse_valid. Qed.

Lemma valid_id_facts_witness :
  exists cc, (cc = u "19" \/ cc = u "20")
    /\ u "1980-01-01" = cc ++ u "80" ++ u "-" ++ u "01" ++ u "-" ++ u "01".
Proof.
  destruct (valid_id_facts ascii_only (Date 2024 6 15) (u "800101 5009 087")
              (IdFacts (u "1980-01-01") (u "44") (u "Male") true []))
    as (_ & _ & _ & H & _); [vm_compute; reflexivity | reflexivity | exact H].
Defined.

(** X19: when both centuries give a plausible date of birth, the two
    ages are 100 years apart, and the 2000s are chosen unless their age
    is 0: a child in its first year is given the date of birth of the
    1900s and the age 100. *)
Theorem both_centuries_plausible (U : unicode_tables) (today : date)
    (yy mm dd : str) (d19 d20 : date) (a19 a20 : Z) :
  try_century U today yy mm dd 1900 = Some (d19, a19) ->
  try_century U today yy mm dd 2000 = Some (d20, a20) ->
  a19 = (a20 + 100)%Z
  /\ choose_century (Some (d19, a19)) (Some (d20, a20))
     = (if (a20 =? 0)%Z then Some (d19, 100%Z) else Some (d20, a20)).
Proof.
  unfold try_century. intros H19 H20.
  destruct (int_r U yy) as [y|]; [|discriminate H19].
  destruct (int_r U mm) as [m|]; [|discriminate H19].
  destruct (int_r U dd) as [d|]; [|discriminate H19].
  cbn [mbind result_bind mret result_ret] in H19, H20.
  unfold mkdate in H19, H20.
  destruct (_ && _)%bool in H19; [|discriminate H19].
  destruct (_ && _)%bool in H20; [|discriminate H20].
  cbn [mbind result_bind mret result_ret catch dyear] in H19, H20.
  unfold before_birthday in H19, H20. cbn [dmonth dday] in H19, H20.
  match type of H19 with
  | (if ?t then _ else _) = _ => destruct t eqn:T19; [|discriminate H19]
  end.
  match type of H20 with
  | (if ?t then _ else _) = _ => destruct t eqn:T20; [|discriminate H20]
  end.
  injection H19 as <- <-. injection H20 as <- <-.
  apply andb_prop in T19 as [L19 U19], T20 as [L20 U20].
  apply Z.leb_le in L19, U19, L20, U20.
  assert (E : forall k : Z, (dyear today - (1900 + y) - k = dyear today - (2000 + y) - k + 100)%Z)
    by (intros; lia).
  split; [apply E|]. unfold choose_century.
  rewrite E in U19 |- *.
  destruct (Z.eqb_spec (dyear today - (2000 + y)
              - (if ((dmonth today <? m) || (dmonth today =? m) && (dday today <? d))%Z
                 then 1 else 0)) 0) as [E0|N0].
  - rewrite E0. reflexivity.
  - destruct (Z.ltb_spec 100 (dyear today - (2000 + y)
              - (if ((dmonth today <? m) || (dmonth today =? m) && (dday today <? d))%Z
                 then 1 else 0) + 100)); [reflexivity | lia].
Qed.

Lemma both_centuries_plausible_witness :
  choose_century (Some (Date 1924 1 1, 100%Z)) (Some (Date 2024 1 1, 0%Z))
  = Some (Date 1924 1 1, 100%Z).
Proof.
  apply (both_centuries_plausible ascii_only (Date 2024 6 15)
           (u "24") (u "01") (u "01") (Date 1924 1 1) (Date 2024 1 1) 100 0);
    vm_compute; reflexivity.
Defined.

(** X20: the cohort year is read from the file name.  When the last
    component of the path holds 20 and two digits 0 to 9, with no word
    character next to them on either side and no character 2 before
    them, the result is the year these four characters spell.  When it
    holds no character 2 at all, the result is the fallback, or the
    year of today if there is none.  And when the decimal digits of the
    database have the values 0 to 9, the result is in every case a year
    from 2000 to 2099 or that fallback. *)
Theorem extract_year_read_from_name (U : unicode_tables) (today : date) (path : str)
    (fallback : option Z) :
  (forall pre x y post,
     basename path = pre ++ [50; 48; x; y]%N ++ post ->
     Forall (fun c => c <> 50%N) pre ->
     run_ends (Py.is_word U) (rev pre) ->
     Py.ascii_digit x = true -> Py.ascii_digit y = true ->
     run_ends (Py.is_word U) post ->
     extract_year_from_filename U today path fallback
     = Ok (2000 + 10 * Z.of_N (x - 48) + Z.of_N (y - 48))%Z)
  /\ (Forall (fun c => c <> 50%N) (basename path) ->
      extract_year_from_filename U today path fallback
      = Ok (default (dyear today) fallback))
  /\ ((forall c d, decimal_value U c = Some d -> d <= 9) ->
      exists y,
        extract_year_from_filename U today path fallback = Ok y
        /\ ((2000 <= y <= 2099)%Z \/ y = default (dyear today) fallback)).
Proof.
  split; [|split].
  - intros pre x y post. apply extract_year_read.
  - apply extract_year_fallback.
  - intros H. apply (extract_year_range U today H).
Qed.

(** the year of the cohort file, after a directory; a name without a
    year *)
Lemma extract_year_read_from_name_witness :
  extract_year_from_filename ascii_only (Date 2026 1 5)
    (u "in/2024 JGT Cohort - 2024 Cohort.csv") None = Ok 2024%Z
  /\ extract_year_from_filename ascii_only (Date 2026 1 5)
       (u "in/cohort.csv") None = Ok 2026%Z.
Proof.
  split.
  - apply (proj1 (extract_year_read_from_name ascii_only (Date 2026 1 5)
                    (u "in/2024 JGT Cohort - 2024 Cohort.csv") None)
             [] 50%N 52%N (u " JGT Cohort - 2024 Cohort.csv"));
      first [reflexivity | constructor].
  - apply (proj1 (proj2 (extract_year_read_from_name ascii_only (Date 2026 1 5)
                           (u "in/cohort.csv") None))).
    repeat constructor; discriminate.
Defined.

(** X21: only the last component of the path is searched for the
    year: what stands before a slash plays no part. *)
Theorem extract_year_ignores_directory (U : unicode_tables) (today : date)
    (dir file : str) (fallback : option Z) :
  extract_year_from_filename U today (dir ++ u "/" ++ file) fallback
  = extract_year_from_filename U today file fallback.
Proof.
  unfold extract_year_from_filename. rewrite basename_after_slash. reflexivity.
Qed.

(** X22: the slug of a name is at most two characters long, all of
    them lower-case letters a to z; of an ASCII name it is the first two
    letters, in lower case. *)
Theorem slug_letters_two_shape (U : unicode_tables) (s : str) :
  length (slug_letters_two U s) <= 2
  /\ Forall (fun c => Py.ascii_lower c = true) (slug_letters_two U s)
  /\ (if forallb Py.is_ascii s
      then slug_letters_two U s
           = List.map Py.to_lower (take 2 (List.filter Py.ascii_letter s))
      else True).
Proof. apply slug_shape. Qed.

(** X23: along a run, the identifier of a row is its base key, bare
    when no earlier row has the same base key, and followed by one more
    than the number of earlier rows with that base key otherwise. *)
Theorem identifier_suffix_counts_occurrences (U : unicode_tables) (year : Z)
    (pairs : list (str * str)) :
  assign_ids U year ∅ 0 pairs
  = imap (fun i p =>
            suffixed (student_base U p.1 p.2 year i)
              (occurrences (student_base U p.1 p.2 year i)
                 (take i (imap (fun j q => student_base U q.1 q.2 year j) pairs))))
         pairs.
Proof.
  rewrite assign_ids_counts. apply imap_ext. intros i p _. cbn beta.
  rewrite lookup_empty. reflexivity.
Qed.

(** X24: of a cell with a decimal digit, [stars_to_number] returns the
    first run of decimal digits, taken whole. *)
Theorem stars_to_number_first_digits (U : unicode_tables) (pre run post : str) :
  Forall (fun c => Py.is_digit U c = false) pre ->
  Forall (fun c => Py.is_digit U c = true) run -> run <> [] ->
  run_ends (Py.is_digit U) post ->
  stars_to_number U (pre ++ run ++ post) = run.
Proof. apply stars_first_digits. Qed.

Lemma stars_to_number_first_digits_witness :
  stars_to_number ascii_only (u "rated " ++ u "45" ++ u " of 50") = u "45".
Proof.
  apply (stars_to_number_first_digits ascii_only (u "rated ") (u "45") (u " of 50"));
    [repeat constructor | repeat constructor | discriminate | reflexivity].
Defined.

(** X25: of a cell without any decimal digit, [stars_to_number] returns
    the number of star glyphs in decimal, and the empty string when
    there is none. *)
Theorem stars_to_number_counts_stars (U : unicode_tables) (val : str) :
  Forall (fun c => Py.is_digit U c = false) val ->
  stars_to_number U val
  = match Py.count_char star_glyph val with
    | O => []
    | S n => Py.str_of_nat (S n)
    end.
Proof. apply stars_counted. Qed.

Lemma stars_to_number_counts_stars_witness :
  stars_to_number ascii_only
    ([star_glyph; star_glyph] ++ u " (" ++ [star_glyph] ++ u ")") = u "3".
Proof.
  rewrite (stars_to_number_counts_stars ascii_only) by (repeat constructor).
  reflexivity.
Defined.

(** X26: [norm] of the validator returns the words of its argument
    joined by single spaces (the empty string for [None]); a cleaned
    header cell is left as it is. *)
Theorem norm_joins_the_words (U : unicode_tables) (s : option str) (h : str) :
  norm U s = Py.join (u " ") (Py.split U (Py.or_empty s))
  /\ norm U (Some (clean_cell U h)) = clean_cell U h.
Proof.
  split; [apply norm_words|]. rewrite norm_words. cbn [Py.or_empty].
  unfold clean_cell. rewrite split_tidy by apply split_words. reflexivity.
Qed.

(** X27: the column written as Academic Details 1 is the one [get_col]
    finds for Unnamed, and the column written as Academic Details 2 the
    one it finds for Unnamed_2: the alternative of line 391 is never
    taken. *)
Theorem academic_details_columns (U : unicode_tables) (headers : list str) :
  academic_details_1_col U headers = get_col U headers (u "Unnamed")
  /\ academic_details_2_col U headers = get_col U headers (u "Unnamed_2").
Proof. apply academic_cols. Qed.

(** X28: whenever a column is found for the identity number, a column
    is found for the identity document as well: a non-empty header that
    contains the letters id, case ignored, be it the column of the
    identity number itself. *)
Theorem id_document_column_found (U : unicode_tables) (headers : list str) (h : str) :
  id_col U headers = Some h ->
  exists h', id_doc_col U headers = Some h' /\ h' ∈ headers /\ h' <> []
             /\ Py.contains (u "id") (Py.lower U h') = true.
Proof. apply id_doc_found. Qed.

Lemma id_document_column_found_witness :
  id_doc_col ascii_only [u "Name"; u "Residence"; u "ID Number"] = Some (u "Residence")
  /\ exists h', id_doc_col ascii_only [u "Name"; u "Residence"; u "ID Number"] = Some h'
                /\ h' ∈ [u "Name"; u "Residence"; u "ID Number"] /\ h' <> []
                /\ Py.contains (u "id") (Py.lower ascii_only h') = true.
Proof.
  split; [vm_compute; reflexivity|].
  apply (id_document_column_found ascii_only [u "Name"; u "Residence"; u "ID Number"]
           (u "ID Number")).
  vm_compute. reflexivity.
Defined.
